(** * Euler-ancestral discrete scheduler and guidance combiners

    A shallow embedding of

    - [src/diffusers/schedulers/scheduling_euler_ancestral_discrete.py]
      (class [EulerAncestralDiscreteScheduler]),
    - [src/diffusers/pipelines/pag_utils.py]
      ([PAGMixin._get_pag_scale], [PAGMixin._apply_perturbed_attention_guidance]),
    - the classifier-free-guidance lines of
      [src/diffusers/pipelines/meissonic/pipeline_meissonic_inpaint.py].

    The Python code computes on float32 / float64 tensors through PyTorch and
    NumPy.  The embedding is written once, over an interface [Arith] of scalar
    operations indexed by the dtype in which the source performs them, and is
    instantiated twice:

    - [IEEE]: IEEE-754 binary32 / binary64 with round-to-nearest-even, built on
      the Standard Library's [SpecFloat]; every definition runs under
      [vm_compute];
    - [Exact]: the real numbers, all roundings erased.

    Exceptions are explicit results, object attributes are fields of a record
    threaded through the methods, and the global PyTorch random generator is an
    explicit argument of [step]. *)

From Stdlib Require Import String.
From Stdlib Require Import List ZArith Bool Lia Reals Lra.
From Stdlib Require Import Floats.SpecFloat.
Import ListNotations.

Local Open Scope Z_scope.

(** ** Python results *)

Inductive exn : Type :=
| IndexError
| NotImplementedError
| RuntimeError
| TypeError
| ValueError.

Inductive result (A : Type) : Type :=
| Ok (a : A)
| Raise (e : exn).

Arguments Ok {A} a.
Arguments Raise {A} e.

Definition bind {A B : Type} (r : result A) (k : A -> result B) : result B :=
  match r with
  | Ok a => k a
  | Raise e => Raise e
  end.

Notation "x <- r ;; k" := (bind r (fun x => k))
  (at level 61, r at next level, right associativity).

Definition returns {A : Type} (r : result A) : Prop :=
  exists a, r = Ok a.

(** ** Sequences with Python indexing *)

(** [l[i]] for a Python int [i]: negative indices count from the end, anything
    outside [-len, len) raises [IndexError]. *)
Definition py_index {A : Type} (l : list A) (i : Z) : result A :=
  let n := Z.of_nat (length l) in
  let j := if i <? 0 then i + n else i in
  if (0 <=? j) && (j <? n)
  then match nth_error l (Z.to_nat j) with
       | Some a => Ok a
       | None => Raise IndexError
       end
  else Raise IndexError.

(** NumPy fancy indexing [a[idx]] with an integer index array. *)
Fixpoint np_take {A : Type} (a : list A) (idx : list Z) : result (list A) :=
  match idx with
  | [] => Ok []
  | i :: rest =>
      x <- py_index a i ;;
      xs <- np_take a rest ;;
      Ok (x :: xs)
  end.

(** [y[-1] = v] on a non-empty array. *)
Fixpoint set_last {A : Type} (l : list A) (v : A) : list A :=
  match l with
  | [] => []
  | [_] => [v]
  | x :: rest => x :: set_last rest v
  end.

(** [range(0, n)] as Python ints. *)
Definition py_range (n : Z) : list Z :=
  map Z.of_nat (seq 0 (Z.to_nat n)).

(** ** Scalar arithmetic *)

Inductive dtype : Type := float32 | float64.

Class Arith (num : Type) : Type := {
  (** the literal [0.0] *)
  fzero : num;
  (** [+], [-], [*], [/] on operands of the given dtype *)
  fadd : dtype -> num -> num -> num;
  fsub : dtype -> num -> num -> num;
  fmul : dtype -> num -> num -> num;
  fdiv : dtype -> num -> num -> num;
  (** [x ** 0.5] on a tensor of the given dtype *)
  fsqrt : dtype -> num -> num;
  (** a Python int as a float of the given dtype *)
  of_int : dtype -> Z -> num;
  (** conversion to the given dtype ([astype], [dtype=], scalar promotion) *)
  astype : dtype -> num -> num;
  (** [np.floor(x).astype(int)], [np.ceil(x).astype(int)], [np.mod(x, 1.0)] *)
  floor_int : num -> Z;
  ceil_int : num -> Z;
  fmod1 : num -> num;
  (** [==] and [<] *)
  feqb : num -> num -> bool;
  fltb : num -> num -> bool;
  (** Python's [x ** 0.5] on a float: [None] when the result is complex *)
  py_pow_half : num -> option num
}.

Section Model.

Context {num : Type} {A : Arith num}.

(** Tensors are modelled by their flattened data; a 0-dimensional tensor is a
    [num]. *)
Definition tensor : Type := list num.

(** [x ** 2] on a tensor element: PyTorch computes it as [x * x]. *)
Definition fpow2 (d : dtype) (x : num) : num := fmul d x x.

(** Elementwise binary operation with broadcasting of a one-element operand;
    other length mismatches are PyTorch's shape [RuntimeError]. *)
Fixpoint map2 (f : num -> num -> num) (a b : tensor) : tensor :=
  match a, b with
  | x :: a', y :: b' => f x y :: map2 f a' b'
  | _, _ => []
  end.

Definition broadcast2 (f : num -> num -> num) (a b : tensor) : result tensor :=
  if Nat.eqb (length a) (length b) then Ok (map2 f a b)
  else match a, b with
       | _, [y] => Ok (map (fun x => f x y) a)
       | [x], _ => Ok (map (fun y => f x y) b)
       | _, _ => Raise RuntimeError
       end.

(** [torch.cumprod(t, dim=0)] *)
Fixpoint cumprod_from (d : dtype) (acc : num) (t : tensor) : tensor :=
  match t with
  | [] => []
  | x :: rest => let p := fmul d acc x in p :: cumprod_from d p rest
  end.

Definition cumprod (d : dtype) (t : tensor) : tensor :=
  match t with
  | [] => []
  | x :: rest => x :: cumprod_from d x rest
  end.

(** [torch.linspace(start, end, steps, dtype=d)] as PyTorch's CPU kernel
    computes it: a negative count is rejected, one step yields [start], and
    otherwise, with [step = (end - start) / (steps - 1)], element [i] is
    [start + step * i] in the first half and [end - step * (steps - i - 1)] in
    the second.  In exact arithmetic this is the documented
    [start + i * (end - start) / (steps - 1)]. *)
Definition torch_linspace (d : dtype) (start stop : num) (steps : Z)
  : result tensor :=
  if steps <? 0 then Raise RuntimeError
  else
    let a := astype d start in
    let b := astype d stop in
    if steps =? 1 then Ok [a]
    else
      let step := fdiv d (fsub d b a) (of_int d (steps - 1)) in
      let halfway := steps / 2 in
      Ok (map (fun i =>
                 if i <? halfway
                 then fadd d a (fmul d step (of_int d i))
                 else fsub d b (fmul d step (of_int d (steps - i - 1))))
              (py_range steps)).

(** [np.linspace(start, stop, num, dtype=float)] as NumPy computes it:
    [arange(0, num) * step + start] with [step = (stop - start) / (num - 1)],
    the last element then overwritten by [stop]; a zero step multiplies by
    [delta] after dividing, and fewer than two samples multiply by [delta]. *)
Definition np_linspace (start stop : num) (n : Z) : result (list num) :=
  if n <? 0 then Raise ValueError
  else
    let div := n - 1 in
    let delta := fsub float64 stop start in
    let y := map (of_int float64) (py_range n) in
    let y :=
      if 0 <? div then
        let step := fdiv float64 delta (of_int float64 div) in
        if feqb step fzero
        then map (fun v => fmul float64 (fdiv float64 v (of_int float64 div)) delta) y
        else map (fun v => fmul float64 v step) y
      else map (fun v => fmul float64 v delta) y in
    let y := map (fun v => fadd float64 v start) y in
    Ok (if 1 <? n then set_last y stop else y).

(** ** Python values and argument binding *)

Inductive pyval : Type :=
| PyNone
| PyInt (z : Z)
| PyFloat (x : num)
| PyStr (s : string)
| PyList (l : list num).

Fixpoint assoc_find {V : Type} (k : string) (l : list (string * V)) : option V :=
  match l with
  | [] => None
  | (k', v) :: rest => if String.eqb k k' then Some v else assoc_find k rest
  end.

(** Positional arguments fill the parameters from the left. *)
Fixpoint bind_positional (params : list (string * option pyval))
  (args : list pyval) : result (list (string * pyval)) :=
  match args, params with
  | [], _ => Ok []
  | _ :: _, [] => Raise TypeError
  | a :: args', (p, _) :: params' =>
      rest <- bind_positional params' args' ;;
      Ok ((p, a) :: rest)
  end.

(** A keyword must name a parameter that has no value yet. *)
Fixpoint bind_keywords (params : list (string * option pyval))
  (bound : list (string * pyval)) (kwargs : list (string * pyval))
  : result (list (string * pyval)) :=
  match kwargs with
  | [] => Ok bound
  | (k, v) :: rest =>
      match assoc_find k params, assoc_find k bound with
      | Some _, None => bind_keywords params (bound ++ [(k, v)]) rest
      | _, _ => Raise TypeError
      end
  end.

(** Parameters left without a value take their default; a parameter without
    default is a missing argument. *)
Fixpoint fill_defaults (params : list (string * option pyval))
  (bound : list (string * pyval)) : result (list pyval) :=
  match params with
  | [] => Ok []
  | (p, dflt) :: params' =>
      v <- match assoc_find p bound, dflt with
           | Some v, _ => Ok v
           | None, Some d => Ok d
           | None, None => Raise TypeError
           end ;;
      vs <- fill_defaults params' bound ;;
      Ok (v :: vs)
  end.

(** Binding of the positional and keyword arguments of a call to the
    parameter list of the function (after [self]); every mismatch is a
    [TypeError]. *)
Definition py_bind (params : list (string * option pyval))
  (args : list pyval) (kwargs : list (string * pyval)) : result (list pyval) :=
  pos <- bind_positional params args ;;
  all <- bind_keywords params pos kwargs ;;
  fill_defaults params all.

(** ** EulerAncestralDiscreteScheduler *)

(** The arguments of [__init__], which [register_to_config] stores. *)
Record Config : Type := {
  num_train_timesteps : Z;
  beta_start : num;
  beta_end : num;
  beta_schedule : string;
  trained_betas : option (dtype * list num)
}.

(** [self.timesteps] holds the int64 [arange] after construction and a float64
    array after [set_timesteps]. *)
Inductive timesteps_t : Type :=
| IntTimesteps (l : list Z)
| FloatTimesteps (l : list num).

Record Scheduler : Type := {
  config : Config;
  betas_dtype : dtype;
  betas : tensor;
  alphas : tensor;
  alphas_cumprod : tensor;
  sigmas : tensor;
  init_noise_sigma : option num;
  num_inference_steps : pyval;
  timesteps : timesteps_t;
  derivatives : list tensor;
  is_scale_input_called : bool
}.

Definition with_num_inference_steps (self : Scheduler) (v : pyval) : Scheduler :=
  {| config := config self; betas_dtype := betas_dtype self;
     betas := betas self; alphas := alphas self;
     alphas_cumprod := alphas_cumprod self; sigmas := sigmas self;
     init_noise_sigma := init_noise_sigma self;
     num_inference_steps := v;
     timesteps := timesteps self; derivatives := derivatives self;
     is_scale_input_called := is_scale_input_called self |}.

Definition with_timesteps (self : Scheduler) (v : timesteps_t) : Scheduler :=
  {| config := config self; betas_dtype := betas_dtype self;
     betas := betas self; alphas := alphas self;
     alphas_cumprod := alphas_cumprod self; sigmas := sigmas self;
     init_noise_sigma := init_noise_sigma self;
     num_inference_steps := num_inference_steps self;
     timesteps := v; derivatives := derivatives self;
     is_scale_input_called := is_scale_input_called self |}.

Definition with_sigmas (self : Scheduler) (v : tensor) : Scheduler :=
  {| config := config self; betas_dtype := betas_dtype self;
     betas := betas self; alphas := alphas self;
     alphas_cumprod := alphas_cumprod self; sigmas := v;
     init_noise_sigma := init_noise_sigma self;
     num_inference_steps := num_inference_steps self;
     timesteps := timesteps self; derivatives := derivatives self;
     is_scale_input_called := is_scale_input_called self |}.

Definition with_init_noise_sigma (self : Scheduler) (v : option num) : Scheduler :=
  {| config := config self; betas_dtype := betas_dtype self;
     betas := betas self; alphas := alphas self;
     alphas_cumprod := alphas_cumprod self; sigmas := sigmas self;
     init_noise_sigma := v;
     num_inference_steps := num_inference_steps self;
     timesteps := timesteps self; derivatives := derivatives self;
     is_scale_input_called := is_scale_input_called self |}.

Definition with_derivatives (self : Scheduler) (v : list tensor) : Scheduler :=
  {| config := config self; betas_dtype := betas_dtype self;
     betas := betas self; alphas := alphas self;
     alphas_cumprod := alphas_cumprod self; sigmas := sigmas self;
     init_noise_sigma := init_noise_sigma self;
     num_inference_steps := num_inference_steps self;
     timesteps := timesteps self; derivatives := v;
     is_scale_input_called := is_scale_input_called self |}.

(** The branch of [__init__] that builds [self.betas], with their dtype.
    [torch.from_numpy] keeps the dtype of [trained_betas].  A negative
    [beta_start] or [beta_end] makes Python's [** 0.5] complex, which
    [torch.linspace] refuses for a real [dtype]. *)
Definition make_betas (c : Config) : result (dtype * tensor) :=
  match trained_betas c with
  | Some (d, b) => Ok (d, b)
  | None =>
      if String.eqb (beta_schedule c) "linear" then
        b <- torch_linspace float32 (beta_start c) (beta_end c)
               (num_train_timesteps c) ;;
        Ok (float32, b)
      else if String.eqb (beta_schedule c) "scaled_linear" then
        match py_pow_half (beta_start c), py_pow_half (beta_end c) with
        | Some s, Some e =>
            b <- torch_linspace float32 s e (num_train_timesteps c) ;;
            Ok (float32, map (fpow2 float32) b)
        | _, _ => Raise RuntimeError
        end
      else Raise NotImplementedError
  end.

(** [((1 - alphas_cumprod) / alphas_cumprod) ** 0.5] *)
Definition sigmas_of_alphas_cumprod (d : dtype) (acp : tensor) : tensor :=
  map (fun a => fsqrt d (fdiv d (fsub d (of_int d 1) a) a)) acp.

Definition init (c : Config) : result Scheduler :=
  db <- make_betas c ;;
  let d := fst db in
  let betas := snd db in
  let alphas := map (fun b => fsub d (of_int d 1) b) betas in
  let alphas_cumprod := cumprod d alphas in
  let sigmas := sigmas_of_alphas_cumprod d alphas_cumprod in
  let sigmas := map (astype float32) (rev sigmas ++ [fzero]) in
  Ok {| config := c; betas_dtype := d;
        betas := betas; alphas := alphas; alphas_cumprod := alphas_cumprod;
        sigmas := sigmas;
        init_noise_sigma := None;
        num_inference_steps := PyNone;
        timesteps := IntTimesteps (rev (py_range (num_train_timesteps c)));
        derivatives := [];
        is_scale_input_called := false |}.


(** The float64 expression
    [(1 - frac) * sigmas[low_idx] + frac * sigmas[high_idx]] of
    [set_timesteps], elementwise; [d] is the dtype of the sigma table. *)
Fixpoint interpolate (d : dtype) (frac lo hi : list num) : list num :=
  match frac, lo, hi with
  | f :: frac', l :: lo', h :: hi' =>
      fadd float64
        (fmul float64 (fsub float64 (of_int float64 1) f) (astype float64 l))
        (fmul float64 f (astype float64 h))
      :: interpolate d frac' lo' hi'
  | _, _, _ => []
  end.

(** Modelled from the spec: the attribute [self.num_train_timesteps] that
    [set_timesteps] reads.  [register_to_config] and [ConfigMixin]
    ([configuration_utils.py]) are not among the sources; the attribute is
    the training step count N of the spec, the constructor argument of that
    name, which the class also reads as [self.config.num_train_timesteps]. *)
Definition self_num_train_timesteps (self : Scheduler) : Z :=
  num_train_timesteps (config self).

(** [set_timesteps(num_inference_steps, device)].  The result carries the
    instance as the call leaves it, also when the call raises: attributes
    assigned before the exception keep their new value.  [device] is
    unused. *)
Definition set_timesteps (self : Scheduler) (num_inference_steps : pyval)
  (device : pyval) : result unit * Scheduler :=
  let self := with_num_inference_steps self num_inference_steps in
  match num_inference_steps with
  | PyInt m =>
      match np_linspace
              (of_int float64 (self_num_train_timesteps self - 1))
              (of_int float64 0) m with
      | Raise e => (Raise e, self)
      | Ok ts =>
          let self := with_timesteps self (FloatTimesteps ts) in
          let low_idx := map floor_int ts in
          let high_idx := map ceil_int ts in
          let frac := map fmod1 ts in
          let d := betas_dtype self in
          let sigmas := sigmas_of_alphas_cumprod d (alphas_cumprod self) in
          match np_take sigmas low_idx with
          | Raise e => (Raise e, self)
          | Ok lo =>
              match np_take sigmas high_idx with
              | Raise e => (Raise e, self)
              | Ok hi =>
                  let sigmas := interpolate d frac lo hi in
                  let sigmas := map (astype float32) (sigmas ++ [fzero]) in
                  let self := with_sigmas self sigmas in
                  match py_index sigmas 0 with
                  | Raise e => (Raise e, self)
                  | Ok s0 =>
                      let self := with_init_noise_sigma self (Some s0) in
                      (Ok tt, with_derivatives self [])
                  end
              end
          end
      end
  | _ => (Raise TypeError, self)
  end.

(** A call of [scheduler.set_timesteps] with positional and keyword
    arguments: the parameters after [self] are [num_inference_steps]
    (required) and [device=None]. *)
Definition set_timesteps_params : list (string * option pyval) :=
  [("num_inference_steps"%string, None); ("device"%string, Some PyNone)].

Definition call_set_timesteps (self : Scheduler) (args : list pyval)
  (kwargs : list (string * pyval)) : result unit * Scheduler :=
  match py_bind set_timesteps_params args kwargs with
  | Ok [n; dev] => set_timesteps self n dev
  | Ok _ => (Raise TypeError, self)
  | Raise e => (Raise e, self)
  end.

(** The default PyTorch random generator: its state determines every value
    it is still to produce, so a state is the sequence of standard-normal
    draws to come.  [torch.randn_like(t)] consumes one draw per element. *)
Definition Generator : Type := nat -> num.

Definition randn_like (g : Generator) (t : tensor) : tensor * Generator :=
  (map g (seq 0 (length t)), fun n => g (n + length t)%nat).

(** What [step] returns: [SchedulerOutput(prev_sample=...)] or, with
    [return_dict=False], the tuple [(prev_sample,)]. *)
Inductive step_output : Type :=
| SchedulerOutput (prev_sample : tensor)
| Tuple1 (prev_sample : tensor).

Definition prev_sample (o : step_output) : tensor :=
  match o with
  | SchedulerOutput p => p
  | Tuple1 p => p
  end.

(** The two noise levels of an ancestral step (lines 161-162). *)
Definition get_sigma_up (sigma_from sigma_to : num) : num :=
  fsqrt float32
    (fdiv float32
       (fmul float32 (fpow2 float32 sigma_to)
          (fsub float32 (fpow2 float32 sigma_from) (fpow2 float32 sigma_to)))
       (fpow2 float32 sigma_from)).

Definition get_sigma_down (sigma_to sigma_up : num) : num :=
  fsqrt float32 (fsub float32 (fpow2 float32 sigma_to) (fpow2 float32 sigma_up)).

(** The part of [step] before [self.derivatives.append]: everything that can
    raise.  It yields [sigma], [sigma_up], [sigma_down] and [derivative]. *)
Definition step_derivative (self : Scheduler) (model_output : tensor)
  (step_index : Z) (sample : tensor) : result (num * num * num * tensor) :=
  sigma <- py_index (sigmas self) step_index ;;
  pred_original_sample <-
    broadcast2 (fsub float32) sample (map (fmul float32 sigma) model_output) ;;
  sigma_from <- py_index (sigmas self) step_index ;;
  sigma_to <- py_index (sigmas self) (step_index + 1) ;;
  let sigma_up := get_sigma_up sigma_from sigma_to in
  let sigma_down := get_sigma_down sigma_to sigma_up in
  diff <- broadcast2 (fsub float32) sample pred_original_sample ;;
  let derivative := map (fun x => fdiv float32 x sigma) diff in
  Ok (sigma, sigma_up, sigma_down, derivative).

(** [prev_sample = sample + derivative * dt] *)
Definition euler_update (sample derivative : tensor) (dt : num) : result tensor :=
  broadcast2 (fadd float32) sample (map (fun x => fmul float32 x dt) derivative).

(** [prev_sample + torch.randn_like(prev_sample) * sigma_up] *)
Definition add_ancestral_noise (g : Generator) (prev : tensor) (sigma_up : num)
  : tensor * Generator :=
  let (noise, g') := randn_like g prev in
  (map2 (fadd float32) prev (map (fun n => fmul float32 n sigma_up) noise), g').

(** [step(model_output, timestep, step_index, sample, return_dict)]: the
    result, the instance and the generator as the call leaves them. *)
Definition step (self : Scheduler) (g : Generator) (model_output : tensor)
  (timestep : num) (step_index : Z) (sample : tensor) (return_dict : bool)
  : result step_output * Scheduler * Generator :=
  match step_derivative self model_output step_index sample with
  | Raise e => (Raise e, self, g)
  | Ok (sigma, sigma_up, sigma_down, derivative) =>
      let self := with_derivatives self (derivatives self ++ [derivative]) in
      let dt := fsub float32 sigma_down sigma in
      match euler_update sample derivative dt with
      | Raise e => (Raise e, self, g)
      | Ok prev =>
          let (prev, g') := add_ancestral_noise g prev sigma_up in
          if negb return_dict then (Ok (Tuple1 prev), self, g')
          else (Ok (SchedulerOutput prev), self, g')
      end
  end.

(** ** Guidance combiners *)

(** [t.chunk(chunks)] along the first dimension: pieces of
    [ceil(len / chunks)] elements, the last one possibly shorter; an empty
    tensor gives [chunks] empty pieces. *)
Fixpoint split_size_n (fuel : nat) (size : nat) (t : tensor) : list tensor :=
  match fuel, t with
  | _, [] => []
  | O, _ => []
  | S fuel', _ => firstn size t :: split_size_n fuel' size (skipn size t)
  end.

Definition chunk (t : tensor) (chunks : nat) : list tensor :=
  match t with
  | [] => repeat [] chunks
  | _ =>
      let size := Nat.div (length t + chunks - 1) chunks in
      split_size_n (length t) size t
  end.

(** [uncond + scale * (cond - uncond)]; [scale] is a Python float, which
    PyTorch converts to the tensor's dtype. *)
Definition cfg_combine (scale : num) (uncond cond : tensor) : result tensor :=
  diff <- broadcast2 (fsub float32) cond uncond ;;
  broadcast2 (fadd float32) uncond
    (map (fmul float32 (astype float32 scale)) diff).

(** MeissonicInpaintPipeline.__call__, lines 393-397: the model output that
    is handed to the scheduler. *)
Definition meissonic_guidance (guidance_scale : num) (model_output : tensor)
  : result tensor :=
  if fltb (of_int float64 1) guidance_scale then
    match chunk model_output 2 with
    | [uncond_logits; cond_logits] =>
        cfg_combine guidance_scale uncond_logits cond_logits
    | _ => Raise ValueError
    end
  else Ok model_output.

(** The attributes of [PAGMixin] that the combiner reads. *)
Record PAGMixin : Type := {
  _pag_scale : num;
  _pag_adaptive_scaling : num
}.

Definition do_pag_adaptive_scaling (self : PAGMixin) : bool :=
  fltb (of_int float64 0) (_pag_adaptive_scaling self).

Definition _get_pag_scale (self : PAGMixin) (t : num) : num :=
  if do_pag_adaptive_scaling self then
    let signal_scale :=
      fsub float64 (_pag_scale self)
        (fmul float64 (_pag_adaptive_scaling self)
           (fsub float64 (of_int float64 1000) t)) in
    if fltb signal_scale (of_int float64 0) then of_int float64 0
    else signal_scale
  else _pag_scale self.

Definition _apply_perturbed_attention_guidance (self : PAGMixin)
  (noise_pred : tensor) (do_classifier_free_guidance : bool)
  (guidance_scale : num) (t : num) : result tensor :=
  let pag_scale := _get_pag_scale self t in
  if do_classifier_free_guidance then
    match chunk noise_pred 3 with
    | [noise_pred_uncond; noise_pred_text; noise_pred_perturb] =>
        guided <- cfg_combine guidance_scale noise_pred_uncond noise_pred_text ;;
        diff <- broadcast2 (fsub float32) noise_pred_text noise_pred_perturb ;;
        broadcast2 (fadd float32) guided
          (map (fmul float32 (astype float32 pag_scale)) diff)
    | _ => Raise ValueError
    end
  else
    match chunk noise_pred 2 with
    | [noise_pred_uncond; noise_pred_perturb] =>
        diff <- broadcast2 (fsub float32) noise_pred_uncond noise_pred_perturb ;;
        broadcast2 (fadd float32) noise_pred_uncond
          (map (fmul float32 (astype float32 pag_scale)) diff)
    | _ => Raise ValueError
    end.

(** ** Sampling runs and configurations *)

(** The arguments of one call of [step]. *)
Record step_call : Type := {
  call_model_output : tensor;
  call_timestep : num;
  call_step_index : Z;
  call_sample : tensor;
  call_return_dict : bool
}.

Definition do_step (self : Scheduler) (g : Generator) (c : step_call)
  : result step_output * Scheduler * Generator :=
  step self g (call_model_output c) (call_timestep c) (call_step_index c)
    (call_sample c) (call_return_dict c).

(** Successive calls of [step] on one instance; a call that raises is caught
    by the caller and the next call goes on with the instance as it is. *)
Fixpoint run_steps (self : Scheduler) (g : Generator) (calls : list step_call)
  : list (result step_output) * Scheduler * Generator :=
  match calls with
  | [] => ([], self, g)
  | c :: rest =>
      let '(r, self', g') := do_step self g c in
      let '(rs, self'', g'') := run_steps self' g' rest in
      (r :: rs, self'', g'')
  end.

Definition is_ok {T : Type} (r : result T) : bool :=
  match r with
  | Ok _ => true
  | Raise _ => false
  end.

Definition count_ok {T : Type} (rs : list (result T)) : nat :=
  length (filter is_ok rs).

(** The configurations [__init__] is written for: explicit betas, or one of
    the two schedule families with a count that [torch.linspace] accepts and,
    for ["scaled_linear"], bounds whose square root is real. *)
Definition supported (c : Config) : Prop :=
  trained_betas c <> None
  \/ (beta_schedule c = "linear"%string /\ 0 <= num_train_timesteps c)
  \/ (beta_schedule c = "scaled_linear"%string /\ 0 <= num_train_timesteps c
      /\ py_pow_half (beta_start c) <> None
      /\ py_pow_half (beta_end c) <> None).

(** The schedule has one entry per training timestep. *)
Definition schedule_complete (self : Scheduler) : Prop :=
  Z.of_nat (length (alphas_cumprod self)) = num_train_timesteps (config self).

(** A call names an explicit timestep or sigma list. *)
Definition names_explicit_schedule (kwargs : list (string * pyval)) : Prop :=
  assoc_find "timesteps" kwargs <> None \/ assoc_find "sigmas" kwargs <> None.

End Model.

(** ** Ordered sequences *)

(** Every element stands in relation [R] to its successor. *)
Fixpoint adjacent {T : Type} (R : T -> T -> Prop) (l : list T) : Prop :=
  match l with
  | x :: (y :: _) as rest => R x y /\ adjacent R rest
  | _ => True
  end.


(** ** The two arithmetics *)

(** IEEE-754 binary32 and binary64, round to nearest even. *)
Module IEEE754.

Definition prec (d : dtype) : Z :=
  match d with float32 => 24 | float64 => 53 end.

Definition emax (d : dtype) : Z :=
  match d with float32 => 128 | float64 => 1024 end.

Definition of_Z (d : dtype) (z : Z) : spec_float :=
  binary_normalize (prec d) (emax d) z 0 false.

(** Rounding of any float to the format [d]. *)
Definition round_to (d : dtype) (x : spec_float) : spec_float :=
  match x with
  | S754_finite s m e => binary_round (prec d) (emax d) s m e
  | _ => x
  end.

(** What x86 gives for the conversion of a NaN or an infinity to int64. *)
Definition int64_min : Z := - 2 ^ 63.

Definition floor (x : spec_float) : Z :=
  match x with
  | S754_zero _ => 0
  | S754_finite s m e =>
      let v := cond_Zopp s (Zpos m) in
      if 0 <=? e then v * 2 ^ e else v / 2 ^ (- e)
  | _ => int64_min
  end.

Definition ceil (x : spec_float) : Z :=
  match x with
  | S754_zero _ => 0
  | S754_finite _ _ _ => - floor (SFopp x)
  | _ => int64_min
  end.

Definition trunc (x : spec_float) : Z :=
  match x with
  | S754_finite true _ _ => ceil x
  | _ => floor x
  end.

(** [np.mod(x, 1.0)]: C's [fmod], moved into [0, 1) when negative, and [+0.0]
    when it vanishes. *)
Definition mod1 (x : spec_float) : spec_float :=
  match x with
  | S754_zero _ => S754_zero false
  | S754_finite s _ _ =>
      match SFsub 53 1024 x (of_Z float64 (trunc x)) with
      | S754_zero _ => S754_zero false
      | r => if s then SFadd 53 1024 r (of_Z float64 1) else r
      end
  | _ => S754_nan
  end.

(** Python's [x ** 0.5]: complex for a finite negative [x]. *)
Definition pow_half (x : spec_float) : option spec_float :=
  match x with
  | S754_finite true _ _ => None
  | S754_zero _ => Some (S754_zero false)
  | S754_infinity _ => Some (S754_infinity false)
  | _ => Some (SFsqrt 53 1024 x)
  end.

(** The float64 nearest to the decimal literal [m * 10 ^ (- k)], for
    [|m| < 2 ^ 53] and [k <= 22]. *)
Definition decimal (m : Z) (k : Z) : spec_float :=
  SFdiv 53 1024 (of_Z float64 m) (of_Z float64 (10 ^ k)).

Definition is_finite (x : spec_float) : bool :=
  match x with
  | S754_zero _ | S754_finite _ _ _ => true
  | _ => false
  end.

Definition is_zero (x : spec_float) : bool :=
  match x with
  | S754_zero _ => true
  | _ => false
  end.

Definition is_nan (x : spec_float) : bool :=
  match x with
  | S754_nan => true
  | _ => false
  end.

(** The same float: same class, sign, mantissa and exponent. *)
Definition same (x y : spec_float) : bool :=
  match x, y with
  | S754_zero s, S754_zero s' => Bool.eqb s s'
  | S754_infinity s, S754_infinity s' => Bool.eqb s s'
  | S754_nan, S754_nan => true
  | S754_finite s m e, S754_finite s' m' e' =>
      Bool.eqb s s' && Pos.eqb m m' && Z.eqb e e'
  | _, _ => false
  end.

(** Numerical equality of results: the same float, or two zeros (of any
    sign). *)
Definition num_eq (x y : spec_float) : Prop :=
  x = y \/ (is_zero x = true /\ is_zero y = true).

Definition tensor_eq (a b : list spec_float) : Prop := Forall2 num_eq a b.

(** [x <= y] as IEEE comparison decides it (false on a NaN). *)
Definition le (x y : spec_float) : Prop := SFleb x y = true.

End IEEE754.

Definition IEEE : Arith spec_float :=
  {| fzero := S754_zero false;
     fadd d := SFadd (IEEE754.prec d) (IEEE754.emax d);
     fsub d := SFsub (IEEE754.prec d) (IEEE754.emax d);
     fmul d := SFmul (IEEE754.prec d) (IEEE754.emax d);
     fdiv d := SFdiv (IEEE754.prec d) (IEEE754.emax d);
     fsqrt d := SFsqrt (IEEE754.prec d) (IEEE754.emax d);
     of_int := IEEE754.of_Z;
     astype := IEEE754.round_to;
     floor_int := IEEE754.floor;
     ceil_int := IEEE754.ceil;
     fmod1 := IEEE754.mod1;
     feqb := SFeqb;
     fltb := SFltb;
     py_pow_half := IEEE754.pow_half |}.

#[global] Existing Instance IEEE.

(** Exact real arithmetic: every dtype is the field of real numbers. *)
Module Real.

Definition floor (x : R) : Z := (up x - 1)%Z.

Definition ceil (x : R) : Z := (- floor (- x))%Z.

Definition eqb (x y : R) : bool := if Req_dec_T x y then true else false.

Definition ltb (x y : R) : bool := if Rlt_dec x y then true else false.

Definition pow_half (x : R) : option R :=
  if Rlt_dec x 0 then None else Some (sqrt x).

End Real.

Definition Exact : Arith R :=
  {| fzero := 0%R;
     fadd _ := Rplus;
     fsub _ := Rminus;
     fmul _ := Rmult;
     fdiv _ := Rdiv;
     fsqrt _ := sqrt;
     of_int _ := IZR;
     astype _ x := x;
     floor_int := Real.floor;
     ceil_int := Real.ceil;
     fmod1 x := (x - IZR (Real.floor x))%R;
     feqb := Real.eqb;
     fltb := Real.ltb;
     py_pow_half := Real.pow_half |}.

#[global] Existing Instance Exact.

(** ** Closed forms in exact arithmetic *)

(** Timestep [i] of [m] inference steps on [n] training steps. *)
Definition exact_timestep (n m : Z) (i : nat) : R :=
  if m =? 1 then IZR (n - 1)
  else (IZR (n - 1) * IZR (m - 1 - Z.of_nat i) / IZR (m - 1))%R.

Definition exact_timesteps (n m : Z) : list R :=
  map (exact_timestep n m) (seq 0 (Z.to_nat m)).

(** The sigma that [set_timesteps] interpolates at timestep [t] from the
    table of training sigmas. *)
Definition exact_interpolate (table : list R) (t : R) : R :=
  ((1 - (t - IZR (Real.floor t))) * nth (Z.to_nat (Real.floor t)) table 0
   + (t - IZR (Real.floor t)) * nth (Z.to_nat (Real.ceil t)) table 0)%R.

(** ** Concrete schedulers *)

Module Examples.

(** A float32 literal [m * 10 ^ (- k)]: the decimal is read as a Python
    float and converted. *)
Definition f32 (m k : Z) : spec_float :=
  IEEE754.round_to float32 (IEEE754.decimal m k).


(** A small schedule: 4 training steps, linear betas from 0.1 to 0.2. *)
Definition small_config : Config (num:=spec_float) :=
  {| num_train_timesteps := 4;
     beta_start := IEEE754.decimal 1 1;
     beta_end := IEEE754.decimal 2 1;
     beta_schedule := "linear";
     trained_betas := None |}.

(** A schedule whose first beta is zero. *)
Definition zero_start_config : Config (num:=spec_float) :=
  {| num_train_timesteps := 4;
     beta_start := S754_zero false;
     beta_end := IEEE754.decimal 2 1;
     beta_schedule := "linear";
     trained_betas := None |}.

(** A schedule with betas within (0, 1) whose cumulative product of alphas
    underflows to 0.0 in float32: the sigma of the last training timestep is
    infinite. *)
Definition steep_config : Config (num:=spec_float) :=
  {| num_train_timesteps := 1000;
     beta_start := IEEE754.decimal 1 4;
     beta_end := IEEE754.decimal 5 1;
     beta_schedule := "linear";
     trained_betas := None |}.


(** The instance an attribute-less object would be, for the branch of
    [constructed] that is not taken below. *)
Definition blank (c : Config (num:=spec_float)) : Scheduler (num:=spec_float) :=
  {| config := c; betas_dtype := float32;
     betas := []; alphas := []; alphas_cumprod := []; sigmas := [];
     init_noise_sigma := None; num_inference_steps := PyNone;
     timesteps := IntTimesteps []; derivatives := [];
     is_scale_input_called := false |}.

(** [EulerAncestralDiscreteScheduler(...)] followed by
    [set_timesteps(m)]. *)
Definition constructed (c : Config (num:=spec_float)) : Scheduler (num:=spec_float) :=
  match init c with
  | Ok s => s
  | Raise _ => blank c
  end.

Definition prepared (c : Config (num:=spec_float)) (m : Z) : Scheduler (num:=spec_float) :=
  snd (set_timesteps (constructed c) (PyInt m) PyNone).

(** A generator whose draws alternate between 0.5 and -1.25. *)
Definition alternating : Generator (num:=spec_float) :=
  fun n => if Nat.even n then f32 5 1 else f32 (-125) 2.

(** The small schedule, prepared for a run of two steps: step index 1 is the
    terminal step. *)
Definition small_run : Scheduler (num:=spec_float) :=
  Eval vm_compute in prepared small_config 2.


Definition sample2 : tensor (num:=spec_float) := [f32 1 0; f32 2 0].

Definition output2 : tensor (num:=spec_float) := [f32 5 1; f32 (-125) 2].


(** The terminal step of [small_run] on [sample2], up to the derivative, for
    [output2] and for a zero model output. *)
Definition terminal_derivative : result (spec_float * spec_float * spec_float * list spec_float) :=
  Eval vm_compute in step_derivative (A:=IEEE) small_run output2 1 sample2.


Definition terminal_sigma : spec_float :=
  match terminal_derivative with
  | Ok (sigma, _, _, _) => sigma
  | Raise _ => S754_nan
  end.

Definition terminal_gradient : list spec_float :=
  match terminal_derivative with
  | Ok (_, _, _, derivative) => derivative
  | Raise _ => []
  end.

(** Two calls of [step] of a run of two steps. *)
Definition two_calls : list (step_call (num:=spec_float)) :=
  [ {| call_model_output := output2; call_timestep := IEEE754.of_Z float64 3;
       call_step_index := 0; call_sample := sample2;
       call_return_dict := true |};
    {| call_model_output := output2; call_timestep := S754_zero false;
       call_step_index := 1; call_sample := sample2;
       call_return_dict := false |} ].

(** A schedule name the constructor does not know. *)
Definition cosine_config : Config (num:=spec_float) :=
  {| num_train_timesteps := 4;
     beta_start := IEEE754.decimal 1 1;
     beta_end := IEEE754.decimal 2 1;
     beta_schedule := "squaredcos_cap_v2";
     trained_betas := None |}.

(** PAG with the scale 3.0 and no adaptive scaling. *)
Definition pag3 : PAGMixin (num:=spec_float) :=
  {| _pag_scale := IEEE754.of_Z float64 3;
     _pag_adaptive_scaling := S754_zero false |}.

(** An explicit timestep list [[1.0, 0.0]]. *)
Definition explicit_timesteps : pyval (num:=spec_float) :=
  PyList (num:=spec_float) [f32 1 0; S754_zero false].

(** In exact arithmetic: two training steps, linear betas from 1/10 to
    1/5, and the instance the constructor builds for them. *)
Definition exact_config : Config (num:=R) :=
  {| num_train_timesteps := 2;
     beta_start := (1 / 10)%R;
     beta_end := (1 / 5)%R;
     beta_schedule := "linear";
     trained_betas := None |}.

Definition exact_scheduler : Scheduler (num:=R) :=
  {| config := exact_config; betas_dtype := float32;
     betas := [1 / 10; 1 / 5]%R : list R;
     alphas := [9 / 10; 4 / 5]%R : list R;
     alphas_cumprod := [9 / 10; 18 / 25]%R : list R;
     sigmas := [sqrt (7 / 18); sqrt (1 / 9); 0]%R : list R;
     init_noise_sigma := None; num_inference_steps := PyNone;
     timesteps := IntTimesteps [1; 0]; derivatives := [];
     is_scale_input_called := false |}.





End Examples.

(** ** The other methods of the scheduler *)

(** What [self.timesteps] holds.  The constructor and a [set_timesteps]
    that returns leave a tensor there; [set_timesteps] first assigns the
    array of [np.linspace] and converts it with [torch.from_numpy] only
    after the sigma table has been indexed. *)
Inductive holder : Type :=
| TorchTensor
| NumpyArray.

(** The outcome of a method that can also raise [AttributeError], which the
    other methods never raise. *)
Inductive outcome (X : Type) : Type :=
| RaiseAttributeError
| Outcome (r : result X).

Arguments RaiseAttributeError {X}.
Arguments Outcome {X} r.

Section SchedulerMethods.

Context {num : Type} {A : Arith num}.

(** [__len__] *)
Definition __len__ (self : Scheduler (num:=num)) : Z :=
  num_train_timesteps (config self).

(** Two operands combined along the batch dimension, row by row, with
    broadcasting of an operand that has a single row. *)
Fixpoint zip_rows {X Y Z : Type} (f : X -> Y -> result Z) (a : list X)
  (b : list Y) : result (list Z) :=
  match a, b with
  | x :: a', y :: b' =>
      z <- f x y ;;
      zs <- zip_rows f a' b' ;;
      Ok (z :: zs)
  | _, _ => Ok []
  end.

Definition broadcast_rows {X Y Z : Type} (f : X -> Y -> result Z) (a : list X)
  (b : list Y) : result (list Z) :=
  if Nat.eqb (length a) (length b) then zip_rows f a b
  else match a, b with
       | _, [y] => zip_rows f a (repeat y (length a))
       | [x], _ => zip_rows f (repeat x (length b)) b
       | _, _ => Raise RuntimeError
       end.

(** The holder of [self.timesteps] after [set_timesteps], which the result
    and the instance that [set_timesteps] returns do not tell: unchanged
    when the call raises before the array is assigned, the array when the
    indexing of the sigma table raises, a tensor otherwise. *)
Definition set_timesteps_holder (self : Scheduler (num:=num))
  (num_inference_steps : pyval (num:=num)) (before : holder) : holder :=
  match num_inference_steps with
  | PyInt m =>
      match np_linspace
              (of_int float64 (self_num_train_timesteps self - 1))
              (of_int float64 0) m with
      | Raise _ => before
      | Ok ts =>
          let d := betas_dtype self in
          let sigmas := sigmas_of_alphas_cumprod d (alphas_cumprod self) in
          match np_take sigmas (map floor_int ts),
                np_take sigmas (map ceil_int ts) with
          | Ok _, Ok _ => TorchTensor
          | _, _ => NumpyArray
          end
      end
  | _ => before
  end.

(** [add_noise(original_samples, noise, timesteps)].  A batch is the list of
    its samples, each flattened; [d] is the dtype of [original_samples] and
    [noise]; [timesteps] is the integer tensor that indexes [self.sigmas].
    The call stores [self.sigmas] converted to [d], also when it raises
    afterwards.  [self.timesteps.to(...)] needs a tensor: an array has no
    method [to].  [sigma] has one entry per timestep and is unsqueezed to
    scale whole samples. *)
Definition add_noise (self : Scheduler (num:=num)) (timesteps_holder : holder)
  (d : dtype) (original_samples noise : list (list num)) (timesteps : list Z)
  : outcome (list (list num)) * Scheduler (num:=num) :=
  let self := with_sigmas self (map (astype d) (sigmas self)) in
  match timesteps_holder with
  | NumpyArray => (RaiseAttributeError, self)
  | TorchTensor =>
      match np_take (sigmas self) timesteps with
      | Raise e => (Outcome (Raise e), self)
      | Ok sigma =>
          (Outcome
             (scaled <- broadcast_rows
                          (fun n s => Ok (map (fun x => fmul d x s) n))
                          noise sigma ;;
              broadcast_rows (broadcast2 (fadd d)) original_samples scaled),
           self)
      end
  end.

(** A call of one of the methods of an instance, on float32 samples: the
    sigma table then stays in float32, as [step] takes it. *)
Inductive method_call : Type :=
| CallSetTimesteps (num_inference_steps device : pyval (num:=num))
| CallScaleModelInput (sample : list num) (timestep : num) (step_index : Z)
| CallStep (c : step_call (num:=num))
| CallAddNoise (original_samples noise : list (list num))
    (timesteps : list Z).

(** The instance, the holder of its timesteps and the generator after a
    call, whether it returned or raised. *)
Definition do_call (self : Scheduler (num:=num)) (h : holder)
  (g : Generator (num:=num)) (c : method_call)
  : Scheduler (num:=num) * holder * Generator (num:=num) :=
  match c with
  | CallSetTimesteps n device =>
      (snd (set_timesteps self n device), set_timesteps_holder self n h, g)
  | CallScaleModelInput _ _ _ => (self, h, g)
  | CallStep c => (snd (fst (do_step self g c)), h, snd (do_step self g c))
  | CallAddNoise x n t => (snd (add_noise self h float32 x n t), h, g)
  end.

Fixpoint run_calls (self : Scheduler (num:=num)) (h : holder)
  (g : Generator (num:=num)) (calls : list method_call)
  : Scheduler (num:=num) * holder * Generator (num:=num) :=
  match calls with
  | [] => (self, h, g)
  | c :: rest =>
      let '(self', h', g') := do_call self h g c in
      run_calls self' h' g' rest
  end.

(** The attributes that the constructor computes from the configuration. *)
Definition same_schedule (s1 s2 : Scheduler (num:=num)) : Prop :=
  config s1 = config s2
  /\ betas_dtype s1 = betas_dtype s2
  /\ betas s1 = betas s2
  /\ alphas s1 = alphas s2
  /\ alphas_cumprod s1 = alphas_cumprod s2
  /\ is_scale_input_called s1 = is_scale_input_called s2.

End SchedulerMethods.


(** ** Python strings *)

(** [sub in s] *)
Fixpoint str_contains (sub s : string) : bool :=
  if String.prefix sub s then true
  else match s with
       | EmptyString => false
       | String _ rest => str_contains sub rest
       end.

(** [s.split(c)[0]]: the part of [s] before the first [c]. *)
Fixpoint str_before (c : Ascii.ascii) (s : string) : string :=
  match s with
  | EmptyString => EmptyString
  | String a rest =>
      if Ascii.eqb a c then EmptyString else String a (str_before c rest)
  end.

(** [s[0]], where [None] stands for the [IndexError] of the empty string,
    and [s[1:]]. *)
Definition str_head (s : string) : option Ascii.ascii :=
  match s with
  | EmptyString => None
  | String a _ => Some a
  end.

Definition str_tail (s : string) : string :=
  match s with
  | EmptyString => EmptyString
  | String _ rest => rest
  end.

(** ** PAGMixin: the attention processors of the UNet *)

(** The two attributes that the guidance combiner reads. *)
Definition combiner_attributes {num : Type} (pag_scale pag_adaptive_scaling : num)
  : PAGMixin (num:=num) :=
  {| _pag_scale := pag_scale; _pag_adaptive_scaling := pag_adaptive_scaling |}.

Module PAG.

Import Ascii.

(** The processor of a module: the three classes that [pag_utils.py]
    instantiates, or any other object. *)
Inductive Processor : Type :=
| AttnProcessor2_0
| PAGCFGIdentitySelfAttnProcessor2_0
| PAGIdentitySelfAttnProcessor2_0
| OtherProcessor (id : nat).

(** [self.unet.named_modules()]: the modules of the UNet in traversal order,
    each with its dotted name and its [processor] attribute.  A layer list
    holds references to modules, here their positions. *)
Definition named_modules : Type := list (string * Processor).

(** ["attn1" in name and "to" not in name] *)
Definition is_self_attn (name : string) : bool :=
  str_contains "attn1" name && negb (str_contains "to" name).

(** [name.split(".")[0].split("_")[0]] *)
Definition layer_type (name : string) : string :=
  str_before "_"%char (str_before "."%char name).

(** The loop of [_get_self_attn_layers] from position [i] on. *)
Fixpoint collect_layers (i : nat) (modules : named_modules)
  (down_layers mid_layers up_layers : list nat)
  : result (list nat * list nat * list nat) :=
  match modules with
  | [] => Ok (up_layers, mid_layers, down_layers)
  | (name, _) :: rest =>
      if is_self_attn name then
        if String.eqb (layer_type name) "down" then
          collect_layers (S i) rest (down_layers ++ [i]) mid_layers up_layers
        else if String.eqb (layer_type name) "mid" then
          collect_layers (S i) rest down_layers (mid_layers ++ [i]) up_layers
        else if String.eqb (layer_type name) "up" then
          collect_layers (S i) rest down_layers mid_layers (up_layers ++ [i])
        else Raise ValueError
      else collect_layers (S i) rest down_layers mid_layers up_layers
  end.

(** [layer.processor = p] for the module at position [i]. *)
Fixpoint set_processor (modules : named_modules) (i : nat) (p : Processor)
  : named_modules :=
  match modules, i with
  | [], _ => []
  | (name, _) :: rest, O => (name, p) :: rest
  | m :: rest, S i' => m :: set_processor rest i' p
  end.

(** [for layer in layers: layer.processor = p] *)
Definition set_processors (modules : named_modules) (layers : list nat)
  (p : Processor) : named_modules :=
  fold_left (fun ms i => set_processor ms i p) layers modules.

(** The positions, counted from [i], of the names that satisfy [f]. *)
Fixpoint positions (f : string -> bool) (i : nat) (names : list string)
  : list nat :=
  match names with
  | [] => []
  | name :: rest =>
      if f name then i :: positions f (S i) rest else positions f (S i) rest
  end.

(** A module, with the processor [p] if its name satisfies [f]. *)
Definition retag (f : string -> bool) (p : Processor) (m : string * Processor)
  : string * Processor :=
  (fst m, if f (fst m) then p else snd m).

(** A self-attention layer of the given type. *)
Definition is_layer (type : string) (name : string) : bool :=
  is_self_attn name && String.eqb (layer_type name) type.

(** A name that [_get_self_attn_layers] accepts. *)
Definition known_layer (name : string) : Prop :=
  is_self_attn name = true ->
  layer_type name = "down"%string \/ layer_type name = "mid"%string
  \/ layer_type name = "up"%string.

Section Mixin.

Context {num : Type}.

(** Python's [int(s)] on a string; [None] stands for its [ValueError]. *)
Variable py_int : string -> option Z.

(** A pipeline with the mixin: its UNet and the attributes that
    [enable_pag] and [disable_pag] assign ([None] is Python's [None]). *)
Record Pipeline : Type := {
  unet : named_modules;
  _pag_scale : option num;
  _pag_adaptive_scaling : option num;
  _pag_applied_layers : option (list string);
  _pag_applied_layers_index : option (list string);
  _pag_cfg : option bool;
  _is_pag_enabled : bool
}.

Definition with_unet (self : Pipeline) (modules : named_modules) : Pipeline :=
  {| unet := modules;
     _pag_scale := _pag_scale self;
     _pag_adaptive_scaling := _pag_adaptive_scaling self;
     _pag_applied_layers := _pag_applied_layers self;
     _pag_applied_layers_index := _pag_applied_layers_index self;
     _pag_cfg := _pag_cfg self;
     _is_pag_enabled := _is_pag_enabled self |}.

(** [_get_self_attn_layers]: it returns [up_layers, mid_layers,
    down_layers]. *)
Definition _get_self_attn_layers (self : Pipeline)
  : result (list nat * list nat * list nat) :=
  collect_layers 0 (unet self) [] [] [].

(** The loop over [pag_applied_layers_index] (lines 78-92 and 144-158),
    installing [p].  A failure of [int], an unknown layer letter and an
    index out of range all end in [ValueError]; the processors set before
    stay set. *)
Fixpoint replace_indexed (p : Processor)
  (up_layers mid_layers down_layers : list nat) (modules : named_modules)
  (drop_layers : list string) : result unit * named_modules :=
  match drop_layers with
  | [] => (Ok tt, modules)
  | drop_layer :: rest =>
      match py_int (str_tail drop_layer) with
      | None => (Raise ValueError, modules)
      | Some layer_number =>
          let layers :=
            match str_head drop_layer with
            | Some c =>
                if Ascii.eqb c "d"%char then Some down_layers
                else if Ascii.eqb c "m"%char then Some mid_layers
                else if Ascii.eqb c "u"%char then Some up_layers
                else None
            | None => None
            end in
          match layers with
          | None => (Raise ValueError, modules)
          | Some layers =>
              match py_index layers layer_number with
              | Ok i =>
                  replace_indexed p up_layers mid_layers down_layers
                    (set_processor modules i p) rest
              | Raise _ => (Raise ValueError, modules)
              end
          end
      end
  end.

(** The loop over [pag_applied_layers] (lines 95-111 and 161-177). *)
Fixpoint replace_full (p : Processor)
  (up_layers mid_layers down_layers : list nat) (modules : named_modules)
  (drop_full_layers : list string) : result unit * named_modules :=
  match drop_full_layers with
  | [] => (Ok tt, modules)
  | drop_full_layer :: rest =>
      if String.eqb drop_full_layer "down" then
        replace_full p up_layers mid_layers down_layers
          (set_processors modules down_layers p) rest
      else if String.eqb drop_full_layer "mid" then
        replace_full p up_layers mid_layers down_layers
          (set_processors modules mid_layers p) rest
      else if String.eqb drop_full_layer "up" then
        replace_full p up_layers mid_layers down_layers
          (set_processors modules up_layers p) rest
      else (Raise ValueError, modules)
  end.

(** What [_set_pag_attn_processor] and [disable_pag] share, word for word
    but for the processor they install: collect the self-attention layers,
    then walk [_pag_applied_layers_index] if it is not empty, else
    [_pag_applied_layers]. *)
Definition replace_processors (self : Pipeline) (p : Processor)
  : result unit * Pipeline :=
  match _get_self_attn_layers self with
  | Raise e => (Raise e, self)
  | Ok (up_layers, mid_layers, down_layers) =>
      match _pag_applied_layers_index self with
      | Some (d :: ds) =>
          let r := replace_indexed p up_layers mid_layers down_layers
                     (unet self) (d :: ds) in
          (fst r, with_unet self (snd r))
      | _ =>
          match _pag_applied_layers self with
          | Some (l :: ls) =>
              let r := replace_full p up_layers mid_layers down_layers
                         (unet self) (l :: ls) in
              (fst r, with_unet self (snd r))
          | _ => (Ok tt, self)
          end
      end
  end.

Definition replace_processor (self : Pipeline) : Processor :=
  match _pag_cfg self with
  | Some true => PAGCFGIdentitySelfAttnProcessor2_0
  | _ => PAGIdentitySelfAttnProcessor2_0
  end.

Definition _set_pag_attn_processor (self : Pipeline)
  : result unit * Pipeline :=
  replace_processors self (replace_processor self).

(** [enable_pag(pag_scale, pag_adaptive_scaling, pag_applied_layers,
    pag_applied_layers_index, pag_cfg)]: the attributes are assigned before
    the processors are replaced. *)
Definition enable_pag (self : Pipeline) (pag_scale pag_adaptive_scaling : num)
  (pag_applied_layers : list string)
  (pag_applied_layers_index : option (list string)) (pag_cfg : bool)
  : result unit * Pipeline :=
  _set_pag_attn_processor
    {| unet := unet self;
       _pag_scale := Some pag_scale;
       _pag_adaptive_scaling := Some pag_adaptive_scaling;
       _pag_applied_layers := Some pag_applied_layers;
       _pag_applied_layers_index := pag_applied_layers_index;
       _pag_cfg := Some pag_cfg;
       _is_pag_enabled := true |}.

Definition do_perturbed_attention_guidance (self : Pipeline) : bool :=
  _is_pag_enabled self.

Definition disable_pag (self : Pipeline) : result unit * Pipeline :=
  if negb (do_perturbed_attention_guidance self) then (Raise ValueError, self)
  else
    match replace_processors self AttnProcessor2_0 with
    | (Ok tt, self') =>
        (Ok tt,
         {| unet := unet self';
            _pag_scale := None;
            _pag_adaptive_scaling := None;
            _pag_applied_layers := None;
            _pag_applied_layers_index := None;
            _pag_cfg := None;
            _is_pag_enabled := false |})
    | (Raise e, self') => (Raise e, self')
    end.

(** The attributes that the guidance combiner reads, once PAG is enabled. *)
Definition combiner_view (self : Pipeline) : option (PAGMixin (num:=num)) :=
  match _pag_scale self, _pag_adaptive_scaling self with
  | Some s, Some a => Some (combiner_attributes s a)
  | _, _ => None
  end.

End Mixin.

(** The layers that [pag_applied_layers] selects. *)
Definition selected (pag_applied_layers : list string) (name : string) : bool :=
  is_self_attn name && existsb (String.eqb (layer_type name)) pag_applied_layers.

(** [int(s)] for an optional sign followed by ASCII digits. *)
Fixpoint digits_value (acc : Z) (s : string) : option Z :=
  match s with
  | EmptyString => Some acc
  | String a rest =>
      let n := Z.of_nat (Ascii.nat_of_ascii a) in
      if (48 <=? n) && (n <=? 57) then digits_value (10 * acc + (n - 48)) rest
      else None
  end.

Definition decimal_int (s : string) : option Z :=
  match s with
  | EmptyString => None
  | String a rest =>
      if Ascii.eqb a "-"%char then
        match rest with
        | EmptyString => None
        | _ => option_map Z.opp (digits_value 0 rest)
        end
      else if Ascii.eqb a "+"%char then
        match rest with
        | EmptyString => None
        | _ => digits_value 0 rest
        end
      else digits_value 0 s
  end.

End PAG.


(** ** MeissonicInpaintPipeline: latent image ids and prompt handling *)

Section Meissonic.

Context {num : Type} {A : Arith num}.

(** [_prepare_latent_image_ids(batch_size, height, width, device, dtype)].
    The zeros are float32; adding the int64 [arange] converts each index
    to float32; the rows of the [(height // 2, width // 2, 3)] tensor are
    laid out row by row by [reshape].  [cast] is the elementwise
    conversion [.to(device=device, dtype=dtype)].  A negative size is
    refused by [torch.zeros]. *)
Definition _prepare_latent_image_ids {T : Type} (cast : num -> T)
  (batch_size height width : Z) : result (list (list T)) :=
  let h := height / 2 in
  let w := width / 2 in
  if (h <? 0) || (w <? 0) then Raise RuntimeError
  else
    Ok (flat_map
          (fun i =>
             map (fun j =>
                    map cast
                      [fzero;
                       fadd float32 fzero (of_int float32 i);
                       fadd float32 fzero (of_int float32 j)])
               (py_range w))
          (py_range h)).

(** The [img_ids] of one denoising iteration ([__call__], lines 360-375):
    [height] is the height of the preprocessed image and [batch], [rows],
    [cols] are [model_input.shape[0]], [shape[-2]] and [shape[-1]]. *)
Definition call_img_ids {T : Type} (cast : num -> T) (height : Z)
  (batch rows cols : Z) : result (list (list T)) :=
  if height =? 1024 then _prepare_latent_image_ids cast batch rows cols
  else _prepare_latent_image_ids cast batch (2 * rows) (2 * cols).

(** A [prompt] or [negative_prompt] argument: [None], a string or a list
    of strings. *)
Inductive prompt_arg : Type :=
| PromptNone
| PromptStr (s : string)
| PromptList (l : list string).

Definition is_none {T : Type} (o : option T) : bool :=
  match o with
  | None => true
  | Some _ => false
  end.

(** The three checks that open [__call__] (lines 208-229). *)
Definition call_check_inputs {E H : Type} (prompt : prompt_arg)
  (prompt_embeds : option E) (encoder_hidden_states : option H)
  (negative_prompt_embeds : option E)
  (negative_encoder_hidden_states : option H) : result unit :=
  if (negb (is_none prompt_embeds) && is_none encoder_hidden_states)
     || (is_none prompt_embeds && negb (is_none encoder_hidden_states))
  then Raise ValueError
  else if (negb (is_none negative_prompt_embeds)
           && is_none negative_encoder_hidden_states)
          || (is_none negative_prompt_embeds
              && negb (is_none negative_encoder_hidden_states))
  then Raise ValueError
  else if (match prompt with PromptNone => true | _ => false end
           && is_none prompt_embeds)
          || (match prompt with PromptNone => false | _ => true end
              && negb (is_none prompt_embeds))
  then Raise ValueError
  else Ok tt.

(** [t.repeat(n, 1, ...)]: the rows of [t], [n] times over. *)
Definition repeat_rows {X : Type} (rows : list X) (n : Z) : result (list X) :=
  if n <? 0 then Raise RuntimeError
  else Ok (concat (repeat rows (Z.to_nat n))).

(** [if isinstance(prompt, str): prompt = [prompt]] *)
Definition as_prompt_list (prompt : prompt_arg) : option (list string) :=
  match prompt with
  | PromptNone => None
  | PromptStr s => Some [s]
  | PromptList l => Some l
  end.

Section Encoding.

(** Embeddings are the lists of their rows along the batch dimension. *)
Variables E H : Type.

(** The tokenizer followed by the text encoder, which the pipeline is
    given: [text_embeds] and [hidden_states[-2]] for a list of prompts, or
    the exception they raise. *)
Variable encode : list string -> result (list E * list H).

(** [__call__] from its first line to the concatenation of the negative
    and the positive embeddings (lines 208-293): the batch size and the
    [prompt_embeds] and [encoder_hidden_states] that go to the
    transformer. *)
Definition call_encode_prompts (prompt : prompt_arg)
  (negative_prompt : prompt_arg) (num_images_per_prompt : Z)
  (guidance_scale : num)
  (prompt_embeds : option (list E))
  (encoder_hidden_states : option (list H))
  (negative_prompt_embeds : option (list E))
  (negative_encoder_hidden_states : option (list H))
  : result (Z * list E * list H) :=
  _ <- call_check_inputs prompt prompt_embeds encoder_hidden_states
         negative_prompt_embeds negative_encoder_hidden_states ;;
  let prompt := as_prompt_list prompt in
  batch_size <- match prompt, prompt_embeds with
                | Some l, _ => Ok (Z.of_nat (length l))
                | None, Some e => Ok (Z.of_nat (length e))
                | None, None => Raise TypeError
                end ;;
  let batch_size := batch_size * num_images_per_prompt in
  embeds <- match prompt_embeds, encoder_hidden_states, prompt with
            | Some e, Some h, _ => Ok (e, h)
            | None, _, Some l => encode l
            | _, _, _ => Raise TypeError
            end ;;
  prompt_embeds <- repeat_rows (fst embeds) num_images_per_prompt ;;
  encoder_hidden_states <- repeat_rows (snd embeds) num_images_per_prompt ;;
  if fltb (of_int float64 1) guidance_scale then
    negative <-
      match negative_prompt_embeds, negative_encoder_hidden_states with
      | Some e, Some h => Ok (e, h)
      | _, _ =>
          negative_prompt <-
            match as_prompt_list negative_prompt with
            | Some l => Ok l
            | None =>
                match prompt with
                | Some l => Ok (repeat EmptyString (length l))
                | None => Raise TypeError
                end
            end ;;
          encode negative_prompt
      end ;;
    negative_prompt_embeds <-
      repeat_rows (fst negative) num_images_per_prompt ;;
    negative_encoder_hidden_states <-
      repeat_rows (snd negative) num_images_per_prompt ;;
    Ok (batch_size, negative_prompt_embeds ++ prompt_embeds,
        negative_encoder_hidden_states ++ encoder_hidden_states)
  else Ok (batch_size, prompt_embeds, encoder_hidden_states).

End Encoding.

End Meissonic.


(** ** More concrete instances *)

Module Samples.



(** The small schedule as the constructor leaves it. *)
Definition small : Scheduler (num:=spec_float) :=
  Eval vm_compute in Examples.constructed Examples.small_config.

(** An earlier use of an instance: a run of three steps is prepared, one
    step is taken and a sample is noised. *)
Definition history : list (method_call (num:=spec_float)) :=
  [CallSetTimesteps (PyInt 3) PyNone;
   CallStep {| call_model_output := Examples.output2;
               call_timestep := IEEE754.of_Z float64 3;
               call_step_index := 0;
               call_sample := Examples.sample2;
               call_return_dict := true |};
   CallAddNoise [Examples.sample2] [Examples.output2] [1]].

(** Three training steps, but a single explicit beta. *)
Definition short_config : Config (num:=R) :=
  {| num_train_timesteps := 3;
     beta_start := (1 / 10)%R;
     beta_end := (1 / 5)%R;
     beta_schedule := "linear";
     trained_betas := Some (float32, [(1 / 2)%R]) |}.

(** PAG with the scale 3.0, lowered by 0.01 per timestep below 1000. *)
Definition adaptive_pag : PAGMixin (num:=spec_float) :=
  {| _pag_scale := IEEE754.of_Z float64 3;
     _pag_adaptive_scaling := IEEE754.decimal 1 2 |}.

(** The modules of a small UNet: one self-attention layer in each of
    the down, mid and up blocks, with a projection and a cross-attention
    layer beside them. *)
Definition unet_modules : PAG.named_modules :=
  [(EmptyString, PAG.OtherProcessor 0);
   ("down_blocks.0.attentions.0.transformer_blocks.0.attn1"%string,
    PAG.OtherProcessor 1);
   ("down_blocks.0.attentions.0.transformer_blocks.0.attn1.to_q"%string,
    PAG.OtherProcessor 2);
   ("mid_block.attentions.0.transformer_blocks.0.attn1"%string,
    PAG.AttnProcessor2_0);
   ("mid_block.attentions.0.transformer_blocks.0.attn2"%string,
    PAG.AttnProcessor2_0);
   ("up_blocks.1.attentions.0.transformer_blocks.0.attn1"%string,
    PAG.AttnProcessor2_0)].

Definition pipeline : PAG.Pipeline (num:=spec_float) :=
  {| PAG.unet := unet_modules;
     PAG._pag_scale := None;
     PAG._pag_adaptive_scaling := None;
     PAG._pag_applied_layers := None;
     PAG._pag_applied_layers_index := None;
     PAG._pag_cfg := None;
     PAG._is_pag_enabled := false |}.

(** The pipeline after [enable_pag(3.0, 0.0, ("mid",), ("d0", "u-1"),
    True)]: the layer indices win over the layer names. *)
Definition enabled : PAG.Pipeline (num:=spec_float) :=
  Eval vm_compute in
    snd (PAG.enable_pag PAG.decimal_int pipeline (IEEE754.of_Z float64 3)
           (S754_zero false) ["mid"%string]
           (Some ["d0"%string; "u-1"%string]) true).

(** A text encoder that returns its prompts. *)
Definition echo (prompts : list string)
  : result (list string * list string) :=
  Ok (prompts, prompts).

End Samples.

(** * Properties *)

(** ** Facts that hold in every arithmetic *)

Section Generic.

Context {num : Type} {A : Arith num}.

Local Abbreviation tensor := (list num).

Lemma map2_length (f : num -> num -> num) (a b : tensor) :
  length a = length b -> length (map2 f a b) = length a.
Proof.
  revert b; induction a as [|x a IH]; intros [|y b] H; simpl in *; try congruence.
  f_equal; apply IH; congruence.
Qed.

Lemma broadcast2_length (f : num -> num -> num) (a b c : tensor) :
  broadcast2 f a b = Ok c ->
  length c = length a \/ (length a = 1%nat /\ length c = length b).
Proof.
  unfold broadcast2.
  destruct (Nat.eqb (length a) (length b)) eqn:E.
  - apply Nat.eqb_eq in E. intros H; inversion H; subst.
    left; now apply map2_length.
  - destruct a as [|x [|x' a]]; destruct b as [|y [|y' b]];
      try (simpl in E; discriminate E);
      intros H; inversion H; subst; simpl; rewrite ?length_map; auto.
Qed.

Lemma broadcast2_returns (f : num -> num -> num) (a b : tensor) :
  length a = length b \/ length a = 1%nat ->
  returns (broadcast2 f a b).
Proof.
  unfold broadcast2, returns. intros H.
  destruct (Nat.eqb (length a) (length b)) eqn:E; [eauto|].
  apply Nat.eqb_neq in E. destruct H as [H|H]; [contradiction|].
  destruct a as [|x [|x' a]]; destruct b as [|y [|y' b]];
    simpl in *; try discriminate H; try congruence; eauto.
Qed.

(** Once the derivative exists, the update cannot raise. *)
Lemma euler_update_returns self model_output step_index sample
      sigma sigma_up sigma_down derivative dt :
  step_derivative self model_output step_index sample
  = Ok (sigma, sigma_up, sigma_down, derivative) ->
  returns (euler_update sample derivative dt).
Proof.
  unfold step_derivative, bind. intros H.
  destruct (py_index (sigmas self) step_index) as [sg|]; [|discriminate].
  destruct (broadcast2 _ sample _) as [pred|] eqn:Ep; [|discriminate].
  destruct (py_index (sigmas self) (step_index + 1)) as [st|]; [|discriminate].
  destruct (broadcast2 _ sample pred) as [diff|] eqn:Ed; [|discriminate].
  inversion H; subst; clear H.
  apply broadcast2_returns. rewrite !length_map.
  apply broadcast2_length in Ed. destruct Ed as [Ed|[Ed _]]; auto.
Qed.

Lemma broadcast2_same_length (f : num -> num -> num) (a b : tensor) :
  length a = length b -> broadcast2 f a b = Ok (map2 f a b).
Proof.
  intros H. unfold broadcast2. now rewrite H, Nat.eqb_refl.
Qed.

Lemma step_derivative_inv self model_output step_index sample
      sigma sigma_up sigma_down derivative :
  step_derivative self model_output step_index sample
  = Ok (sigma, sigma_up, sigma_down, derivative) ->
  exists sigma_to pred diff,
    py_index (sigmas self) step_index = Ok sigma
    /\ py_index (sigmas self) (step_index + 1) = Ok sigma_to
    /\ sigma_up = get_sigma_up sigma sigma_to
    /\ sigma_down = get_sigma_down sigma_to sigma_up
    /\ broadcast2 (fsub float32) sample (map (fmul float32 sigma) model_output)
       = Ok pred
    /\ broadcast2 (fsub float32) sample pred = Ok diff
    /\ derivative = map (fun x => fdiv float32 x sigma) diff.
Proof.
  unfold step_derivative, bind.
  destruct (py_index (sigmas self) step_index) as [sg|]; [|discriminate].
  destruct (broadcast2 _ sample _) as [pred|] eqn:Ep; [|discriminate].
  destruct (py_index (sigmas self) (step_index + 1)) as [st|]; [|discriminate].
  destruct (broadcast2 _ sample pred) as [diff|] eqn:Ed; [|discriminate].
  intros H; inversion H; subst.
  exists st, pred, diff. repeat split; assumption.
Qed.

Lemma step_derivative_sigmas s1 s2 model_output step_index sample :
  sigmas s1 = sigmas s2 ->
  step_derivative s1 model_output step_index sample
  = step_derivative s2 model_output step_index sample.
Proof.
  unfold step_derivative. now intros ->.
Qed.



Lemma set_timesteps_resets self n device self' :
  set_timesteps self n device = (Ok tt, self') ->
  derivatives self' = [].
Proof.
  unfold set_timesteps.
  destruct n as [|m|x|str|l]; try (intros H; discriminate H).
  destruct (np_linspace _ _ m) as [ts|e]; [|intros H; discriminate H].
  destruct (np_take _ (map floor_int ts)) as [lo|e]; [|intros H; discriminate H].
  destruct (np_take _ (map ceil_int ts)) as [hi|e]; [|intros H; discriminate H].
  destruct (py_index _ 0) as [s0|e]; [|intros H; discriminate H].
  intros H; inversion H; reflexivity.
Qed.

Lemma do_step_derivatives self g c :
  length (derivatives (snd (fst (do_step self g c))))
  = (length (derivatives self)
     + (if is_ok (fst (fst (do_step self g c))) then 1 else 0))%nat.
Proof.
  unfold do_step, step.
  destruct (step_derivative self _ _ _)
    as [[[[sigma sigma_up] sigma_down] derivative]|e] eqn:E; simpl; [|lia].
  destruct (euler_update_returns _ _ _ _ _ _ _ _
              (fsub float32 sigma_down sigma) E) as [prev ->].
  destruct (add_ancestral_noise g prev sigma_up) as [p g'].
  destruct (negb (call_return_dict c)); simpl; rewrite length_app; simpl; lia.
Qed.

Lemma run_steps_derivatives calls : forall self g,
  length (derivatives (snd (fst (run_steps self g calls))))
  = (length (derivatives self) + count_ok (fst (fst (run_steps self g calls))))%nat.
Proof.
  induction calls as [|c rest IH]; intros self g; simpl.
  - unfold count_ok; simpl; lia.
  - pose proof (do_step_derivatives self g c) as Hs.
    destruct (do_step self g c) as [[r self'] g'].
    specialize (IH self' g').
    destruct (run_steps self' g' rest) as [[rs self''] g''].
    simpl in *. rewrite IH, Hs. unfold count_ok; simpl.
    destruct (is_ok r); simpl; lia.
Qed.

Lemma run_steps_length calls : forall self g,
  length (fst (fst (run_steps self g calls))) = length calls.
Proof.
  induction calls as [|c rest IH]; intros self g; simpl; [reflexivity|].
  destruct (do_step self g c) as [[r self'] g'].
  specialize (IH self' g').
  destruct (run_steps self' g' rest) as [[rs self''] g''].
  simpl in *. now rewrite IH.
Qed.

Lemma count_ok_all {T : Type} (rs : list (result T)) :
  Forall (fun r => is_ok r = true) rs -> count_ok rs = length rs.
Proof.
  unfold count_ok. induction 1 as [|r rs Hr _ IH]; simpl; [reflexivity|].
  rewrite Hr; simpl; now rewrite IH.
Qed.

(** C9. A call of [set_timesteps] that returns leaves the derivative buffer
    empty, and each call of [step] that returns appends exactly one
    derivative (a call that raises appends none): after [set_timesteps] and
    any sequence of [step] calls the buffer holds as many derivatives as
    calls returned, so exactly [k] after [k] calls that all return. *)
Theorem derivatives_history (self : Scheduler) (n device : pyval)
        (self0 : Scheduler) (g : Generator) (calls : list step_call) :
  set_timesteps self n device = (Ok tt, self0) ->
  derivatives self0 = []
  /\ (let '(rs, self', _) := run_steps self0 g calls in
      length (derivatives self') = count_ok rs
      /\ (Forall (fun r => is_ok r = true) rs ->
          length (derivatives self') = length calls)).
Proof.
  intros H. pose proof (set_timesteps_resets _ _ _ _ H) as H0.
  split; [exact H0|].
  pose proof (run_steps_derivatives calls self0 g) as Hd.
  pose proof (run_steps_length calls self0 g) as Hl.
  destruct (run_steps self0 g calls) as [[rs self'] g'].
  simpl in *. rewrite H0 in Hd; simpl in Hd.
  split; [exact Hd|].
  intros Hall. rewrite Hd, (count_ok_all _ Hall). exact Hl.
Qed.

Lemma torch_linspace_returns d start stop steps :
  0 <= steps -> returns (torch_linspace d start stop steps).
Proof.
  intros H. unfold torch_linspace, returns.
  destruct (steps <? 0) eqn:E; [apply Z.ltb_lt in E; lia|].
  destruct (steps =? 1); eauto.
Qed.

(** C6. Without explicit betas, a schedule name other than ["linear"] and
    ["scaled_linear"] makes the constructor raise [NotImplementedError], so
    that no scheduler is built; on every supported configuration the
    constructor returns a scheduler. *)
Theorem init_schedule_name (c : Config) :
  (trained_betas c = None ->
   beta_schedule c <> "linear"%string ->
   beta_schedule c <> "scaled_linear"%string ->
   init c = Raise NotImplementedError)
  /\ (supported c -> returns (init c)).
Proof.
  split.
  - intros Ht Hl Hs. unfold init, make_betas. rewrite Ht.
    apply String.eqb_neq in Hl, Hs. now rewrite Hl, Hs.
  - unfold supported, init, make_betas, returns.
    intros [Ht | [[Hl Hn] | (Hs & Hn & Hb & He)]].
    + destruct (trained_betas c) as [[d b]|]; [|congruence].
      simpl; eauto.
    + destruct (trained_betas c) as [[d b]|]; [simpl; eauto|].
      rewrite Hl; simpl.
      destruct (torch_linspace_returns float32 (beta_start c) (beta_end c)
                  _ Hn) as [b ->].
      simpl; eauto.
    + destruct (trained_betas c) as [[d b]|]; [simpl; eauto|].
      rewrite Hs; simpl.
      destruct (py_pow_half (beta_start c)) as [sb|]; [|congruence].
      destruct (py_pow_half (beta_end c)) as [se|]; [|congruence].
      destruct (torch_linspace_returns float32 sb se _ Hn) as [b ->].
      simpl; eauto.
Qed.

Lemma bind_keywords_error (params : list (string * option (pyval (num:=num))))
      kwargs : forall bound e,
  bind_keywords params bound kwargs = Raise e -> e = TypeError.
Proof.
  induction kwargs as [|[k v] rest IH]; intros bound e; simpl.
  - discriminate.
  - destruct (assoc_find k params); [|now intros H; inversion H].
    destruct (assoc_find k bound); [now intros H; inversion H|].
    apply IH.
Qed.

Lemma bind_keywords_unknown (params : list (string * option (pyval (num:=num))))
      k : forall kwargs bound,
  assoc_find k params = None ->
  assoc_find k kwargs <> None ->
  bind_keywords params bound kwargs = Raise TypeError.
Proof.
  intros kwargs bound Hp.
  revert bound; induction kwargs as [|[k' v] rest IH]; intros bound Hk; simpl in *.
  - congruence.
  - destruct (String.eqb k k') eqn:E.
    + apply String.eqb_eq in E; subst k'. now rewrite Hp.
    + destruct (assoc_find k' params); [|reflexivity].
      destruct (assoc_find k' bound); [reflexivity|].
      now apply IH.
Qed.

Lemma bind_positional_error (params : list (string * option (pyval (num:=num)))) :
  forall args e,
  bind_positional params args = Raise e -> e = TypeError.
Proof.
  induction params as [|[p d] params IH]; intros [|a args] e; simpl;
    try discriminate; try (now intros H; inversion H).
  unfold bind. destruct (bind_positional params args) eqn:E.
  - discriminate.
  - intros H; inversion H; subst. now apply (IH args).
Qed.

Lemma py_bind_unknown_keyword (params : list (string * option (pyval (num:=num))))
      args kwargs k :
  assoc_find k params = None ->
  assoc_find k kwargs <> None ->
  py_bind params args kwargs = Raise TypeError.
Proof.
  intros Hp Hk. unfold py_bind, bind.
  destruct (bind_positional params args) as [pos|e] eqn:E.
  - now rewrite (bind_keywords_unknown params k kwargs pos Hp Hk).
  - now rewrite (bind_positional_error _ _ _ E).
Qed.

(** C8, as the code has it.  [set_timesteps] has the parameters
    [num_inference_steps] and [device] only.  A call that names an explicit
    [timesteps] or [sigmas] list is rejected with [TypeError] when its
    arguments are bound, with or without a step count, and the instance is
    left as it was; a second positional argument is the unused [device], so a
    list passed there is ignored and the call does what the step count alone
    does. *)
Theorem set_timesteps_explicit_schedule (self : Scheduler) :
  (forall args kwargs,
      names_explicit_schedule kwargs ->
      call_set_timesteps self args kwargs = (Raise TypeError, self))
  /\ (forall n device,
         call_set_timesteps self [n; device] []
         = set_timesteps self n PyNone).
Proof.
  split.
  - intros args kwargs [H|H]; unfold call_set_timesteps.
    + now rewrite (py_bind_unknown_keyword _ args kwargs "timesteps").
    + now rewrite (py_bind_unknown_keyword _ args kwargs "sigmas").
  - intros n device. reflexivity.
Qed.

Lemma split_size_n_app (piece rest : tensor) : forall fuel,
  (0 < length piece)%nat ->
  split_size_n (S fuel) (length piece) (piece ++ rest)
  = piece :: split_size_n fuel (length piece) rest.
Proof.
  intros fuel Hp. simpl.
  destruct (piece ++ rest) eqn:E.
  - destruct piece; simpl in *; [lia|discriminate E].
  - rewrite <- E. f_equal.
    + rewrite firstn_app, Nat.sub_diag, firstn_all. simpl. apply app_nil_r.
    + rewrite skipn_app, Nat.sub_diag, skipn_all. reflexivity.
Qed.

Lemma split_size_n_nil fuel size :
  split_size_n (num:=num) fuel size [] = [].
Proof. destruct fuel; reflexivity. Qed.

Lemma chunk_nonempty (t : tensor) (chunks : nat) :
  t <> [] ->
  chunk t chunks
  = split_size_n (length t) (Nat.div (length t + chunks - 1) chunks) t.
Proof. destruct t; [congruence|reflexivity]. Qed.

Lemma chunk_pair (u c : tensor) :
  length u = length c -> chunk (u ++ c) 2 = [u; c].
Proof.
  intros H. destruct u as [|x u].
  - destruct c; [reflexivity|discriminate H].
  - rewrite chunk_nonempty by discriminate.
    assert (Hs : Nat.div (length ((x :: u) ++ c) + 2 - 1) 2 = length (x :: u)).
    { rewrite length_app, <- H.
      replace (length (x :: u) + length (x :: u) + 2 - 1)%nat
        with (1 + length (x :: u) * 2)%nat by lia.
      rewrite Nat.div_add by lia. reflexivity. }
    rewrite Hs.
    assert (Hf : exists k, length ((x :: u) ++ c) = S (S k)).
    { rewrite length_app, <- H. simpl. exists (length u + length u)%nat. lia. }
    destruct Hf as [k ->].
    rewrite split_size_n_app by (simpl; lia).
    rewrite <- (app_nil_r c) at 1. rewrite H.
    rewrite split_size_n_app by (rewrite <- H; simpl; lia).
    now rewrite split_size_n_nil.
Qed.

Lemma chunk_triple (u t p : tensor) :
  length u = length t -> length t = length p ->
  chunk (u ++ t ++ p) 3 = [u; t; p].
Proof.
  intros H1 H2. destruct u as [|x u].
  - destruct t; [|discriminate H1]. destruct p; [reflexivity|discriminate H2].
  - rewrite chunk_nonempty by discriminate.
    assert (Hs : Nat.div (length ((x :: u) ++ t ++ p) + 3 - 1) 3
                 = length (x :: u)).
    { rewrite !length_app, <- H2, <- H1.
      replace (length (x :: u) + (length (x :: u) + length (x :: u)) + 3 - 1)%nat
        with (2 + length (x :: u) * 3)%nat by lia.
      rewrite Nat.div_add by lia. reflexivity. }
    rewrite Hs.
    assert (Hf : exists k, length ((x :: u) ++ t ++ p) = S (S (S k))).
    { rewrite !length_app, <- H2, <- H1. simpl.
      exists (length u + (length u + length u))%nat. lia. }
    destruct Hf as [k ->].
    rewrite split_size_n_app by (simpl; lia).
    rewrite H1.
    rewrite split_size_n_app by (rewrite <- H1; simpl; lia).
    rewrite <- (app_nil_r p) at 1. rewrite H2.
    rewrite split_size_n_app by (rewrite <- H2, <- H1; simpl; lia).
    now rewrite split_size_n_nil.
Qed.

Lemma cfg_combine_same_length scale (uncond cond : tensor) :
  length cond = length uncond ->
  cfg_combine scale uncond cond
  = Ok (map2 (fadd float32) uncond
          (map (fmul float32 (astype float32 scale))
             (map2 (fsub float32) cond uncond))).
Proof.
  intros H. unfold cfg_combine, bind.
  rewrite broadcast2_same_length by exact H.
  rewrite broadcast2_same_length; [reflexivity|].
  rewrite length_map, map2_length; [now symmetry | exact H].
Qed.

Lemma py_index_nth {T : Type} (l : list T) (i : Z) (d : T) :
  0 <= i < Z.of_nat (length l) ->
  py_index l i = Ok (nth (Z.to_nat i) l d).
Proof.
  intros [H0 H1]. unfold py_index.
  destruct (i <? 0) eqn:E; [apply Z.ltb_lt in E; lia|].
  replace (0 <=? i) with true by (symmetry; apply Z.leb_le; lia).
  replace (i <? Z.of_nat (length l)) with true
    by (symmetry; apply Z.ltb_lt; lia).
  simpl. destruct (nth_error l (Z.to_nat i)) as [a|] eqn:En.
  - now rewrite (nth_error_nth l (Z.to_nat i) d En).
  - apply nth_error_None in En. lia.
Qed.

Lemma np_take_map {T : Type} (a : list T) (d : T) (idx : list Z) :
  Forall (fun i => 0 <= i < Z.of_nat (length a)) idx ->
  np_take a idx = Ok (map (fun i => nth (Z.to_nat i) a d) idx).
Proof.
  induction 1 as [|i idx Hi _ IH]; simpl; [reflexivity|].
  now rewrite (py_index_nth a i d Hi), IH.
Qed.

Lemma interpolate_map {T : Type} (d : dtype) (f g h : T -> num) (l : list T) :
  interpolate d (map f l) (map g l) (map h l)
  = map (fun x =>
           fadd float64
             (fmul float64 (fsub float64 (of_int float64 1) (f x))
                (astype float64 (g x)))
             (fmul float64 (f x) (astype float64 (h x)))) l.
Proof.
  induction l as [|x l IH]; simpl; [reflexivity|]. now rewrite IH.
Qed.

Lemma py_range_length (n : Z) : 0 <= n -> Z.of_nat (length (py_range n)) = n.
Proof.
  intros H. unfold py_range. rewrite length_map, length_seq. lia.
Qed.

Lemma torch_linspace_length d start stop steps l :
  torch_linspace d start stop steps = Ok l -> Z.of_nat (length l) = steps.
Proof.
  unfold torch_linspace.
  destruct (steps <? 0) eqn:E0; [discriminate|]. apply Z.ltb_ge in E0.
  destruct (steps =? 1) eqn:E1.
  - apply Z.eqb_eq in E1. intros H; inversion H; subst. reflexivity.
  - intros H; inversion H; subst. rewrite length_map. now apply py_range_length.
Qed.

Lemma init_betas_length (c : Config) (self : Scheduler) :
  trained_betas c = None ->
  init c = Ok self ->
  Z.of_nat (length (betas self)) = num_train_timesteps c
  /\ schedule_complete self.
Proof.
  intros Ht. unfold init, make_betas, bind. rewrite Ht.
  assert (Hc : forall d (b : tensor),
             length (cumprod d (map (fun x => fsub d (of_int d 1) x) b))
             = length b).
  { intros d b. destruct b as [|x b]; [reflexivity|]. simpl. f_equal.
    generalize (fsub d (of_int d 1) x). induction b as [|y b IH]; intros acc;
      simpl; [reflexivity|]. now rewrite IH. }
  destruct (String.eqb (beta_schedule c) "linear").
  - destruct (torch_linspace _ _ _ _) as [b|] eqn:E; [|discriminate].
    intros H; inversion H; subst; clear H. unfold schedule_complete. simpl.
    rewrite Hc. split; now apply (torch_linspace_length _ _ _ _ _ E).
  - destruct (String.eqb (beta_schedule c) "scaled_linear"); [|discriminate].
    destruct (py_pow_half (beta_start c)); [|discriminate].
    destruct (py_pow_half (beta_end c)); [|discriminate].
    destruct (torch_linspace _ _ _ _) as [b|] eqn:E; [|discriminate].
    intros H; inversion H; subst; clear H. unfold schedule_complete. simpl.
    rewrite Hc, !length_map. split; now apply (torch_linspace_length _ _ _ _ _ E).
Qed.

End Generic.

(** ** Facts of IEEE arithmetic *)

Section IEEEFacts.

Variables prec emax : Z.

Lemma SFmul_zero_r x s :
  IEEE754.is_finite x = true ->
  IEEE754.is_zero (SFmul prec emax x (S754_zero s)) = true.
Proof. destruct x; simpl; intros H; try discriminate H; reflexivity. Qed.

Lemma SFmul_zero_l x s :
  IEEE754.is_finite x = true ->
  IEEE754.is_zero (SFmul prec emax (S754_zero s) x) = true.
Proof. destruct x; simpl; intros H; try discriminate H; reflexivity. Qed.


Lemma SFsub_diag x :
  IEEE754.is_finite x = true ->
  SFsub prec emax x x = S754_zero false.
Proof.
  destruct x as [s|s| |s m e]; simpl; intros H; try discriminate H.
  - now destruct s.
  - now rewrite Z.sub_diag.
Qed.


Lemma SFadd_zero_r x z :
  IEEE754.is_zero z = true ->
  IEEE754.num_eq (SFadd prec emax x z) x.
Proof.
  destruct z as [sz| | |]; simpl; intros H; try discriminate H.
  destruct x as [s|s| |s m e]; simpl; try (left; reflexivity).
  destruct s, sz; simpl; try (left; reflexivity); right; split; reflexivity.
Qed.

Lemma SFsqrt_zero s :
  SFsqrt prec emax (S754_zero s) = S754_zero s.
Proof. reflexivity. Qed.

End IEEEFacts.

Lemma num_eq_refl x : IEEE754.num_eq x x.
Proof. now left. Qed.

Lemma tensor_eq_refl a : IEEE754.tensor_eq a a.
Proof. induction a; constructor; auto using num_eq_refl. Qed.

Lemma num_eq_finite x y :
  IEEE754.num_eq x y -> IEEE754.is_finite y = true -> IEEE754.is_finite x = true.
Proof.
  intros [->|[Hx _]] H; [exact H|]. destruct x; try discriminate Hx; reflexivity.
Qed.

Lemma is_zero_finite x :
  IEEE754.is_zero x = true -> IEEE754.is_finite x = true.
Proof. destruct x; intros H; try discriminate H; reflexivity. Qed.

(** ** The step function in float32 *)

Section StepIEEE.

Local Abbreviation pzero := (S754_zero false).

Lemma map2_add_zeros (x zs : list spec_float) :
  length zs = length x ->
  Forall (fun z => IEEE754.is_zero z = true) zs ->
  IEEE754.tensor_eq (map2 (num:=spec_float) (SFadd 24 128) x zs) x.
Proof.
  revert zs; induction x as [|a x IH]; intros [|z zs] Hl Hz; simpl in *;
    try discriminate Hl; try constructor.
  - inversion Hz; subst. now apply SFadd_zero_r.
  - inversion Hz; subst. apply IH; [congruence|assumption].
Qed.

Lemma noise_times_zero (noise : list spec_float) s :
  Forall (fun n => IEEE754.is_finite n = true) noise ->
  Forall (fun z => IEEE754.is_zero z = true)
         (map (fun n => SFmul 24 128 n (S754_zero s)) noise).
Proof.
  induction 1; simpl; constructor; auto using SFmul_zero_r.
Qed.

Lemma draws_finite (g : Generator (num:=spec_float)) (l : list nat) :
  (forall n, IEEE754.is_finite (g n) = true) ->
  Forall (fun n => IEEE754.is_finite n = true) (map g l).
Proof.
  intros H. induction l; simpl; constructor; auto.
Qed.

Lemma finite_nonzero_cases (x : spec_float) :
  IEEE754.is_finite x = true -> IEEE754.is_zero x = false ->
  exists s m e, x = S754_finite s m e.
Proof.
  destruct x as [s|s| |s m e]; intros Hf Hz;
    try discriminate Hf; try discriminate Hz.
  now exists s, m, e.
Qed.

Lemma sigma_up_terminal sigma :
  IEEE754.is_finite (fpow2 (A:=IEEE) float32 sigma) = true ->
  IEEE754.is_zero (fpow2 (A:=IEEE) float32 sigma) = false ->
  get_sigma_up (A:=IEEE) sigma pzero = pzero.
Proof.
  intros Hf Hz.
  destruct (finite_nonzero_cases _ Hf Hz) as (s & m & e & Hsq).
  unfold get_sigma_up. rewrite Hsq.
  cbn [fpow2 fmul fsub fdiv fsqrt IEEE IEEE754.prec IEEE754.emax].
  now destruct s.
Qed.

Lemma sigma_down_terminal :
  get_sigma_down (A:=IEEE) pzero pzero = pzero.
Proof. reflexivity. Qed.

(** C2, as the code has it.  At the terminal step of a float32 run - the
    next sigma is the zero sentinel - with a current sigma whose square is a
    finite nonzero float32 and finite draws from the generator, [sigma_up]
    and [sigma_down] are [+0.0], and the [prev_sample] that [step] returns is
    numerically equal to the Euler update
    [sample + derivative * (sigma_down - sigma)]: the noise term is zero. *)
Theorem terminal_step_adds_no_noise
        (self : Scheduler (num:=spec_float)) (g : Generator (num:=spec_float))
        (model_output : tensor) (timestep : spec_float) (step_index : Z)
        (sample : tensor) (return_dict : bool)
        (sigma sigma_up sigma_down : spec_float) (derivative : tensor) :
  py_index (sigmas self) (step_index + 1) = Ok pzero ->
  step_derivative self model_output step_index sample
  = Ok (sigma, sigma_up, sigma_down, derivative) ->
  IEEE754.is_finite (fpow2 (A:=IEEE) float32 sigma) = true ->
  IEEE754.is_zero (fpow2 (A:=IEEE) float32 sigma) = false ->
  (forall n, IEEE754.is_finite (g n) = true) ->
  sigma_up = pzero /\ sigma_down = pzero
  /\ exists update out,
      euler_update (A:=IEEE) sample derivative (SFsub 24 128 sigma_down sigma)
      = Ok update
      /\ fst (fst (step self g model_output timestep step_index sample
                     return_dict)) = Ok out
      /\ IEEE754.tensor_eq (prev_sample out) update.
Proof.
  intros Hto Hd Hsf Hsz Hg.
  assert (Hup : sigma_up = pzero /\ sigma_down = pzero).
  { destruct (step_derivative_inv _ _ _ _ _ _ _ _ Hd)
      as (sigma_to & pred & diff & _ & Hto' & Hup & Hdown & _).
    rewrite Hto in Hto'. injection Hto' as <-.
    rewrite (sigma_up_terminal _ Hsf Hsz) in Hup. subst sigma_up.
    split; [reflexivity | exact Hdown]. }
  destruct Hup as [-> ->]. split; [reflexivity|]. split; [reflexivity|].
  destruct (euler_update_returns (A:=IEEE) _ _ _ _ _ _ _ _
              (SFsub 24 128 pzero sigma) Hd) as [update Hu].
  exists update. unfold step. rewrite Hd.
  change (@fsub spec_float IEEE float32 pzero sigma) with (SFsub 24 128 pzero sigma).
  rewrite Hu. unfold add_ancestral_noise, randn_like.
  assert (Ht : IEEE754.tensor_eq
                 (map2 (num:=spec_float) (@fadd spec_float IEEE float32) update
                    (map (fun n => @fmul spec_float IEEE float32 n pzero)
                       (map g (seq 0 (length update))))) update).
  { apply map2_add_zeros.
    - now rewrite !length_map, length_seq.
    - apply noise_times_zero. now apply draws_finite. }
  destruct (negb return_dict); simpl; eexists;
    (split; [reflexivity|]); (split; [reflexivity|]); exact Ht.
Qed.

End StepIEEE.

(** ** The derivative of a step *)

Section Derivative.

Local Open Scope R_scope.

Lemma exact_derivative (sigma : R) (sample model_output : list R) :
  sigma <> 0 ->
  length model_output = length sample ->
  map (fun x => x / sigma)
      (map2 (num:=R) Rminus sample
         (map2 (num:=R) Rminus sample (map (Rmult sigma) model_output)))
  = model_output.
Proof.
  intros Hs. revert model_output.
  induction sample as [|x sample IH]; intros [|y mo] Hl; simpl in *;
    try discriminate Hl; [reflexivity|].
  f_equal; [now field | apply IH; congruence].
Qed.

Lemma exact_zero_update (sample zeros : list R) (dt : R) :
  Forall (fun z => z = 0) zeros ->
  length zeros = length sample ->
  map2 (num:=R) Rplus sample (map (fun x => x * dt) zeros) = sample.
Proof.
  intros Hz. revert sample.
  induction Hz as [|z zeros Hz _ IH]; intros [|x sample] Hl; simpl in *;
    try discriminate Hl; [reflexivity|].
  subst z. f_equal; [ring | apply IH; congruence].
Qed.




End Derivative.

(** ** Guidance *)

Section Guidance.

Lemma ieee_combine_identical (scale : spec_float) (u : list spec_float) :
  IEEE754.is_finite scale = true ->
  Forall (fun x => IEEE754.is_finite x = true) u ->
  IEEE754.tensor_eq
    (map2 (num:=spec_float) (SFadd 24 128) u
       (map (SFmul 24 128 scale) (map2 (num:=spec_float) (SFsub 24 128) u u))) u.
Proof.
  intros Hs Hu. induction Hu as [|x u Hx _ IH]; simpl; constructor; [|exact IH].
  rewrite (SFsub_diag 24 128 x Hx).
  apply SFadd_zero_r. now apply (SFmul_zero_r 24 128).
Qed.

Lemma ieee_combine_zero_scale (z : spec_float) (u c : list spec_float) :
  IEEE754.is_zero z = true ->
  length c = length u ->
  Forall (fun d => IEEE754.is_finite d = true)
         (map2 (num:=spec_float) (SFsub 24 128) c u) ->
  IEEE754.tensor_eq
    (map2 (num:=spec_float) (SFadd 24 128) u
       (map (SFmul 24 128 z) (map2 (num:=spec_float) (SFsub 24 128) c u))) u.
Proof.
  intros Hz. destruct z as [sz| | |]; try discriminate Hz.
  revert c; induction u as [|x u IH]; intros [|y c] Hl Hd; simpl in *;
    try discriminate Hl; constructor.
  - inversion Hd; subst. apply SFadd_zero_r. now apply (SFmul_zero_l 24 128).
  - inversion Hd; subst. apply IH; [congruence|assumption].
Qed.

(** C5, as the code has it.  Where guidance is applied the combiner is
    [uncond + scale * (cond - uncond)]: the Meissonic pipeline applies it to
    the two halves of the model output only when [guidance_scale > 1.0] and
    otherwise hands the model output on unchanged; the PAG combiner adds
    [pag_scale * (text - perturb)] to it.  For the formula in float32, on
    branches of one shape: with identical finite branches and a finite scale
    (1.0 included) the result is numerically the unconditional branch; with
    a zero scale it is numerically the unconditional branch whenever
    [cond - uncond] is finite. *)
Theorem guidance_combiner :
  (forall (num : Type) (A : Arith num) (guidance_scale : num) (uncond cond : list num),
      length uncond = length cond ->
      (@fltb num A (@of_int num A float64 1) guidance_scale = true ->
       meissonic_guidance guidance_scale (uncond ++ cond)
       = cfg_combine guidance_scale uncond cond)
      /\ (@fltb num A (@of_int num A float64 1) guidance_scale = false ->
          meissonic_guidance guidance_scale (uncond ++ cond)
          = Ok (uncond ++ cond)))
  /\
  (forall (num : Type) (A : Arith num) (self : PAGMixin (num:=num))
          (guidance_scale t : num) (uncond text perturb : list num),
      length uncond = length text ->
      length text = length perturb ->
      _apply_perturbed_attention_guidance self (uncond ++ text ++ perturb)
        true guidance_scale t
      = Ok (map2 (@fadd num A float32)
              (map2 (@fadd num A float32) uncond
                 (map (@fmul num A float32 (@astype num A float32 guidance_scale))
                    (map2 (@fsub num A float32) text uncond)))
              (map (@fmul num A float32
                      (@astype num A float32 (_get_pag_scale self t)))
                 (map2 (@fsub num A float32) text perturb))))
  /\
  (forall (scale : spec_float) (uncond : list spec_float),
      IEEE754.is_finite (IEEE754.round_to float32 scale) = true ->
      Forall (fun x => IEEE754.is_finite x = true) uncond ->
      exists r, cfg_combine (A:=IEEE) scale uncond uncond = Ok r
                /\ IEEE754.tensor_eq r uncond)
  /\
  (forall (scale : spec_float) (uncond cond : list spec_float),
      IEEE754.is_zero scale = true ->
      length cond = length uncond ->
      Forall (fun d => IEEE754.is_finite d = true)
             (map2 (num:=spec_float) (SFsub 24 128) cond uncond) ->
      exists r, cfg_combine (A:=IEEE) scale uncond cond = Ok r
                /\ IEEE754.tensor_eq r uncond).
Proof.
  repeat split.
  - intros Hg. unfold meissonic_guidance. now rewrite Hg, chunk_pair.
  - intros Hg. unfold meissonic_guidance. now rewrite Hg.
  - intros num A self gs t u tx pt H1 H2.
    unfold _apply_perturbed_attention_guidance.
    rewrite chunk_triple by assumption.
    rewrite cfg_combine_same_length by now symmetry.
    unfold bind.
    rewrite broadcast2_same_length by exact H2.
    rewrite broadcast2_same_length; [reflexivity|].
    assert (L1 : length (map2 (@fsub num A float32) tx u) = length tx)
      by (apply map2_length; now symmetry).
    assert (L2 : length (map2 (@fsub num A float32) tx pt) = length tx)
      by (apply map2_length; exact H2).
    rewrite length_map, L2.
    rewrite map2_length; [exact H1|].
    rewrite length_map, L1. exact H1.
  - intros scale u Hs Hu. rewrite cfg_combine_same_length by reflexivity.
    eexists; split; [reflexivity|]. now apply ieee_combine_identical.
  - intros z u c Hz Hl Hd. rewrite cfg_combine_same_length by exact Hl.
    eexists; split; [reflexivity|].
    assert (Hr : IEEE754.round_to float32 z = z)
      by (destruct z; try discriminate Hz; reflexivity).
    change (@astype spec_float IEEE float32 z) with (IEEE754.round_to float32 z).
    rewrite Hr. now apply ieee_combine_zero_scale.
Qed.

End Guidance.

(** Integers under [IZR] are opaque terms for [field] and [lra]. *)
Ltac name_IZR :=
  repeat match goal with
         | |- context [IZR ?z] =>
             lazymatch z with
             | Z0 => fail
             | Zpos _ => fail
             | Zneg _ => fail
             | _ => let r := fresh "r" in set (r := IZR z) in *
             end
         end.

(** ** Timesteps in exact arithmetic *)

Section TimestepsExact.

Local Open Scope R_scope.

Lemma floor_spec (x : R) : IZR (Real.floor x) <= x < IZR (Real.floor x) + 1.
Proof.
  unfold Real.floor. destruct (archimed x) as [H1 H2].
  rewrite minus_IZR. lra.
Qed.

Lemma floor_unique (x : R) (z : Z) : IZR z <= x < IZR z + 1 -> Real.floor x = z.
Proof.
  intros [H1 H2]. destruct (floor_spec x) as [F1 F2].
  assert (Real.floor x < z + 1)%Z by (apply lt_IZR; rewrite plus_IZR; lra).
  assert (z < Real.floor x + 1)%Z by (apply lt_IZR; rewrite plus_IZR; lra).
  lia.
Qed.

Lemma floor_IZR (z : Z) : Real.floor (IZR z) = z.
Proof. apply floor_unique; lra. Qed.

Lemma ceil_IZR (z : Z) : Real.ceil (IZR z) = z.
Proof.
  unfold Real.ceil. rewrite <- opp_IZR, floor_IZR. lia.
Qed.

Lemma floor_range (x : R) (a b : Z) :
  IZR a <= x <= IZR b -> (a <= Real.floor x <= b)%Z.
Proof.
  intros [H1 H2]. destruct (floor_spec x) as [F1 F2]. split.
  - assert (a < Real.floor x + 1)%Z by (apply lt_IZR; rewrite plus_IZR; lra).
    lia.
  - apply le_IZR. lra.
Qed.

Lemma ceil_range (x : R) (a b : Z) :
  IZR a <= x <= IZR b -> (a <= Real.ceil x <= b)%Z.
Proof.
  intros [H1 H2]. unfold Real.ceil.
  destruct (floor_range (- x) (- b) (- a)) as [F1 F2].
  - rewrite !opp_IZR. lra.
  - lia.
Qed.

Lemma adjacent_map_seq {T : Type} (R : T -> T -> Prop) (f : nat -> T) :
  forall n a,
    (forall i, (a <= i)%nat -> (S i < a + n)%nat -> R (f i) (f (S i))) ->
    adjacent R (map f (seq a n)).
Proof.
  induction n as [|n IH]; intros a H; simpl; [exact I|].
  destruct n as [|n]; simpl; [exact I|].
  split.
  - apply H; lia.
  - apply (IH (S a)). intros i Hi1 Hi2. apply H; lia.
Qed.

Lemma set_last_app {T : Type} (l : list T) (x v : T) :
  set_last (l ++ [x]) v = l ++ [v].
Proof.
  induction l as [|y l IH]; simpl; [reflexivity|].
  rewrite IH. destruct (l ++ [x]) eqn:E; [|reflexivity].
  destruct l; discriminate E.
Qed.

Lemma set_last_map_seq {T : Type} (f : nat -> T) (v : T) (k : nat) :
  set_last (map f (seq 0 (S k))) v
  = map (fun i => if (i <? k)%nat then f i else v) (seq 0 (S k)).
Proof.
  rewrite seq_S, !map_app. simpl. rewrite set_last_app.
  rewrite Nat.ltb_irrefl. f_equal.
  apply map_ext_in. intros i Hi. apply in_seq in Hi.
  destruct (Nat.ltb_spec i k); [reflexivity|lia].
Qed.

(** The timesteps of [set_timesteps(m)] on [n] training steps. *)
Lemma np_linspace_exact (n m : Z) :
  (2 <= m)%Z ->
  np_linspace (A:=Exact) (IZR (n - 1)) 0 m
  = Ok (map (fun i => IZR (n - 1) * IZR (m - 1 - Z.of_nat i) / IZR (m - 1))
          (seq 0 (Z.to_nat m))).
Proof.
  intros Hm. unfold np_linspace.
  destruct (m <? 0)%Z eqn:E0; [apply Z.ltb_lt in E0; lia|].
  destruct (0 <? m - 1)%Z eqn:E1; [|apply Z.ltb_ge in E1; lia].
  destruct (1 <? m)%Z eqn:E2; [|apply Z.ltb_ge in E2; lia].
  assert (Hd : IZR (m - 1) <> 0) by (apply not_0_IZR; lia).
  f_equal. unfold py_range.
  destruct (Z.to_nat m) as [|k] eqn:Ek; [lia|].
  assert (Hk : (m - 1)%Z = Z.of_nat k) by lia.
  match goal with
  | |- set_last (map ?f (if ?c then ?a else ?b)) ?v = _ =>
      assert (Hab : map f (if c then a else b)
                    = map (fun i => IZR (Z.of_nat i)
                                    * ((0 - IZR (n - 1)) / IZR (m - 1))
                                    + IZR (n - 1)) (seq 0 (S k)))
  end.
  { destruct (feqb _ _); rewrite !map_map; apply map_ext; intros i;
      cbn [fmul fdiv fadd fsub of_int Exact];
      name_IZR; first [reflexivity | field; exact Hd]. }
  rewrite Hab, set_last_map_seq.
  apply map_ext_in. intros i Hi. apply in_seq in Hi.
  destruct (Nat.ltb_spec i k).
  - rewrite (minus_IZR (m - 1) (Z.of_nat i)). name_IZR. field. exact Hd.
  - assert (i = k) by lia. subst i. rewrite Hk, Z.sub_diag.
    rewrite Hk in Hd. name_IZR. field. exact Hd.
Qed.

Lemma np_linspace_exact_one (n : Z) :
  np_linspace (A:=Exact) (IZR (n - 1)) 0 1 = Ok [IZR (n - 1)].
Proof.
  unfold np_linspace. simpl. f_equal. f_equal.
  cbn [fmul fdiv fadd fsub of_int Exact]. ring.
Qed.


Lemma np_linspace_exact_timesteps (n m : Z) :
  (1 <= m)%Z ->
  np_linspace (A:=Exact) (IZR (n - 1)) 0 m = Ok (exact_timesteps n m).
Proof.
  intros Hm. unfold exact_timesteps, exact_timestep.
  destruct (m =? 1)%Z eqn:E.
  - apply Z.eqb_eq in E. subst m. apply np_linspace_exact_one.
  - apply Z.eqb_neq in E. apply np_linspace_exact. lia.
Qed.



Lemma last_map_seq {T : Type} (f : nat -> T) (k : nat) (d : T) :
  last (map f (seq 0 (S k))) d = f k.
Proof.
  rewrite seq_S, map_app. simpl. apply last_last.
Qed.


Lemma exact_timesteps_ends (n m : Z) :
  (2 <= m)%Z ->
  hd 1 (exact_timesteps n m) = IZR (n - 1)
  /\ last (exact_timesteps n m) 1 = 0.
Proof.
  intros Hm. unfold exact_timesteps.
  destruct (Z.to_nat m) as [|k] eqn:Ek; [lia|].
  assert (Hc : IZR (m - 1) <> 0) by (apply not_0_IZR; lia).
  split.
  - simpl. unfold exact_timestep.
    destruct (m =? 1)%Z eqn:E; [reflexivity|].
    replace (m - 1 - Z.of_nat 0)%Z with (m - 1)%Z by lia.
    name_IZR. now field.
  - rewrite last_map_seq. unfold exact_timestep.
    destruct (m =? 1)%Z eqn:E; [apply Z.eqb_eq in E; lia|].
    replace (m - 1 - Z.of_nat k)%Z with 0%Z by lia.
    name_IZR. now field.
Qed.





Lemma adjacent_head_le (l : list R) : forall x,
  adjacent Rle (x :: l) -> forall y, In y l -> x <= y.
Proof.
  induction l as [|z l IH]; intros x H y Hy; [destruct Hy|].
  destruct H as [Hxz Hl]. destruct Hy as [<-|Hy]; [exact Hxz|].
  apply Rle_trans with z; [exact Hxz|]. now apply IH.
Qed.

Lemma adjacent_tail {T : Type} (R : T -> T -> Prop) (x : T) (l : list T) :
  adjacent R (x :: l) -> adjacent R l.
Proof. destruct l; simpl; [trivial|]. now intros [_ H]. Qed.

Lemma adjacent_le_nth (l : list R) :
  adjacent Rle l ->
  forall i j, (i <= j < length l)%nat -> nth i l 0 <= nth j l 0.
Proof.
  induction l as [|x l IH]; intros H i j Hij; [simpl in Hij; lia|].
  destruct i as [|i], j as [|j]; simpl in *; try lia; try lra.
  - apply (adjacent_head_le l x H). apply nth_In. lia.
  - apply IH; [now apply (adjacent_tail Rle x)|lia].
Qed.

Lemma exact_first_timestep (n m : Z) :
  (1 <= m)%Z -> exact_timestep n m 0 = IZR (n - 1).
Proof.
  intros Hm. unfold exact_timestep.
  destruct (m =? 1)%Z eqn:E; [reflexivity|]. apply Z.eqb_neq in E.
  assert (Hc : IZR (m - 1) <> 0) by (apply not_0_IZR; lia).
  replace (m - 1 - Z.of_nat 0)%Z with (m - 1)%Z by lia.
  name_IZR. now field.
Qed.



Lemma sigma_table_nonneg (d : dtype) (acp : list R) :
  Forall (fun x => 0 <= x) (sigmas_of_alphas_cumprod (A:=Exact) d acp).
Proof.
  unfold sigmas_of_alphas_cumprod. apply Forall_forall.
  intros x Hx. apply in_map_iff in Hx. destruct Hx as (a & <- & _).
  apply sqrt_pos.
Qed.





End TimestepsExact.

(** ** The schedule in exact arithmetic *)

Section ScheduleExact.

Local Open Scope R_scope.

Lemma adjacent_map {T U : Type} (P : T -> Prop) (R : T -> T -> Prop)
      (R' : U -> U -> Prop) (f : T -> U) (l : list T) :
  (forall x y, P x -> P y -> R x y -> R' (f x) (f y)) ->
  Forall P l -> adjacent R l -> adjacent R' (map f l).
Proof.
  intros Hf. induction l as [|x l IH]; intros HP HR; [exact I|].
  destruct l as [|y l]; [exact I|].
  inversion HP as [|? ? Px HP']; subst. inversion HP' as [|? ? Py _]; subst.
  destruct HR as [Hxy HR]. split; [now apply Hf|]. now apply IH.
Qed.

Lemma adjacent_app_one {T : Type} (R : T -> T -> Prop) (l : list T) (x d : T) :
  adjacent R l -> (l <> [] -> R (last l d) x) -> adjacent R (l ++ [x]).
Proof.
  induction l as [|y l IH]; intros Hl Hx; [exact I|].
  destruct l as [|z l].
  - simpl. split; [|exact I]. apply Hx. discriminate.
  - destruct Hl as [Hyz Hl]. split; [exact Hyz|].
    apply IH; [exact Hl|]. intros _. apply Hx. discriminate.
Qed.







Lemma last_nonneg (l : list R) :
  Forall (fun x => 0 <= x) l -> 0 <= last l 0.
Proof.
  induction 1 as [|x l Hx Hl IH]; simpl; [lra|].
  destruct l; [exact Hx|exact IH].
Qed.






End ScheduleExact.

(** * Concrete instances *)

Section Instances.

Local Abbreviation pzero := (S754_zero false).

Lemma alternating_finite n : IEEE754.is_finite (Examples.alternating n) = true.
Proof. unfold Examples.alternating. destruct (Nat.even n); reflexivity. Qed.


(** C2 on the small schedule: the terminal step of a run of two steps. *)
Lemma terminal_step_adds_no_noise_witness :
  py_index (sigmas Examples.small_run) 2 = Ok pzero
  /\ exists update out,
      euler_update (A:=IEEE) Examples.sample2 Examples.terminal_gradient
        (SFsub 24 128 pzero Examples.terminal_sigma) = Ok update
      /\ fst (fst (step Examples.small_run Examples.alternating
                     Examples.output2 pzero 1 Examples.sample2 true)) = Ok out
      /\ IEEE754.tensor_eq (prev_sample out) update.
Proof.
  assert (Hto : py_index (sigmas Examples.small_run) (1 + 1) = Ok pzero)
    by (vm_compute; reflexivity).
  assert (Hd : step_derivative (A:=IEEE) Examples.small_run Examples.output2 1
                 Examples.sample2
               = Ok (Examples.terminal_sigma, pzero, pzero,
                     Examples.terminal_gradient))
    by (vm_compute; reflexivity).
  split; [exact Hto|].
  destruct (terminal_step_adds_no_noise Examples.small_run
              Examples.alternating Examples.output2 pzero 1 Examples.sample2
              true _ _ _ _ Hto Hd eq_refl eq_refl alternating_finite)
    as (_ & _ & H).
  exact H.
Defined.

(** The claim C2 fails where the square of the current sigma is not a finite
    nonzero number.  With [beta_start = 0.0] the sigma of training timestep 0
    is 0.0; at the terminal step of a run of two steps (the next sigma is the
    sentinel) [sigma_up], [sigma_down], the derivative and the returned
    [prev_sample] are all NaN.  With 1000 linear betas from 0.0001 to 0.5 the
    cumulative product of the alphas underflows to 0.0, the sigma of training
    timestep 999 is infinite, and the only step of a run of one step returns
    NaN as well. *)
Lemma terminal_step_with_zero_sigma :
  (py_index (sigmas (Examples.prepared Examples.zero_start_config 2)) 2
   = Ok pzero
   /\ step_derivative (A:=IEEE)
        (Examples.prepared Examples.zero_start_config 2)
        [Examples.f32 1 0] 1 [Examples.f32 5 1]
      = Ok (pzero, S754_nan, S754_nan, [S754_nan])
   /\ fst (fst (step (A:=IEEE)
                  (Examples.prepared Examples.zero_start_config 2)
                  Examples.alternating [Examples.f32 1 0] pzero 1
                  [Examples.f32 5 1] true))
      = Ok (SchedulerOutput (num:=spec_float) [S754_nan]))
  /\
  (hd S754_nan (sigmas (Examples.constructed Examples.steep_config))
   = S754_infinity false
   /\ sigmas (Examples.prepared Examples.steep_config 1) = [S754_nan; pzero]
   /\ step_derivative (A:=IEEE)
        (Examples.prepared Examples.steep_config 1)
        [Examples.f32 1 0] 0 [Examples.f32 5 1]
      = Ok (S754_nan, S754_nan, S754_nan, [S754_nan])
   /\ fst (fst (step (A:=IEEE)
                  (Examples.prepared Examples.steep_config 1)
                  Examples.alternating [Examples.f32 1 0]
                  (IEEE754.of_Z float64 999) 0 [Examples.f32 5 1] true))
      = Ok (SchedulerOutput (num:=spec_float) [S754_nan])).
Proof. repeat split; vm_compute; reflexivity. Qed.




(** C5 on concrete branches: identical branches under scale 1.0, a zero
    scale, and the Meissonic guard at scale 1.0. *)
Lemma guidance_combiner_witness :
  (exists r, cfg_combine (A:=IEEE) (IEEE754.of_Z float64 1) Examples.sample2
               Examples.sample2 = Ok r
             /\ IEEE754.tensor_eq r Examples.sample2)
  /\ (exists r, cfg_combine (A:=IEEE) pzero Examples.sample2 Examples.output2
                = Ok r
                /\ IEEE754.tensor_eq r Examples.sample2)
  /\ meissonic_guidance (A:=IEEE) (IEEE754.of_Z float64 1)
       (Examples.sample2 ++ Examples.output2)
     = Ok (Examples.sample2 ++ Examples.output2).
Proof.
  destruct guidance_combiner as (Hm & _ & Hid & Hz).
  split; [|split].
  - apply Hid; [reflexivity|]. repeat constructor.
  - apply Hz; [reflexivity|reflexivity|]. repeat constructor.
  - apply (proj2 (Hm spec_float IEEE (IEEE754.of_Z float64 1) Examples.sample2
                    Examples.output2 eq_refl)).
    reflexivity.
Defined.

(** The claim C5 fails on both combiners at scale 0.0.  The Meissonic
    pipeline hands the stacked model output [[1.0, 2.0]] on unchanged, and
    the PAG combiner with scale 3.0 on the branches 1.0 (unconditional), 2.0
    (text) and 0.5 (perturbed) returns [1.0 + 0.0 * 1.0 + 3.0 * 1.5 = 5.5];
    neither is the unconditional branch [[1.0]]. *)
Lemma guidance_scale_zero_is_not_unconditional :
  meissonic_guidance (A:=IEEE) pzero [Examples.f32 1 0; Examples.f32 2 0]
  = Ok [Examples.f32 1 0; Examples.f32 2 0]
  /\ _apply_perturbed_attention_guidance (A:=IEEE) Examples.pag3
       [Examples.f32 1 0; Examples.f32 2 0; Examples.f32 5 1] true pzero
       (IEEE754.of_Z float64 999)
     = Ok [Examples.f32 55 1]
  /\ IEEE754.same (Examples.f32 55 1) (Examples.f32 1 0) = false.
Proof. repeat split; vm_compute; reflexivity. Qed.

(** C6 on concrete configurations: an unknown schedule name raises, the
    small linear schedule is built. *)
Lemma init_schedule_name_witness :
  init Examples.cosine_config = Raise NotImplementedError
  /\ returns (init Examples.small_config).
Proof.
  split.
  - apply (proj1 (init_schedule_name Examples.cosine_config));
      [reflexivity | discriminate | discriminate].
  - apply (proj2 (init_schedule_name Examples.small_config)).
    right; left. split; [reflexivity|simpl; lia].
Defined.


(** C8 on a concrete call: a step count together with an explicit timestep
    list, by keyword. *)
Lemma set_timesteps_explicit_schedule_witness :
  call_set_timesteps (Examples.constructed Examples.small_config) []
    [("num_inference_steps"%string, PyInt 2);
     ("timesteps"%string, Examples.explicit_timesteps)]
  = (Raise TypeError, Examples.constructed Examples.small_config).
Proof.
  apply (proj1 (set_timesteps_explicit_schedule
                  (Examples.constructed Examples.small_config))).
  left. simpl. discriminate.
Defined.

(** The claim C8 fails: an explicit timestep list supplied alone - exactly
    one of the three - is rejected by argument binding, and a step count
    followed positionally by a timestep list is accepted, the list being
    bound to [device]. *)
Lemma explicit_timesteps_alone_are_rejected :
  fst (call_set_timesteps (Examples.constructed Examples.small_config) []
         [("timesteps"%string, Examples.explicit_timesteps)])
  = Raise TypeError
  /\ fst (call_set_timesteps (Examples.constructed Examples.small_config)
            [PyInt 2; Examples.explicit_timesteps] [])
     = Ok tt.
Proof. split; vm_compute; reflexivity. Qed.

(** C9 on the small schedule: [set_timesteps(2)], then two calls of
    [step]. *)
Lemma derivatives_history_witness :
  set_timesteps (Examples.constructed Examples.small_config) (PyInt 2) PyNone
  = (Ok tt, Examples.small_run)
  /\ derivatives Examples.small_run = []
  /\ length (derivatives
               (snd (fst (run_steps Examples.small_run Examples.alternating
                            Examples.two_calls)))) = 2%nat.
Proof.
  assert (H : set_timesteps (Examples.constructed Examples.small_config)
                (PyInt 2) PyNone = (Ok tt, Examples.small_run))
    by (vm_compute; reflexivity).
  destruct (derivatives_history _ _ _ _ Examples.alternating
              Examples.two_calls H) as [H0 Hr].
  split; [exact H|]. split; [exact H0|].
  assert (Hok : count_ok (fst (fst (run_steps Examples.small_run
                                      Examples.alternating Examples.two_calls)))
                = 2%nat) by (vm_compute; reflexivity).
  destruct (run_steps Examples.small_run Examples.alternating
              Examples.two_calls) as [[rs self'] g'].
  destruct Hr as [Hc _]. cbn [fst snd] in Hok |- *. rewrite Hc. exact Hok.
Defined.



End Instances.

(** * Further properties of the scheduler *)

Section SchedulerMethodsGeneric.

Context {num : Type} {A : Arith num}.

Lemma same_schedule_refl (s : Scheduler (num:=num)) : same_schedule s s.
Proof. repeat split. Qed.

Lemma same_schedule_trans (s1 s2 s3 : Scheduler (num:=num)) :
  same_schedule s1 s2 -> same_schedule s2 s3 -> same_schedule s1 s3.
Proof.
  unfold same_schedule.
  intros (a1 & a2 & a3 & a4 & a5 & a6) (b1 & b2 & b3 & b4 & b5 & b6).
  repeat split; congruence.
Qed.

Lemma set_timesteps_same_schedule (self : Scheduler (num:=num)) n device :
  same_schedule (snd (set_timesteps self n device)) self.
Proof.
  unfold set_timesteps.
  destruct n as [|m|x|str|l]; try solve [repeat split].
  destruct (np_linspace _ _ m) as [ts|e]; [|repeat split].
  destruct (np_take _ (map floor_int ts)) as [lo|e]; [|repeat split].
  destruct (np_take _ (map ceil_int ts)) as [hi|e]; [|repeat split].
  destruct (py_index _ 0) as [s0|e]; repeat split.
Qed.

Lemma step_same_schedule (self : Scheduler (num:=num)) g mo t i x rd :
  same_schedule (snd (fst (step self g mo t i x rd))) self.
Proof.
  unfold step.
  destruct (step_derivative self mo i x)
    as [[[[sigma sigma_up] sigma_down] derivative]|e]; [|repeat split].
  destruct (euler_update x derivative _) as [prev|e]; [|repeat split].
  destruct (add_ancestral_noise g prev sigma_up) as [p g'].
  destruct (negb rd); repeat split.
Qed.

Lemma add_noise_same_schedule (self : Scheduler (num:=num)) h d x n t :
  same_schedule (snd (add_noise self h d x n t)) self.
Proof.
  unfold add_noise. destruct h; [|repeat split].
  destruct (np_take _ t); repeat split.
Qed.

Lemma do_call_same_schedule (self : Scheduler (num:=num)) h g c :
  same_schedule (fst (fst (do_call self h g c))) self.
Proof.
  destruct c as [n device|x t i|c|x n t]; simpl.
  - apply set_timesteps_same_schedule.
  - apply same_schedule_refl.
  - apply step_same_schedule.
  - apply add_noise_same_schedule.
Qed.

Lemma run_calls_same_schedule calls : forall (self : Scheduler (num:=num)) h g,
  same_schedule (fst (fst (run_calls self h g calls))) self.
Proof.
  induction calls as [|c rest IH]; intros self h g; simpl.
  - apply same_schedule_refl.
  - pose proof (do_call_same_schedule self h g c) as Hc.
    destruct (do_call self h g c) as [[self' h'] g'].
    eapply same_schedule_trans; [apply IH|exact Hc].
Qed.

Lemma set_timesteps_holder_same_schedule (s1 s2 : Scheduler (num:=num)) n h :
  same_schedule s1 s2 ->
  set_timesteps_holder s1 n h = set_timesteps_holder s2 n h.
Proof.
  intros (Hc & Hd & Hb & Ha & Hp & Hf).
  unfold set_timesteps_holder, self_num_train_timesteps.
  now rewrite Hc, Hd, Hp.
Qed.

Lemma set_timesteps_returns_tensor (self : Scheduler (num:=num)) n device h :
  fst (set_timesteps self n device) = Ok tt ->
  set_timesteps_holder self n h = TorchTensor.
Proof.
  unfold set_timesteps, set_timesteps_holder, self_num_train_timesteps.
  cbn [config betas_dtype alphas_cumprod with_num_inference_steps with_timesteps].
  destruct n as [|m|x|str|l]; try (intros H; discriminate H).
  destruct (np_linspace _ _ m) as [ts|e]; [|intros H; discriminate H].
  cbv zeta.
  destruct (np_take _ (map floor_int ts)) as [lo|e]; [|intros H; discriminate H].
  destruct (np_take _ (map ceil_int ts)) as [hi|e]; [|intros H; discriminate H].
  reflexivity.
Qed.

Lemma set_timesteps_of_same_schedule (s1 s2 : Scheduler (num:=num))
      n device device' s' :
  same_schedule s1 s2 ->
  set_timesteps s2 n device = (Ok tt, s') ->
  set_timesteps s1 n device' = (Ok tt, s').
Proof.
  intros (Hc & Hd & Hb & Ha & Hp & Hf). unfold set_timesteps.
  unfold self_num_train_timesteps.
  cbn [config betas_dtype alphas_cumprod with_num_inference_steps with_timesteps].
  rewrite Hc, Hd, Hp.
  destruct n as [|m|x|str|l]; try (intros H; discriminate H).
  destruct (np_linspace _ _ m) as [ts|e]; [|intros H; discriminate H].
  destruct (np_take _ (map floor_int ts)) as [lo|e]; [|intros H; discriminate H].
  destruct (np_take _ (map ceil_int ts)) as [hi|e]; [|intros H; discriminate H].
  destruct (py_index _ 0) as [s0|e]; [|intros H; discriminate H].
  intros H. injection H as <-. f_equal.
  unfold with_derivatives, with_init_noise_sigma, with_sigmas, with_timesteps,
    with_num_inference_steps. simpl. now rewrite Hc, Hd, Hb, Ha, Hp, Hf.
Qed.

(** X1. The schedule computed by the constructor - configuration, betas,
    alphas, cumulative product - is never changed by [set_timesteps],
    [scale_model_input], [step] or [add_noise], whether they return or raise,
    and [set_timesteps] recomputes everything else from it: after any
    sequence of calls, a [set_timesteps] call that returns on the fresh
    instance returns on the used one too and leaves it in exactly the same
    state, with a tensor of timesteps. *)
Theorem set_timesteps_forgets_history (self : Scheduler (num:=num))
        (h : holder) (g : Generator (num:=num)) (calls : list method_call)
        (n device device' : pyval) (self' : Scheduler (num:=num)) :
  set_timesteps self n device = (Ok tt, self') ->
  let used := fst (fst (run_calls self h g calls)) in
  let h' := snd (fst (run_calls self h g calls)) in
  same_schedule used self
  /\ set_timesteps used n device' = (Ok tt, self')
  /\ set_timesteps_holder used n h' = TorchTensor.
Proof.
  intros H used h'.
  pose proof (run_calls_same_schedule calls self h g) as Hs.
  split; [exact Hs|]. split.
  - now apply (set_timesteps_of_same_schedule _ self n device device').
  - rewrite (set_timesteps_holder_same_schedule used self n h' Hs).
    apply (set_timesteps_returns_tensor self n device). now rewrite H.
Qed.

Lemma py_index_out_of_range {T : Type} (l : list T) (i : Z) :
  i < - Z.of_nat (length l) \/ Z.of_nat (length l) <= i ->
  py_index l i = Raise IndexError.
Proof.
  intros H. unfold py_index.
  destruct (i <? 0) eqn:E.
  - apply Z.ltb_lt in E.
    destruct (0 <=? i + Z.of_nat (length l)) eqn:E1; [|reflexivity].
    apply Z.leb_le in E1. lia.
  - apply Z.ltb_ge in E.
    destruct (i <? Z.of_nat (length l)) eqn:E1.
    + apply Z.ltb_lt in E1. lia.
    + now rewrite andb_false_r.
Qed.

Lemma py_index_in_range {T : Type} (l : list T) (i : Z) :
  - Z.of_nat (length l) <= i < Z.of_nat (length l) ->
  exists x, py_index l i = Ok x.
Proof.
  intros H. unfold py_index.
  set (j := if i <? 0 then i + Z.of_nat (length l) else i).
  assert (Hj : 0 <= j < Z.of_nat (length l)).
  { unfold j. destruct (i <? 0) eqn:E;
      [apply Z.ltb_lt in E|apply Z.ltb_ge in E]; lia. }
  replace (0 <=? j) with true by (symmetry; apply Z.leb_le; lia).
  replace (j <? Z.of_nat (length l)) with true
    by (symmetry; apply Z.ltb_lt; lia).
  simpl. destruct (nth_error l (Z.to_nat j)) as [a|] eqn:En; [eauto|].
  apply nth_error_None in En. lia.
Qed.

Lemma py_index_error {T : Type} (l : list T) (i : Z) e :
  py_index l i = Raise e -> e = IndexError.
Proof.
  unfold py_index.
  destruct (_ && _); [destruct (nth_error _ _)|]; intros H;
    now inversion H.
Qed.



Lemma cumprod_alphas_length (d : dtype) (b : list num) :
  length (cumprod d (map (fun x => fsub d (of_int d 1) x) b)) = length b.
Proof.
  destruct b as [|x b]; [reflexivity|]. simpl. f_equal.
  generalize (fsub d (of_int d 1) x). induction b as [|y b IH]; intros acc;
    simpl; [reflexivity|]. now rewrite IH.
Qed.

Lemma init_trained_betas (c : Config (num:=num)) (d : dtype) (b : list num)
      (self : Scheduler (num:=num)) :
  trained_betas c = Some (d, b) ->
  init c = Ok self ->
  config self = c /\ length (alphas_cumprod self) = length b.
Proof.
  intros Ht Hi. unfold init, bind in Hi.
  destruct (make_betas c) as [[d' b']|e] eqn:Eb; [|discriminate Hi].
  injection Hi as <-. cbn [config alphas_cumprod].
  unfold make_betas in Eb. rewrite Ht in Eb. inversion Eb; subst.
  split; [reflexivity|apply cumprod_alphas_length].
Qed.

(** X4. What the constructor leaves: alphas and cumulative products, one
    per beta; one sigma more than betas, the last one being the sentinel
    [0.0]; the integer timesteps [N - 1, ..., 0] for
    [N = num_train_timesteps]; no step count, no [init_noise_sigma], no
    derivatives.  [len(scheduler)] is [N] in every case; the schedule has
    [N] entries when it is built from a schedule family, and as many as
    [trained_betas] when that is given, whatever [N] is. *)
Theorem init_shapes (c : Config (num:=num)) (self : Scheduler (num:=num)) :
  init c = Ok self ->
  __len__ self = num_train_timesteps c
  /\ length (alphas self) = length (betas self)
  /\ length (alphas_cumprod self) = length (betas self)
  /\ length (sigmas self) = S (length (betas self))
  /\ last (sigmas self) (astype float32 fzero) = astype float32 fzero
  /\ timesteps self = IntTimesteps (rev (py_range (num_train_timesteps c)))
  /\ num_inference_steps self = PyNone
  /\ init_noise_sigma self = None
  /\ derivatives self = []
  /\ (trained_betas c = None ->
      Z.of_nat (length (betas self)) = num_train_timesteps c)
  /\ (forall d b, trained_betas c = Some (d, b) -> betas self = b).
Proof.
  intros Hi.
  pose proof cumprod_alphas_length as Hc.
  pose proof Hi as Hi'. unfold init, bind in Hi'.
  destruct (make_betas c) as [[d b]|e] eqn:Eb; [|discriminate Hi'].
  injection Hi' as <-. cbn [fst snd].
  unfold __len__.
  cbn [config alphas alphas_cumprod betas sigmas timesteps
         num_inference_steps init_noise_sigma derivatives].
  split; [reflexivity|]. split; [apply length_map|].
  split; [apply Hc|]. split.
  { rewrite length_map, length_app, length_rev.
    unfold sigmas_of_alphas_cumprod. rewrite length_map, Hc. simpl. lia. }
  split.
  { rewrite map_app. cbn [map]. apply last_last. }
  repeat (split; [reflexivity|]).
  split.
  - intros Ht. now apply (init_betas_length c _ Ht Hi).
  - intros d' b' Ht. unfold make_betas in Eb. rewrite Ht in Eb.
    now inversion Eb.
Qed.

End SchedulerMethodsGeneric.


(** ** The scheduler in exact arithmetic *)

Section SchedulerMethodsExact.

Local Open Scope R_scope.

(** X5. The two noise levels of an ancestral step split the variance of
    the next level: with [0 <= sigma_to <= sigma_from] and a positive
    [sigma_from], in exact arithmetic,
    [sigma_up ^ 2 + sigma_down ^ 2 = sigma_to ^ 2], the deterministic part
    is [sigma_down = sigma_to ^ 2 / sigma_from], and both lie between 0 and
    [sigma_to]. *)
Theorem ancestral_sigmas_split (sigma_from sigma_to : R) :
  0 <= sigma_to <= sigma_from ->
  0 < sigma_from ->
  let sigma_up := get_sigma_up (A:=Exact) sigma_from sigma_to in
  let sigma_down := get_sigma_down (A:=Exact) sigma_to sigma_up in
  sigma_up * sigma_up + sigma_down * sigma_down = sigma_to * sigma_to
  /\ sigma_down = sigma_to * sigma_to / sigma_from
  /\ 0 <= sigma_up <= sigma_to
  /\ 0 <= sigma_down <= sigma_to.
Proof.
  intros [H0 H1] Hf. cbv zeta.
  unfold get_sigma_down, get_sigma_up, fpow2.
  cbn [fsqrt fdiv fmul fsub Exact].
  set (u2 := sigma_to * sigma_to
             * (sigma_from * sigma_from - sigma_to * sigma_to)
             / (sigma_from * sigma_from)).
  assert (Hff : 0 < sigma_from * sigma_from) by nra.
  assert (Hu2 : 0 <= u2).
  { unfold u2, Rdiv. apply Rmult_le_pos.
    - apply Rmult_le_pos; nra.
    - left. now apply Rinv_0_lt_compat. }
  assert (Hsq : sqrt u2 * sqrt u2 = u2) by now apply sqrt_sqrt.
  rewrite Hsq.
  assert (Hd2 : sigma_to * sigma_to - u2
                = (sigma_to * sigma_to / sigma_from)
                  * (sigma_to * sigma_to / sigma_from)).
  { unfold u2. field. lra. }
  assert (Hq : 0 <= sigma_to * sigma_to / sigma_from).
  { unfold Rdiv. apply Rmult_le_pos; [nra|].
    left. now apply Rinv_0_lt_compat. }
  assert (Hdown : sqrt (sigma_to * sigma_to - u2)
                  = sigma_to * sigma_to / sigma_from).
  { rewrite Hd2. now apply sqrt_square. }
  rewrite Hdown.
  assert (Hqle : sigma_to * sigma_to / sigma_from <= sigma_to).
  { apply (Rmult_le_reg_r sigma_from); [exact Hf|].
    unfold Rdiv. rewrite Rmult_assoc, Rinv_l, Rmult_1_r by lra. nra. }
  assert (Hule : u2 <= sigma_to * sigma_to).
  { pose proof (Rle_0_sqr (sigma_to * sigma_to / sigma_from)) as Hs.
    unfold Rsqr in Hs. lra. }
  split; [lra|]. split; [reflexivity|]. split; [|lra].
  split; [apply sqrt_pos|].
  rewrite <- (sqrt_square sigma_to) by lra.
  now apply sqrt_le_1_alt.
Qed.

Lemma exact_timestep_bounds (n m : Z) (i : nat) :
  (1 <= n)%Z -> (1 <= m)%Z -> (Z.of_nat i < m)%Z ->
  0 <= exact_timestep n m i <= IZR (n - 1).
Proof.
  intros Hn Hm Hi. unfold exact_timestep.
  assert (Ha : 0 <= IZR (n - 1)) by (apply IZR_le; lia).
  destruct (m =? 1)%Z eqn:E; [lra|]. apply Z.eqb_neq in E.
  assert (Hb : 0 <= IZR (m - 1 - Z.of_nat i)) by (apply IZR_le; lia).
  assert (Hc : 0 < IZR (m - 1)) by (apply IZR_lt; lia).
  assert (Hbc : IZR (m - 1 - Z.of_nat i) <= IZR (m - 1)) by (apply IZR_le; lia).
  name_IZR. split.
  - unfold Rdiv. apply Rmult_le_pos; [apply Rmult_le_pos; lra|].
    left. now apply Rinv_0_lt_compat.
  - apply (Rmult_le_reg_r r1); [exact Hc|].
    unfold Rdiv. rewrite Rmult_assoc, Rinv_l, Rmult_1_r by lra. nra.
Qed.

Lemma exact_timesteps_bounds (n m : Z) :
  (1 <= n)%Z -> (1 <= m)%Z ->
  Forall (fun t => 0 <= t <= IZR (n - 1)) (exact_timesteps n m).
Proof.
  intros Hn Hm. unfold exact_timesteps. apply Forall_forall.
  intros t Ht. apply in_map_iff in Ht. destruct Ht as (i & <- & Hi).
  apply in_seq in Hi. apply exact_timestep_bounds; [exact Hn|exact Hm|lia].
Qed.

Lemma exact_timesteps_nonincreasing (n m : Z) :
  (1 <= n)%Z -> (1 <= m)%Z -> adjacent Rge (exact_timesteps n m).
Proof.
  intros Hn Hm. unfold exact_timesteps. apply adjacent_map_seq.
  intros i _ Hi. unfold exact_timestep.
  destruct (m =? 1)%Z eqn:E; [apply Z.eqb_eq in E; lia|].
  assert (Ha : 0 <= IZR (n - 1)) by (apply IZR_le; lia).
  assert (Hc : 0 < IZR (m - 1)) by (apply IZR_lt; lia).
  replace (m - 1 - Z.of_nat (S i))%Z with (m - 1 - Z.of_nat i - 1)%Z by lia.
  rewrite (minus_IZR (m - 1 - Z.of_nat i) 1).
  name_IZR. unfold Rge. apply Rle_ge.
  apply (Rmult_le_reg_r r1); [exact Hc|].
  unfold Rdiv. rewrite !Rmult_assoc, Rinv_l, !Rmult_1_r by lra. nra.
Qed.

Lemma exact_timesteps_strictly_decreasing (n m : Z) :
  (2 <= n)%Z -> (2 <= m)%Z -> adjacent Rgt (exact_timesteps n m).
Proof.
  intros Hn Hm. unfold exact_timesteps. apply adjacent_map_seq.
  intros i _ Hi. unfold exact_timestep.
  destruct (m =? 1)%Z eqn:E; [apply Z.eqb_eq in E; lia|].
  assert (Ha : 0 < IZR (n - 1)) by (apply IZR_lt; lia).
  assert (Hc : 0 < IZR (m - 1)) by (apply IZR_lt; lia).
  replace (m - 1 - Z.of_nat (S i))%Z with (m - 1 - Z.of_nat i - 1)%Z by lia.
  rewrite (minus_IZR (m - 1 - Z.of_nat i) 1).
  name_IZR. unfold Rgt.
  apply (Rmult_lt_reg_r r1); [exact Hc|].
  unfold Rdiv. rewrite !Rmult_assoc, Rinv_l, !Rmult_1_r by lra. nra.
Qed.

(** What [set_timesteps(m)] leaves behind in exact arithmetic, for every
    positive count. *)
Lemma set_timesteps_exact_any (self : Scheduler (num:=R)) (m : Z) :
  (1 <= m)%Z ->
  (1 <= num_train_timesteps (config self))%Z ->
  schedule_complete self ->
  let ts : list R :=
    exact_timesteps (num_train_timesteps (config self)) m in
  let table : list R :=
    sigmas_of_alphas_cumprod (betas_dtype self) (alphas_cumprod self) in
  let new_sigmas : list R :=
    map (exact_interpolate table) ts ++ [0] in
  set_timesteps self (PyInt m) PyNone
  = (Ok tt,
     with_derivatives
       (with_init_noise_sigma
          (with_sigmas
             (with_timesteps (with_num_inference_steps self (PyInt m))
                (FloatTimesteps ts))
             new_sigmas)
          (Some (hd 0 new_sigmas)))
       []).
Proof.
  intros Hm Hn Hc ts table new_sigmas. unfold set_timesteps.
  unfold self_num_train_timesteps.
  cbn [config with_num_inference_steps of_int Exact].
  rewrite (np_linspace_exact_timesteps _ m) by lia.
  fold ts.
  cbn [alphas_cumprod betas_dtype with_timesteps with_num_inference_steps].
  fold table.
  assert (Hlen : Z.of_nat (length table) = num_train_timesteps (config self)).
  { unfold table, sigmas_of_alphas_cumprod. rewrite length_map. exact Hc. }
  assert (Hr : Forall (fun t => 0 <= t <= IZR (num_train_timesteps (config self) - 1)) ts)
    by (apply exact_timesteps_bounds; assumption).
  rewrite (np_take_map table 0 (map floor_int ts)).
  2:{ apply Forall_forall. intros i Hi. apply in_map_iff in Hi.
      destruct Hi as (t & <- & Ht). rewrite Forall_forall in Hr.
      specialize (Hr t Ht). rewrite Hlen.
      pose proof (floor_range t 0 (num_train_timesteps (config self) - 1) Hr).
      cbn [floor_int Exact]. lia. }
  rewrite (np_take_map table 0 (map ceil_int ts)).
  2:{ apply Forall_forall. intros i Hi. apply in_map_iff in Hi.
      destruct Hi as (t & <- & Ht). rewrite Forall_forall in Hr.
      specialize (Hr t Ht). rewrite Hlen.
      pose proof (ceil_range t 0 (num_train_timesteps (config self) - 1) Hr).
      cbn [ceil_int Exact]. lia. }
  rewrite !map_map.
  rewrite (interpolate_map (betas_dtype self) fmod1
             (fun t => nth (Z.to_nat (floor_int t)) table 0)
             (fun t => nth (Z.to_nat (ceil_int t)) table 0) ts).
  assert (Hs : map (astype float32)
                 (map (fun x =>
                         fadd float64
                           (fmul float64 (fsub float64 (of_int float64 1) (fmod1 x))
                              (astype float64 (nth (Z.to_nat (floor_int x)) table 0)))
                           (fmul float64 (fmod1 x)
                              (astype float64 (nth (Z.to_nat (ceil_int x)) table 0))))
                    ts ++ [fzero])
               = new_sigmas).
  { unfold new_sigmas. rewrite map_app, map_map. reflexivity. }
  rewrite Hs.
  assert (H0 : py_index new_sigmas 0 = Ok (hd 0 new_sigmas)).
  { rewrite (py_index_nth new_sigmas 0 0).
    - destruct new_sigmas; reflexivity.
    - unfold new_sigmas. rewrite length_app. simpl. lia. }
  rewrite H0. reflexivity.
Qed.

Lemma ceil_cases (x : R) :
  (Real.ceil x = Real.floor x /\ x = IZR (Real.floor x))
  \/ (Real.ceil x = (Real.floor x + 1)%Z /\ IZR (Real.floor x) < x).
Proof.
  destruct (floor_spec x) as [F1 F2].
  destruct (Req_dec x (IZR (Real.floor x))) as [E|N].
  - left. split; [|exact E].
    assert (Hc : Real.ceil x = Real.ceil (IZR (Real.floor x)))
      by (f_equal; exact E).
    rewrite Hc. apply ceil_IZR.
  - right. split; [|lra]. unfold Real.ceil.
    assert (Hf : Real.floor (- x) = (- (Real.floor x + 1))%Z).
    { apply floor_unique. rewrite opp_IZR, plus_IZR. lra. }
    rewrite Hf. lia.
Qed.

Lemma exact_interpolate_between (table : list R) (n : Z) (t : R) :
  Z.of_nat (length table) = n ->
  adjacent Rle table ->
  0 <= t <= IZR (n - 1) ->
  nth (Z.to_nat (Real.floor t)) table 0 <= exact_interpolate table t
  /\ exact_interpolate table t <= nth (Z.to_nat (Real.ceil t)) table 0.
Proof.
  intros Hlen Hs Ht. unfold exact_interpolate.
  destruct (floor_spec t) as [F1 F2].
  pose proof (floor_range t 0 (n - 1) Ht) as Hf.
  pose proof (ceil_range t 0 (n - 1) Ht) as Hc.
  assert (Hfc : (Real.floor t <= Real.ceil t)%Z)
    by (destruct (ceil_cases t) as [[-> _]|[-> _]]; lia).
  assert (Hlh : nth (Z.to_nat (Real.floor t)) table 0
                <= nth (Z.to_nat (Real.ceil t)) table 0)
    by (apply adjacent_le_nth; [exact Hs|lia]).
  set (f := t - IZR (Real.floor t)) in *.
  set (lo := nth (Z.to_nat (Real.floor t)) table 0) in *.
  set (hi := nth (Z.to_nat (Real.ceil t)) table 0) in *.
  assert (Hf0 : 0 <= f <= 1) by (unfold f; lra).
  split; nra.
Qed.

Lemma exact_interpolate_monotone (table : list R) (n : Z) (t1 t2 : R) :
  Z.of_nat (length table) = n ->
  adjacent Rle table ->
  0 <= t1 -> t1 <= t2 -> t2 <= IZR (n - 1) ->
  exact_interpolate table t1 <= exact_interpolate table t2.
Proof.
  intros Hlen Hs H0 H12 Hn.
  assert (Hr1 : 0 <= t1 <= IZR (n - 1)) by lra.
  assert (Hr2 : 0 <= t2 <= IZR (n - 1)) by lra.
  destruct (exact_interpolate_between table n t1 Hlen Hs Hr1) as [L1 U1].
  destruct (exact_interpolate_between table n t2 Hlen Hs Hr2) as [L2 U2].
  destruct (floor_spec t1) as [F1 G1]. destruct (floor_spec t2) as [F2 G2].
  pose proof (floor_range t1 0 (n - 1) Hr1) as Hf1.
  pose proof (floor_range t2 0 (n - 1) Hr2) as Hf2.
  pose proof (ceil_range t1 0 (n - 1) Hr1) as Hc1.
  assert (Hk : (Real.floor t1 <= Real.floor t2)%Z).
  { assert (Real.floor t1 < Real.floor t2 + 1)%Z
      by (apply lt_IZR; rewrite plus_IZR; lra).
    lia. }
  destruct (Z.eq_dec (Real.floor t1) (Real.floor t2)) as [Heq|Hne].
  - destruct (ceil_cases t1) as [[C1 E1]|[C1 E1]].
    + apply Rle_trans with (nth (Z.to_nat (Real.floor t2)) table 0);
        [|exact L2].
      rewrite <- Heq. unfold exact_interpolate. rewrite C1.
      rewrite <- E1. apply Req_le. ring.
    + destruct (ceil_cases t2) as [[C2 E2]|[C2 E2]].
      * rewrite <- Heq in E2. lra.
      * unfold exact_interpolate. rewrite C1, C2, <- Heq.
        assert (Hlh : nth (Z.to_nat (Real.floor t1)) table 0
                      <= nth (Z.to_nat (Real.floor t1 + 1)) table 0).
        { apply adjacent_le_nth; [exact Hs|]. rewrite C1 in Hc1. lia. }
        set (lo := nth (Z.to_nat (Real.floor t1)) table 0) in *.
        set (hi := nth (Z.to_nat (Real.floor t1 + 1)) table 0) in *.
        nra.
  - apply Rle_trans with (nth (Z.to_nat (Real.ceil t1)) table 0);
      [exact U1|].
    apply Rle_trans with (nth (Z.to_nat (Real.floor t2)) table 0);
      [|exact L2].
    apply adjacent_le_nth; [exact Hs|].
    destruct (ceil_cases t1) as [[-> _]|[-> _]]; lia.
Qed.

Lemma inference_sigmas_monotone (table : list R) (n m : Z) :
  (1 <= n)%Z -> (1 <= m)%Z ->
  Z.of_nat (length table) = n ->
  adjacent Rle table ->
  Forall (fun x => 0 <= x) table ->
  adjacent (fun x y => y <= x)
    (map (exact_interpolate table) (exact_timesteps n m) ++ [0])
  /\ Forall (fun x => 0 <= x)
       (map (exact_interpolate table) (exact_timesteps n m) ++ [0]).
Proof.
  intros Hn Hm Hlen Hs Hp.
  pose proof (exact_timesteps_bounds n m Hn Hm) as Hb.
  assert (Hpos : Forall (fun x => 0 <= x)
                   (map (exact_interpolate table) (exact_timesteps n m))).
  { apply Forall_forall. intros x Hx. apply in_map_iff in Hx.
    destruct Hx as (t & <- & Ht). rewrite Forall_forall in Hb.
    specialize (Hb t Ht).
    destruct (exact_interpolate_between table n t Hlen Hs Hb) as [L _].
    apply Rle_trans with (nth (Z.to_nat (Real.floor t)) table 0); [|exact L].
    rewrite Forall_forall in Hp. apply Hp. apply nth_In.
    pose proof (floor_range t 0 (n - 1) Hb). lia. }
  split.
  - apply (adjacent_app_one _ _ _ 0).
    + apply (adjacent_map (fun t => 0 <= t <= IZR (n - 1)) Rge);
        [|exact Hb|now apply exact_timesteps_nonincreasing].
      intros x y Hx Hy Hxy.
      apply (exact_interpolate_monotone table n); try assumption; lra.
    + intros _. now apply last_nonneg.
  - apply Forall_app. split; [exact Hpos|]. constructor; [lra|constructor].
Qed.

(** X6. In exact arithmetic, for every count [m >= 1] - it may exceed the
    number [N >= 1] of training steps - [set_timesteps(m)] returns with [m]
    timesteps inside [[0, N - 1]], the first one [N - 1], and [m + 1]
    sigmas ending with the sentinel; for [m >= 2] the last timestep is 0
    and, when [N >= 2], the timesteps strictly decrease.  When the training
    sigmas do not decrease with the timestep, the sigmas of the run are
    non-negative and never increase from one step to the next. *)
Theorem set_timesteps_any_count (self : Scheduler (num:=R)) (m : Z) :
  (1 <= m)%Z ->
  (1 <= num_train_timesteps (config self))%Z ->
  schedule_complete self ->
  let r := set_timesteps self (PyInt m) PyNone in
  fst r = Ok tt
  /\ (exists ts : list R,
        timesteps (snd r) = FloatTimesteps ts
        /\ Z.of_nat (length ts) = m
        /\ Forall (fun t => 0 <= t <= IZR (num_train_timesteps (config self) - 1))
             ts
        /\ hd 0 ts = IZR (num_train_timesteps (config self) - 1)
        /\ ((2 <= m)%Z -> last ts 1 = 0)
        /\ ((2 <= m)%Z -> (2 <= num_train_timesteps (config self))%Z ->
            adjacent Rgt ts))
  /\ Z.of_nat (length (sigmas (snd r))) = (m + 1)%Z
  /\ last (sigmas (snd r)) 1 = 0
  /\ (adjacent Rle
        (sigmas_of_alphas_cumprod (betas_dtype self) (alphas_cumprod self)) ->
      adjacent (fun x y => y <= x) (sigmas (snd r))
      /\ Forall (fun x => 0 <= x) (sigmas (snd r))).
Proof.
  intros Hm Hn Hc. cbv zeta.
  rewrite (set_timesteps_exact_any self m Hm Hn Hc).
  cbn [fst snd timesteps sigmas with_derivatives with_init_noise_sigma
         with_sigmas with_timesteps].
  set (n := num_train_timesteps (config self)) in *.
  set (table := sigmas_of_alphas_cumprod (betas_dtype self) (alphas_cumprod self)).
  assert (Hlen : Z.of_nat (length table) = n).
  { unfold table, sigmas_of_alphas_cumprod. rewrite length_map. exact Hc. }
  split; [reflexivity|]. split.
  { exists (exact_timesteps n m). split; [reflexivity|].
    split; [unfold exact_timesteps; rewrite length_map, length_seq; lia|].
    split; [now apply exact_timesteps_bounds|].
    split.
    { unfold exact_timesteps. destruct (Z.to_nat m) as [|k] eqn:Ek; [lia|].
      rewrite <- cons_seq. cbn [map hd]. now apply exact_first_timestep. }
    split.
    - intros H2. now apply exact_timesteps_ends.
    - intros H2 Hn2. now apply exact_timesteps_strictly_decreasing. }
  split.
  { rewrite length_app, length_map. unfold exact_timesteps.
    rewrite length_map, length_seq. simpl. lia. }
  split; [apply last_last|].
  intros Hs. apply (inference_sigmas_monotone table n m); try assumption.
  apply sigma_table_nonneg.
Qed.





Lemma map_astype_exact (d : dtype) (l : list R) :
  map (@astype R Exact d) l = l.
Proof.
  induction l as [|x l IH]; [reflexivity|]. cbn [map]. rewrite IH. reflexivity.
Qed.





(** X8. Explicit [trained_betas] with fewer entries than
    [num_train_timesteps] build an instance on which no run can be
    prepared: in exact arithmetic every [set_timesteps(m)] with [m >= 1]
    raises [IndexError] at the first timestep [N - 1], after the count and
    the timesteps have been stored; sigmas, [init_noise_sigma] and
    derivatives keep their values.  The timesteps are left as a NumPy
    array, so that [add_noise] raises [AttributeError] afterwards. *)
Theorem set_timesteps_short_trained_betas (c : Config (num:=R)) (d : dtype)
        (b : list R) (self : Scheduler (num:=R)) (m : Z) :
  trained_betas c = Some (d, b) ->
  init c = Ok self ->
  (Z.of_nat (length b) < num_train_timesteps c)%Z ->
  (1 <= m)%Z ->
  set_timesteps self (PyInt m) PyNone
  = (Raise IndexError,
     with_timesteps (with_num_inference_steps self (PyInt m))
       (FloatTimesteps (exact_timesteps (num_train_timesteps c) m)))
  /\ (forall h, set_timesteps_holder self (PyInt m) h = NumpyArray)
  /\ (forall h d' original_samples noise timesteps,
        fst (add_noise (snd (set_timesteps self (PyInt m) PyNone))
               (set_timesteps_holder self (PyInt m) h) d' original_samples
               noise timesteps)
        = RaiseAttributeError).
Proof.
  intros Ht Hi Hl Hm.
  destruct (init_trained_betas c d b self Ht Hi) as [Hcfg Hlen].
  assert (Hfirst : forall k,
             np_take
               (sigmas_of_alphas_cumprod (betas_dtype self)
                  (alphas_cumprod self))
               (map floor_int
                  (map (exact_timestep (num_train_timesteps c) m)
                     (0%nat :: seq 1 k)))
             = Raise IndexError).
  { intros k. cbn [map np_take].
    rewrite exact_first_timestep by exact Hm.
    cbn [floor_int Exact]. rewrite floor_IZR.
    rewrite py_index_out_of_range; [reflexivity|].
    right. unfold sigmas_of_alphas_cumprod. rewrite length_map, Hlen. lia. }
  assert (Hh : forall h, set_timesteps_holder self (PyInt m) h = NumpyArray).
  { intros h. unfold set_timesteps_holder, self_num_train_timesteps.
    cbn [of_int Exact]. rewrite Hcfg.
    rewrite (np_linspace_exact_timesteps _ m) by lia.
    unfold exact_timesteps.
    destruct (Z.to_nat m) as [|k] eqn:Ek; [lia|].
    rewrite <- cons_seq. cbv zeta. now rewrite Hfirst. }
  split; [|split; [exact Hh|]].
  - unfold set_timesteps, self_num_train_timesteps.
    cbn [config with_num_inference_steps of_int Exact]. rewrite Hcfg.
    rewrite (np_linspace_exact_timesteps _ m) by lia.
    cbn [alphas_cumprod betas_dtype with_timesteps with_num_inference_steps].
    unfold exact_timesteps at 1.
    destruct (Z.to_nat m) as [|k] eqn:Ek; [lia|].
    rewrite <- cons_seq. now rewrite Hfirst.
  - intros h d' x n t. rewrite Hh. reflexivity.
Qed.

End SchedulerMethodsExact.


(** ** [add_noise] and [scale_model_input] *)

Section NoiseAndScaling.

Context {num : Type} {A : Arith num}.

Lemma np_take_error {T : Type} (a : list T) (idx : list Z) e :
  np_take a idx = Raise e -> e = IndexError.
Proof.
  induction idx as [|i idx IH]; simpl; [discriminate|].
  destruct (py_index a i) as [x|e'] eqn:Ei; unfold bind at 1.
  - destruct (np_take a idx) as [xs|e'']; unfold bind; [discriminate|].
    intros H. injection H as <-. now apply IH.
  - intros H. injection H as <-. now apply (py_index_error a i).
Qed.

Lemma np_take_out_of_range {T : Type} (a : list T) (idx : list Z) :
  (exists t, In t idx
             /\ (t < - Z.of_nat (length a) \/ Z.of_nat (length a) <= t)) ->
  np_take a idx = Raise IndexError.
Proof.
  intros (t & Hin & Ht).
  destruct (np_take a idx) as [l|e] eqn:E.
  - exfalso. revert l E. induction idx as [|i idx IH]; intros l E;
      [destruct Hin|].
    simpl in E. destruct (py_index a i) as [x|e'] eqn:Ei; [|discriminate E].
    unfold bind at 1 in E.
    destruct (np_take a idx) as [xs|e''] eqn:Ex; [|discriminate E].
    destruct Hin as [->|Hin].
    + rewrite (py_index_out_of_range a t Ht) in Ei. discriminate Ei.
    + now apply (IH Hin xs).
  - now rewrite (np_take_error a idx e E).
Qed.

Lemma np_take_in_range {T : Type} (a : list T) (idx : list Z) :
  Forall (fun t => - Z.of_nat (length a) <= t < Z.of_nat (length a)) idx ->
  exists l, np_take a idx = Ok l /\ length l = length idx.
Proof.
  induction 1 as [|i idx Hi _ (l & Hl & Hn)]; simpl; [now exists []|].
  destruct (py_index_in_range a i Hi) as [x Hx].
  rewrite Hx, Hl. unfold bind. exists (x :: l). simpl. now rewrite Hn.
Qed.

Lemma zip_rows_ok {X Y Z : Type} (f : X -> Y -> result Z) (P : X -> Z -> Prop)
      (a : list X) : forall (b : list Y),
  length a = length b ->
  Forall2 (fun x y => exists z, f x y = Ok z /\ P x z) a b ->
  exists out, zip_rows f a b = Ok out /\ Forall2 P a out.
Proof.
  induction a as [|x a IH]; intros [|y b] Hl H; simpl in Hl;
    try discriminate Hl.
  - exists []. split; [reflexivity|constructor].
  - inversion H as [|? ? ? ? (z & Hz & Pz) Hr]; subst.
    destruct (IH b) as (out & Ho & Po); [congruence|exact Hr|].
    exists (z :: out). simpl. rewrite Hz, Ho. unfold bind.
    split; [reflexivity|now constructor].
Qed.

(** X9. [add_noise] first stores [self.sigmas] converted to the dtype of
    the samples, and keeps that change also when it raises.  On an instance
    whose timesteps are a NumPy array it raises [AttributeError].  Otherwise
    it raises [IndexError] when some entry of [timesteps] is not an index of
    [self.sigmas]; with one valid index per sample and noise of the
    samples' shapes it returns a batch of the same shapes. *)
Theorem add_noise_indexing (self : Scheduler (num:=num)) (d : dtype)
        (original_samples noise : list (list num)) (timesteps : list Z) :
  (forall h,
      snd (add_noise self h d original_samples noise timesteps)
      = with_sigmas self (map (astype d) (sigmas self)))
  /\ fst (add_noise self NumpyArray d original_samples noise timesteps)
     = RaiseAttributeError
  /\ ((exists t, In t timesteps
                 /\ (t < - Z.of_nat (length (sigmas self))
                     \/ Z.of_nat (length (sigmas self)) <= t)) ->
      fst (add_noise self TorchTensor d original_samples noise timesteps)
      = Outcome (Raise IndexError))
  /\ (Forall (fun t => - Z.of_nat (length (sigmas self)) <= t
                       < Z.of_nat (length (sigmas self))) timesteps ->
      length timesteps = length original_samples ->
      Forall2 (fun x n => length n = length x) original_samples noise ->
      exists out,
        fst (add_noise self TorchTensor d original_samples noise timesteps)
        = Outcome (Ok out)
        /\ Forall2 (fun x o => length o = length x) original_samples out).
Proof.
  unfold add_noise. cbn [sigmas with_sigmas].
  split; [intros [|]; [destruct (np_take _ timesteps)|]; reflexivity|].
  split; [reflexivity|].
  split.
  - intros (t & Hin & Ht).
    rewrite np_take_out_of_range; [reflexivity|].
    exists t. split; [exact Hin|]. now rewrite length_map.
  - intros Hr Hl Hn.
    destruct (np_take_in_range (map (astype d) (sigmas self)) timesteps)
      as (sigma & Hs & Hsl).
    { now rewrite length_map. }
    rewrite Hs. cbn [fst].
    assert (Hln : length noise = length original_samples)
      by (symmetry; apply (Forall2_length Hn)).
    unfold broadcast_rows at 1.
    replace (Nat.eqb (length noise) (length sigma)) with true
      by (symmetry; apply Nat.eqb_eq; congruence).
    destruct (zip_rows_ok
                (fun n s => Ok (map (fun x => fmul d x s) n))
                (fun n z => length z = length n) noise sigma)
      as (scaled & Hz & Pz).
    { congruence. }
    { clear - Hln Hsl Hl. assert (Hls : length noise = length sigma) by congruence.
      clear Hln Hsl Hl. revert sigma Hls.
      induction noise as [|n noise IH]; intros [|s sigma] Hls;
        simpl in Hls; try discriminate Hls; constructor.
      - eexists. split; [reflexivity|]. apply length_map.
      - apply IH. congruence. }
    rewrite Hz. unfold bind at 1.
    assert (Hlsc : length scaled = length noise)
      by (symmetry; apply (Forall2_length Pz)).
    unfold broadcast_rows.
    match goal with
    | |- context [Nat.eqb ?a ?b] =>
        replace (Nat.eqb a b) with true
          by (symmetry; apply Nat.eqb_eq;
              exact (eq_trans (eq_sym Hln) (eq_sym Hlsc)))
    end.
    destruct (zip_rows_ok (broadcast2 (fadd d))
                (fun x o => length o = length x) original_samples scaled)
      as (out & Ho & Po);
      [exact (eq_trans (eq_sym Hln) (eq_sym Hlsc))| |].
    { clear - Hn Pz. revert noise scaled Hn Pz.
      induction original_samples as [|x xs IH]; intros noise scaled Hn Pz.
      - inversion Hn; subst. inversion Pz; subst. constructor.
      - inversion Hn as [|? n ? ns Hxn Hr]; subst.
        inversion Pz as [|? z ? zs Hnz Hrz]; subst.
        constructor; [|now apply (IH ns)].
        exists (map2 (fadd d) x z). split.
        + apply broadcast2_same_length. congruence.
        + apply map2_length. congruence. }
    exists out. rewrite Ho. split; [reflexivity|exact Po].
Qed.

End NoiseAndScaling.

Section NoiseAndScalingExact.

Local Open Scope R_scope.

Lemma round_trip_update (sigma : R) : forall x0 noise : list R,
  length noise = length x0 ->
  map2 (num:=R) Rplus
    (map2 (num:=R) Rplus x0 (map (fun n => n * sigma) noise))
    (map (fun x => x * (0 - sigma)) noise)
  = x0.
Proof.
  induction x0 as [|x x0 IH]; intros [|n noise] Hl; simpl in *;
    try discriminate Hl; [reflexivity|].
  f_equal; [ring|apply IH; congruence].
Qed.

Lemma draws_times_zero (prev : list R) : forall draws : list R,
  length draws = length prev ->
  map2 (num:=R) Rplus prev (map (fun n => n * 0) draws) = prev.
Proof.
  induction prev as [|x prev IH]; intros [|n draws] Hl; simpl in *;
    try discriminate Hl; [reflexivity|].
  f_equal; [ring|apply IH; congruence].
Qed.

Lemma exact_sigma_up_terminal (sigma : R) :
  get_sigma_up (A:=Exact) sigma 0 = 0
  /\ get_sigma_down (A:=Exact) 0 (get_sigma_up (A:=Exact) sigma 0) = 0.
Proof.
  assert (Hu : get_sigma_up (A:=Exact) sigma 0 = 0).
  { unfold get_sigma_up, fpow2. cbn [fsqrt fdiv fmul fsub Exact].
    replace (0 * 0 * (sigma * sigma - 0 * 0) / (sigma * sigma)) with 0
      by (unfold Rdiv; ring).
    apply sqrt_0. }
  split; [exact Hu|]. rewrite Hu.
  unfold get_sigma_down, fpow2. cbn [fsqrt fdiv fmul fsub Exact].
  replace (0 * 0 - 0 * 0) with 0 by ring. apply sqrt_0.
Qed.

(** X10. Noising and the last step of a run are inverse to each other in
    exact arithmetic: if [sample] is what [add_noise] makes of [x0] with the
    noise [noise] at an index whose sigma is not zero and whose next sigma
    is the sentinel, then [step] at that index with [model_output = noise]
    returns [x0] as [prev_sample], whatever the random draws. *)
Theorem add_noise_terminal_step_round_trip (self : Scheduler (num:=R))
        (g : Generator (num:=R)) (x0 noise : list R)
        (timestep : R) (step_index : Z) (sigma : R) (return_dict : bool) :
  length noise = length x0 ->
  py_index (sigmas self) step_index = Ok sigma ->
  sigma <> 0 ->
  py_index (sigmas self) (step_index + 1) = Ok 0 ->
  exists sample,
    fst (add_noise self TorchTensor float32 [x0] [noise] [step_index])
    = Outcome (Ok [sample])
    /\ sample = map2 (num:=R) Rplus x0 (map (fun n => n * sigma) noise)
    /\ exists out,
        fst (fst (step (snd (add_noise self TorchTensor float32 [x0] [noise]
                                 [step_index])) g
                    noise timestep step_index sample return_dict))
        = Ok out
        /\ prev_sample out = x0.
Proof.
  intros Hl Hi Hs Hn.
  set (sample := map2 (num:=R) Rplus x0 (map (fun n => n * sigma) noise)).
  assert (Lsample : length sample = length x0)
    by (apply map2_length; now rewrite length_map).
  exists sample.
  assert (Hadd : add_noise self TorchTensor float32 [x0] [noise] [step_index]
                 = (Outcome (Ok [sample]),
                    with_sigmas self (map (astype float32) (sigmas self)))).
  { unfold add_noise. cbn [sigmas with_sigmas np_take].
    rewrite map_astype_exact, Hi. unfold bind at 1. unfold bind at 1.
    unfold broadcast_rows. cbn [length Nat.eqb zip_rows].
    unfold bind at 2. unfold bind at 2. unfold bind at 1.
    cbn [zip_rows]. cbn [fmul fadd Exact].
    rewrite broadcast2_same_length by now rewrite length_map.
    reflexivity. }
  rewrite Hadd. cbn [fst snd].
  split; [reflexivity|]. split; [reflexivity|].
  set (self' := with_sigmas self (map (astype float32) (sigmas self))).
  assert (Hsg : sigmas self' = sigmas self)
    by (unfold self'; cbn [sigmas with_sigmas]; apply map_astype_exact).
  destruct (exact_sigma_up_terminal sigma) as [Hup Hdown].
  assert (Hd : step_derivative self' noise step_index sample
               = Ok (sigma, 0, 0, noise)).
  { rewrite (step_derivative_sigmas self' self _ _ _ Hsg).
    unfold step_derivative. rewrite Hi, Hn. unfold bind.
    assert (Lm : length sample = length (map (fmul float32 sigma) noise))
      by (rewrite length_map, Lsample; symmetry; exact Hl).
    rewrite broadcast2_same_length by exact Lm.
    rewrite broadcast2_same_length
      by (rewrite map2_length; [reflexivity|exact Lm]).
    rewrite Hdown, Hup. do 2 f_equal.
    cbn [fsub fmul fdiv Exact].
    apply exact_derivative; [exact Hs|].
    rewrite Lsample. exact Hl. }
  unfold step. rewrite Hd. unfold euler_update.
  rewrite broadcast2_same_length
    by (rewrite length_map, Lsample; symmetry; exact Hl).
  cbn [fsub fmul fadd Exact].
  unfold sample at 1. rewrite round_trip_update by exact Hl.
  unfold add_ancestral_noise, randn_like. cbn [fmul fadd Exact].
  rewrite draws_times_zero by now rewrite length_map, length_seq.
  destruct (negb return_dict); eexists; split; reflexivity.
Qed.

Lemma noised_update (sigma sigma_down : R) : forall x0 eps : list R,
  length eps = length x0 ->
  map2 (num:=R) Rplus
    (map2 (num:=R) Rplus x0 (map (fun e => e * sigma) eps))
    (map (fun x => x * (sigma_down - sigma)) eps)
  = map2 (num:=R) Rplus x0 (map (fun e => e * sigma_down) eps).
Proof.
  induction x0 as [|x x0 IH]; intros [|e eps] Hl; simpl in *;
    try discriminate Hl; [reflexivity|].
  f_equal; [ring|apply IH; congruence].
Qed.

(** X11. One step takes a sample of noise level [sigma] to a sample of the
    next noise level, in exact arithmetic: if the sample is
    [x0 + sigma * eps] and the model predicts [eps], with [sigma] not zero,
    then [prev_sample] is [x0 + sigma_down * eps + sigma_up * z] for the
    fresh draws [z] - the predicted noise scaled down to [sigma_down], and
    new noise of level [sigma_up]. *)
Theorem step_on_noised_sample (self : Scheduler (num:=R))
        (g : Generator (num:=R)) (x0 eps : list R) (timestep : R)
        (step_index : Z) (sigma sigma_to : R) (return_dict : bool) :
  length eps = length x0 ->
  py_index (sigmas self) step_index = Ok sigma ->
  sigma <> 0 ->
  py_index (sigmas self) (step_index + 1)%Z = Ok sigma_to ->
  let sigma_up := get_sigma_up (A:=Exact) sigma sigma_to in
  let sigma_down := get_sigma_down (A:=Exact) sigma_to sigma_up in
  exists out,
    fst (fst (step self g eps timestep step_index
                (map2 (num:=R) Rplus x0 (map (fun e => e * sigma) eps))
                return_dict))
    = Ok out
    /\ prev_sample out
       = map2 (num:=R) Rplus
           (map2 (num:=R) Rplus x0 (map (fun e => e * sigma_down) eps))
           (map (fun z => z * sigma_up) (map g (seq 0 (length x0)))).
Proof.
  intros Hl Hi Hs Hn sigma_up sigma_down.
  set (sample := map2 (num:=R) Rplus x0 (map (fun e => e * sigma) eps)).
  assert (Lsample : length sample = length x0)
    by (apply map2_length; now rewrite length_map).
  assert (Hd : step_derivative self eps step_index sample
               = Ok (sigma, sigma_up, sigma_down, eps)).
  { unfold step_derivative. rewrite Hi, Hn. unfold bind.
    assert (Lm : length sample = length (map (fmul float32 sigma) eps))
      by (rewrite length_map, Lsample; symmetry; exact Hl).
    rewrite broadcast2_same_length by exact Lm.
    rewrite broadcast2_same_length
      by (rewrite map2_length; [reflexivity|exact Lm]).
    fold sigma_up. fold sigma_down. do 2 f_equal.
    cbn [fsub fmul fdiv Exact].
    apply exact_derivative; [exact Hs|].
    rewrite Lsample. exact Hl. }
  unfold step. rewrite Hd. unfold euler_update.
  rewrite broadcast2_same_length
    by (rewrite length_map, Lsample; symmetry; exact Hl).
  cbn [fsub fmul fadd Exact].
  unfold sample at 1. rewrite noised_update by exact Hl.
  unfold add_ancestral_noise, randn_like. cbn [fmul fadd Exact].
  rewrite map2_length by (rewrite length_map; symmetry; exact Hl).
  destruct (negb return_dict); eexists; split; reflexivity.
Qed.



End NoiseAndScalingExact.

Section NoiseIEEE.

Lemma py_index_map {X Y : Type} (f : X -> Y) (l : list X) (i : Z) :
  py_index (map f l) i
  = match py_index l i with
    | Ok x => Ok (f x)
    | Raise e => Raise e
    end.
Proof.
  unfold py_index. rewrite length_map.
  destruct (_ && _); [|reflexivity].
  rewrite nth_error_map. now destruct (nth_error l _).
Qed.

(** X13. Noising at an index whose sigma is zero - the sentinel that ends
    every schedule - adds nothing: for float32 samples and finite noise of
    the sample's shape, [add_noise] returns the sample, numerically. *)
Theorem add_noise_at_sentinel (self : Scheduler (num:=spec_float))
        (sample noise : list spec_float) (index : Z) (sigma : spec_float) :
  length noise = length sample ->
  py_index (sigmas self) index = Ok sigma ->
  IEEE754.is_zero sigma = true ->
  Forall (fun n => IEEE754.is_finite n = true) noise ->
  exists out,
    fst (add_noise self TorchTensor float32 [sample] [noise] [index])
    = Outcome (Ok [out])
    /\ IEEE754.tensor_eq out sample.
Proof.
  intros Hl Hi Hz Hn. unfold add_noise.
  cbn [sigmas with_sigmas np_take]. rewrite py_index_map, Hi.
  destruct sigma as [s| | |]; try discriminate Hz.
  cbn [astype IEEE IEEE754.round_to bind].
  unfold broadcast_rows. cbn [length Nat.eqb zip_rows bind fst].
  rewrite broadcast2_same_length by now rewrite length_map.
  eexists. split; [reflexivity|].
  cbn [fadd fmul IEEE IEEE754.prec IEEE754.emax].
  apply map2_add_zeros; [now rewrite length_map|].
  now apply noise_times_zero.
Qed.

End NoiseIEEE.


(** * Further properties of perturbed-attention guidance *)

Section PAGScale.

Lemma get_pag_scale_exact (self : PAGMixin (num:=R)) (t : R) :
  ((_pag_adaptive_scaling self <= 0)%R ->
   _get_pag_scale self t = _pag_scale self)
  /\ ((0 < _pag_adaptive_scaling self)%R ->
      _get_pag_scale self t
      = Rmax 0 (_pag_scale self - _pag_adaptive_scaling self * (1000 - t))).
Proof.
  unfold _get_pag_scale, do_pag_adaptive_scaling.
  cbn [fltb fsub fmul of_int Exact]. unfold Real.ltb.
  split; intros Ha.
  - destruct (Rlt_dec 0 (_pag_adaptive_scaling self)) as [H|H];
      [lra|reflexivity].
  - destruct (Rlt_dec 0 (_pag_adaptive_scaling self)) as [H|H]; [|lra].
    destruct (Rlt_dec _ 0) as [Hn|Hn].
    + rewrite Rmax_left by lra. reflexivity.
    + rewrite Rmax_right by lra. reflexivity.
Qed.

(** X14. The adaptive PAG scale.  Without adaptive scaling
    ([_pag_adaptive_scaling <= 0]) [_get_pag_scale] is [_pag_scale] at every
    timestep.  With it, in exact arithmetic, the scale is
    [max(0, _pag_scale - _pag_adaptive_scaling * (1000 - t))]: never
    negative, never above a non-negative [_pag_scale] for [t <= 1000], and
    not increasing as [t] goes down.  In the floats of the code the
    adaptive scale is never below zero either. *)
Theorem get_pag_scale_clamped :
  (forall (self : PAGMixin (num:=R)) (t : R),
      ((_pag_adaptive_scaling self <= 0)%R ->
       _get_pag_scale self t = _pag_scale self)
      /\ ((0 < _pag_adaptive_scaling self)%R ->
          (0 <= _get_pag_scale self t)%R
          /\ ((t <= 1000)%R -> (0 <= _pag_scale self)%R ->
              (_get_pag_scale self t <= _pag_scale self)%R)
          /\ (forall t' : R, (t' <= t)%R ->
                (_get_pag_scale self t' <= _get_pag_scale self t)%R)))
  /\
  (forall (self : PAGMixin (num:=spec_float)) (t : spec_float),
      do_pag_adaptive_scaling self = true ->
      SFltb (_get_pag_scale self t) (S754_zero false) = false).
Proof.
  split.
  - intros self t. split; [apply get_pag_scale_exact|].
    intros Ha.
    rewrite (proj2 (get_pag_scale_exact self t) Ha).
    split; [apply Rmax_l|]. split.
    + intros Ht Hs. apply Rmax_lub; [exact Hs|]. nra.
    + intros t' Ht.
      rewrite (proj2 (get_pag_scale_exact self t') Ha).
      apply Rmax_lub; [apply Rmax_l|].
      eapply Rle_trans; [|apply Rmax_r]. nra.
  - intros self t Ha. unfold _get_pag_scale. rewrite Ha.
    cbn [fltb fsub fmul of_int IEEE].
    change (IEEE754.of_Z float64 0) with (S754_zero false).
    match goal with
    | |- SFltb (if SFltb ?s _ then _ else _) _ = false => set (signal := s)
    end.
    destruct (SFltb signal (S754_zero false)) eqn:E; [reflexivity|exact E].
Qed.

End PAGScale.

Section PAGCombiner.

Context {num : Type} {A : Arith num}.

Lemma pag_without_cfg_closed_form (self : PAGMixin (num:=num))
      (guidance_scale t : num) (uncond perturb : list num) :
  length uncond = length perturb ->
  _apply_perturbed_attention_guidance self (uncond ++ perturb) false
    guidance_scale t
  = Ok (map2 (fadd float32) uncond
          (map (fmul float32 (astype float32 (_get_pag_scale self t)))
             (map2 (fsub float32) uncond perturb))).
Proof.
  intros Hl. unfold _apply_perturbed_attention_guidance.
  rewrite chunk_pair by exact Hl.
  rewrite broadcast2_same_length by exact Hl. unfold bind.
  apply broadcast2_same_length.
  rewrite length_map. symmetry. now apply map2_length.
Qed.

End PAGCombiner.

(** X15. Perturbed-attention guidance without classifier-free guidance:
    on two halves of one shape the result is
    [uncond + pag_scale * (uncond - perturb)], whatever [guidance_scale]
    is; with PAG weight zero and a finite difference of the halves it is
    numerically the unperturbed half.  A prediction that [chunk] cannot
    cut into the expected number of pieces is rejected when the pieces are
    unpacked ([ValueError]): one element in either mode, and one, two or
    four elements along the batch under classifier-free guidance. *)
Theorem pag_without_cfg :
  (forall (num : Type) (A : Arith num) (self : PAGMixin (num:=num))
          (guidance_scale t : num) (uncond perturb : list num),
      length uncond = length perturb ->
      _apply_perturbed_attention_guidance self (uncond ++ perturb) false
        guidance_scale t
      = Ok (map2 (@fadd num A float32) uncond
              (map (@fmul num A float32
                      (@astype num A float32 (_get_pag_scale self t)))
                 (map2 (@fsub num A float32) uncond perturb))))
  /\
  (forall (self : PAGMixin (num:=spec_float))
          (guidance_scale t : spec_float) (uncond perturb : list spec_float),
      do_pag_adaptive_scaling self = false ->
      IEEE754.is_zero (_pag_scale self) = true ->
      length uncond = length perturb ->
      Forall (fun d => IEEE754.is_finite d = true)
             (map2 (num:=spec_float) (SFsub 24 128) uncond perturb) ->
      exists r,
        _apply_perturbed_attention_guidance self (uncond ++ perturb) false
          guidance_scale t = Ok r
        /\ IEEE754.tensor_eq r uncond)
  /\
  (forall (num : Type) (A : Arith num) (self : PAGMixin (num:=num))
          (guidance_scale t : num) (noise_pred : list num),
      (length noise_pred = 1%nat ->
       forall cfg,
         _apply_perturbed_attention_guidance self noise_pred cfg
           guidance_scale t = Raise ValueError)
      /\ (length noise_pred = 2%nat \/ length noise_pred = 4%nat ->
          _apply_perturbed_attention_guidance self noise_pred true
            guidance_scale t = Raise ValueError)).
Proof.
  split; [|split].
  - intros num A self gs t u p Hl.
    now apply pag_without_cfg_closed_form.
  - intros self gs t u p Ha Hz Hl Hd.
    rewrite pag_without_cfg_closed_form by exact Hl.
    eexists. split; [reflexivity|].
    unfold _get_pag_scale. rewrite Ha.
    destruct (_pag_scale self) as [sz| | |] eqn:Es; try discriminate Hz.
    cbn [astype fadd fmul fsub IEEE IEEE754.round_to IEEE754.prec
           IEEE754.emax].
    apply map2_add_zeros.
    + rewrite length_map. apply map2_length. exact Hl.
    + clear Hl. induction Hd as [|d ds Hd _ IH]; simpl; constructor;
        [now apply (SFmul_zero_l 24 128)|exact IH].
  - intros num A self gs t np. split.
    + intros Hl cfg.
      destruct np as [|x [|y np]]; try discriminate Hl.
      now destruct cfg.
    + intros [Hl|Hl].
      * destruct np as [|x [|y [|z np]]]; try discriminate Hl. reflexivity.
      * destruct np as [|x [|y [|z [|w [|v np]]]]]; try discriminate Hl.
        reflexivity.
Qed.


(** * Enabling and disabling perturbed-attention guidance *)

Section PAGLayers.

Lemma set_processor_names (ms : PAG.named_modules) : forall i p,
  map fst (PAG.set_processor ms i p) = map fst ms.
Proof.
  induction ms as [|[n q] ms IH]; intros [|i] p; simpl; try reflexivity.
  now rewrite IH.
Qed.

Lemma set_processors_names (l : list nat) : forall (ms : PAG.named_modules) p,
  map fst (PAG.set_processors ms l p) = map fst ms.
Proof.
  unfold PAG.set_processors.
  induction l as [|i l IH]; intros ms p; simpl; [reflexivity|].
  now rewrite IH, set_processor_names.
Qed.

Lemma set_processors_app (a b : list nat) (ms : PAG.named_modules) p :
  PAG.set_processors ms (a ++ b) p
  = PAG.set_processors (PAG.set_processors ms a p) b p.
Proof. unfold PAG.set_processors. apply fold_left_app. Qed.

Lemma nth_error_set_processor (ms : PAG.named_modules) : forall i p j,
  nth_error (PAG.set_processor ms i p) j
  = option_map (fun m => (fst m, if Nat.eqb j i then p else snd m))
      (nth_error ms j).
Proof.
  induction ms as [|[n q] ms IH]; intros [|i] p [|j]; simpl; try reflexivity.
  - now destruct (nth_error ms j) as [[n' q']|].
  - apply IH.
Qed.

Lemma nth_error_set_processors (l : list nat) :
  forall (ms : PAG.named_modules) p j,
  nth_error (PAG.set_processors ms l p) j
  = option_map (fun m => (fst m, if existsb (Nat.eqb j) l then p else snd m))
      (nth_error ms j).
Proof.
  unfold PAG.set_processors.
  induction l as [|i l IH]; intros ms p j; simpl.
  - now destruct (nth_error ms j) as [[n q]|].
  - rewrite IH, nth_error_set_processor.
    destruct (nth_error ms j) as [[n q]|]; simpl; [|reflexivity].
    destruct (Nat.eqb j i); simpl; [|reflexivity].
    now destruct (existsb (Nat.eqb j) l).
Qed.

Lemma set_processors_cons_S (l : list nat) :
  forall (m : string * PAG.Processor) (ms : PAG.named_modules) p,
  PAG.set_processors (m :: ms) (map S l) p = m :: PAG.set_processors ms l p.
Proof.
  unfold PAG.set_processors.
  induction l as [|i l IH]; intros [n q] ms p; simpl; [reflexivity|].
  apply IH.
Qed.

Lemma positions_S (f : string -> bool) (names : list string) : forall i,
  PAG.positions f (S i) names = map S (PAG.positions f i names).
Proof.
  induction names as [|n names IH]; intros i; simpl; [reflexivity|].
  destruct (f n); simpl; now rewrite IH.
Qed.

Lemma set_processors_positions (f : string -> bool) (p : PAG.Processor)
      (ms : PAG.named_modules) :
  PAG.set_processors ms (PAG.positions f 0 (map fst ms)) p
  = map (PAG.retag f p) ms.
Proof.
  induction ms as [|[n q] ms IH]; [reflexivity|].
  cbn [map fst PAG.positions]. rewrite positions_S.
  unfold PAG.retag at 1. cbn [fst snd].
  destruct (f n).
  - unfold PAG.set_processors. cbn [fold_left PAG.set_processor].
    fold (PAG.set_processors ((n, p) :: ms)
            (map S (PAG.positions f 0 (map fst ms))) p).
    now rewrite set_processors_cons_S, IH.
  - now rewrite set_processors_cons_S, IH.
Qed.

Lemma collect_layers_names (ms : PAG.named_modules) :
  forall (ms' : PAG.named_modules) i d m u,
  map fst ms = map fst ms' ->
  PAG.collect_layers i ms d m u = PAG.collect_layers i ms' d m u.
Proof.
  induction ms as [|[n q] ms IH]; intros [|[n' q'] ms'] i d m u H;
    simpl in H; try discriminate H; [reflexivity|].
  injection H as <- H. simpl.
  destruct (PAG.is_self_attn n); [|now apply IH].
  destruct (String.eqb (PAG.layer_type n) "down"); [now apply IH|].
  destruct (String.eqb (PAG.layer_type n) "mid"); [now apply IH|].
  destruct (String.eqb (PAG.layer_type n) "up"); [now apply IH|reflexivity].
Qed.

Lemma collect_layers_error (ms : PAG.named_modules) : forall i d m u e,
  PAG.collect_layers i ms d m u = Raise e -> e = ValueError.
Proof.
  induction ms as [|[n q] ms IH]; intros i d m u e; simpl; [discriminate|].
  destruct (PAG.is_self_attn n); [|apply IH].
  destruct (String.eqb (PAG.layer_type n) "down"); [apply IH|].
  destruct (String.eqb (PAG.layer_type n) "mid"); [apply IH|].
  destruct (String.eqb (PAG.layer_type n) "up"); [apply IH|].
  intros H. now injection H.
Qed.

Lemma collect_layers_positions (ms : PAG.named_modules) : forall i d m u,
  Forall PAG.known_layer (map fst ms) ->
  PAG.collect_layers i ms d m u
  = Ok (u ++ PAG.positions (PAG.is_layer "up") i (map fst ms),
        m ++ PAG.positions (PAG.is_layer "mid") i (map fst ms),
        d ++ PAG.positions (PAG.is_layer "down") i (map fst ms)).
Proof.
  induction ms as [|[n q] ms IH]; intros i d m u H.
  - simpl. now rewrite !app_nil_r.
  - cbn [map fst] in H. inversion H as [|? ? Hn Hr]; subst.
    cbn [PAG.collect_layers map fst PAG.positions]. unfold PAG.is_layer.
    destruct (PAG.is_self_attn n) eqn:Ea.
    + destruct (Hn Ea) as [-> | [-> | ->]]; cbn [String.eqb Ascii.eqb Bool.eqb andb];
        rewrite (IH _ _ _ _ Hr); unfold PAG.is_layer;
        now rewrite <- ?app_assoc.
    + cbn [andb]. now rewrite (IH _ _ _ _ Hr).
Qed.

Context {num : Type}.

Variable py_int : string -> option Z.

(** The outcome [(Raise ValueError, ms)] of a loop that stops. *)
Ltac raised_value_error :=
  split; [reflexivity|split; [now intros e [= <-]|discriminate]].

Lemma replace_indexed_outcome (drops : list string) :
  forall p u m d (ms : PAG.named_modules),
  map fst (snd (PAG.replace_indexed py_int p u m d ms drops)) = map fst ms
  /\ (forall e, fst (PAG.replace_indexed py_int p u m d ms drops) = Raise e ->
                e = ValueError)
  /\ (fst (PAG.replace_indexed py_int p u m d ms drops) = Ok tt ->
      exists targets,
        snd (PAG.replace_indexed py_int p u m d ms drops)
        = PAG.set_processors ms targets p
        /\ forall q ms2,
            PAG.replace_indexed py_int q u m d ms2 drops
            = (Ok tt, PAG.set_processors ms2 targets q)).
Proof.
  induction drops as [|drop drops IH]; intros p u m d ms.
  - simpl. split; [reflexivity|]. split; [discriminate|].
    intros _. exists []. split; reflexivity.
  - cbn [PAG.replace_indexed].
    destruct (py_int (str_tail drop)) as [k|]; [|raised_value_error].
    cbv zeta.
    destruct (str_head drop) as [c|]; [|raised_value_error].
    destruct (Ascii.eqb c _);
      [|destruct (Ascii.eqb c _);
        [|destruct (Ascii.eqb c _); [|raised_value_error]]].
    all: match goal with
         | |- context [py_index ?l ?n] => destruct (py_index l n) as [i|e']
         end; [|raised_value_error];
      destruct (IH p u m d (PAG.set_processor ms i p)) as (Hn & He & Hok);
      (split; [now rewrite Hn, set_processor_names|]);
      (split; [exact He|]);
      intros H; destruct (Hok H) as (targets & Hs & Hq);
      exists (i :: targets); (split; [exact Hs|]);
      intros q ms2; exact (Hq q (PAG.set_processor ms2 i q)).
Qed.

Lemma replace_full_outcome (names : list string) :
  forall p u m d (ms : PAG.named_modules),
  map fst (snd (PAG.replace_full p u m d ms names)) = map fst ms
  /\ (forall e, fst (PAG.replace_full p u m d ms names) = Raise e ->
                e = ValueError)
  /\ (fst (PAG.replace_full p u m d ms names) = Ok tt ->
      exists targets,
        snd (PAG.replace_full p u m d ms names)
        = PAG.set_processors ms targets p
        /\ forall q ms2,
            PAG.replace_full q u m d ms2 names
            = (Ok tt, PAG.set_processors ms2 targets q)).
Proof.
  induction names as [|l names IH]; intros p u m d ms.
  - simpl. split; [reflexivity|]. split; [discriminate|].
    intros _. exists []. split; reflexivity.
  - cbn [PAG.replace_full].
    assert (Hstep : forall layers,
               map fst (snd (PAG.replace_full p u m d
                               (PAG.set_processors ms layers p) names))
               = map fst ms
               /\ (forall e,
                      fst (PAG.replace_full p u m d
                             (PAG.set_processors ms layers p) names) = Raise e ->
                      e = ValueError)
               /\ (fst (PAG.replace_full p u m d
                          (PAG.set_processors ms layers p) names) = Ok tt ->
                   exists targets,
                     snd (PAG.replace_full p u m d
                            (PAG.set_processors ms layers p) names)
                     = PAG.set_processors ms targets p
                     /\ forall q ms2,
                         PAG.replace_full q u m d
                           (PAG.set_processors ms2 layers q) names
                         = (Ok tt, PAG.set_processors ms2 targets q))).
    { intros layers.
      destruct (IH p u m d (PAG.set_processors ms layers p)) as (Hn & He & Hok).
      split; [now rewrite Hn, set_processors_names|]. split; [exact He|].
      intros H. destruct (Hok H) as (targets & Hs & Hq).
      exists (layers ++ targets). split.
      - now rewrite set_processors_app.
      - intros q ms2. rewrite set_processors_app. apply Hq. }
    destruct (String.eqb l "down"); [apply Hstep|].
    destruct (String.eqb l "mid"); [apply Hstep|].
    destruct (String.eqb l "up"); [apply Hstep|].
    raised_value_error.
Qed.

Lemma replace_full_selected (names : list string) (p : PAG.Processor)
      (all : list string) :
  Forall (fun l => l = "down"%string \/ l = "mid"%string \/ l = "up"%string)
    names ->
  forall ms : PAG.named_modules,
    map fst ms = all ->
    PAG.replace_full p (PAG.positions (PAG.is_layer "up") 0 all)
      (PAG.positions (PAG.is_layer "mid") 0 all)
      (PAG.positions (PAG.is_layer "down") 0 all) ms names
    = (Ok tt, map (PAG.retag (PAG.selected names) p) ms).
Proof.
  induction 1 as [|l names Hl _ IH]; intros ms Hall.
  - simpl. f_equal. rewrite <- (map_id ms) at 1. apply map_ext.
    intros [n q]. unfold PAG.retag, PAG.selected. simpl.
    now rewrite andb_false_r.
  - assert (Hc : forall type,
               l = type ->
               PAG.replace_full p (PAG.positions (PAG.is_layer "up") 0 all)
                 (PAG.positions (PAG.is_layer "mid") 0 all)
                 (PAG.positions (PAG.is_layer "down") 0 all)
                 (PAG.set_processors ms
                    (PAG.positions (PAG.is_layer type) 0 all) p) names
               = (Ok tt, map (PAG.retag (PAG.selected (l :: names)) p) ms)).
    { intros type ->. rewrite <- Hall at 4.
      rewrite set_processors_positions.
      rewrite IH by (rewrite map_map; cbn [PAG.retag fst]; exact Hall).
      f_equal. rewrite map_map. apply map_ext. intros [n q].
      unfold PAG.retag, PAG.selected, PAG.is_layer. cbn [fst snd existsb].
      destruct (PAG.is_self_attn n); cbn [andb]; [|reflexivity].
      destruct (String.eqb (PAG.layer_type n) type); cbn [orb];
        [|reflexivity].
      now destruct (existsb (String.eqb (PAG.layer_type n)) names). }
    cbn [PAG.replace_full].
    destruct Hl as [-> | [-> | ->]]; cbn [String.eqb Ascii.eqb Bool.eqb];
      now apply Hc.
Qed.

Lemma replace_processors_outcome (self : PAG.Pipeline (num:=num))
      (p : PAG.Processor) :
  map fst (PAG.unet (snd (PAG.replace_processors py_int self p)))
  = map fst (PAG.unet self)
  /\ PAG._pag_scale (snd (PAG.replace_processors py_int self p))
     = PAG._pag_scale self
  /\ PAG._pag_adaptive_scaling (snd (PAG.replace_processors py_int self p))
     = PAG._pag_adaptive_scaling self
  /\ PAG._pag_applied_layers (snd (PAG.replace_processors py_int self p))
     = PAG._pag_applied_layers self
  /\ PAG._pag_applied_layers_index (snd (PAG.replace_processors py_int self p))
     = PAG._pag_applied_layers_index self
  /\ PAG._pag_cfg (snd (PAG.replace_processors py_int self p))
     = PAG._pag_cfg self
  /\ PAG._is_pag_enabled (snd (PAG.replace_processors py_int self p))
     = PAG._is_pag_enabled self
  /\ (forall e, fst (PAG.replace_processors py_int self p) = Raise e ->
                e = ValueError)
  /\ (fst (PAG.replace_processors py_int self p) = Ok tt ->
      exists targets,
        PAG.unet (snd (PAG.replace_processors py_int self p))
        = PAG.set_processors (PAG.unet self) targets p
        /\ forall q (self2 : PAG.Pipeline (num:=num)),
            map fst (PAG.unet self2) = map fst (PAG.unet self) ->
            PAG._pag_applied_layers self2 = PAG._pag_applied_layers self ->
            PAG._pag_applied_layers_index self2
            = PAG._pag_applied_layers_index self ->
            PAG.replace_processors py_int self2 q
            = (Ok tt,
               PAG.with_unet self2
                 (PAG.set_processors (PAG.unet self2) targets q))).
Proof.
  unfold PAG.replace_processors, PAG._get_self_attn_layers.
  destruct (PAG.collect_layers 0 (PAG.unet self) [] [] [])
    as [[[u m] d]|e] eqn:Ec.
  2:{ cbn [fst snd]. repeat (split; [reflexivity|]).
      split; [|discriminate].
      intros e' [= <-]. now apply (collect_layers_error _ _ _ _ _ _ Ec). }
  assert (Hsame : forall self2 : PAG.Pipeline (num:=num),
             map fst (PAG.unet self2) = map fst (PAG.unet self) ->
             PAG.collect_layers 0 (PAG.unet self2) [] [] [] = Ok (u, m, d)).
  { intros self2 Hn. rewrite <- Ec. now apply collect_layers_names. }
  destruct (PAG._pag_applied_layers_index self) as [[|dl dls]|] eqn:Ei.
  - destruct (PAG._pag_applied_layers self) as [[|l ls]|] eqn:El.
    + cbn [fst snd]. do 3 (split; [reflexivity|]).
      split; [exact El|]. split; [exact Ei|]. do 2 (split; [reflexivity|]).
      split; [intros e H; discriminate H|].
      intros _. exists []. split; [reflexivity|].
      intros q self2 Hn Hl Hi. rewrite (Hsame self2 Hn), Hi, Hl.
      now destruct self2.
    + cbv zeta. cbn [fst snd PAG.unet PAG.with_unet PAG._pag_scale
                       PAG._pag_adaptive_scaling PAG._pag_applied_layers
                       PAG._pag_applied_layers_index PAG._pag_cfg
                       PAG._is_pag_enabled].
      destruct (replace_full_outcome (l :: ls) p u m d (PAG.unet self))
        as (Hn & He & Hok).
      split; [exact Hn|]. split; [reflexivity|]. split; [reflexivity|].
      split; [exact El|]. split; [exact Ei|]. split; [reflexivity|].
      split; [reflexivity|]. split; [exact He|].
      intros H. destruct (Hok H) as (targets & Hs & Hq).
      exists targets. split; [exact Hs|].
      intros q self2 Hn2 Hl Hi. rewrite (Hsame self2 Hn2), Hi, Hl.
      cbv zeta. now rewrite Hq.
    + cbn [fst snd]. do 3 (split; [reflexivity|]).
      split; [exact El|]. split; [exact Ei|]. do 2 (split; [reflexivity|]).
      split; [intros e H; discriminate H|].
      intros _. exists []. split; [reflexivity|].
      intros q self2 Hn Hl Hi. rewrite (Hsame self2 Hn), Hi, Hl.
      now destruct self2.
  - cbv zeta. cbn [fst snd PAG.unet PAG.with_unet PAG._pag_scale
                     PAG._pag_adaptive_scaling PAG._pag_applied_layers
                     PAG._pag_applied_layers_index PAG._pag_cfg
                     PAG._is_pag_enabled].
    destruct (replace_indexed_outcome (dl :: dls) p u m d (PAG.unet self))
      as (Hn & He & Hok).
    split; [exact Hn|]. do 3 (split; [reflexivity|]).
    split; [exact Ei|]. do 2 (split; [reflexivity|]).
    split; [exact He|].
    intros H. destruct (Hok H) as (targets & Hs & Hq).
    exists targets. split; [exact Hs|].
    intros q self2 Hn2 Hl Hi. rewrite (Hsame self2 Hn2), Hi.
    cbv zeta. now rewrite Hq.
  - destruct (PAG._pag_applied_layers self) as [[|l ls]|] eqn:El.
    + cbn [fst snd]. do 3 (split; [reflexivity|]).
      split; [exact El|]. split; [exact Ei|]. do 2 (split; [reflexivity|]).
      split; [intros e H; discriminate H|].
      intros _. exists []. split; [reflexivity|].
      intros q self2 Hn Hl Hi. rewrite (Hsame self2 Hn), Hi, Hl.
      now destruct self2.
    + cbv zeta. cbn [fst snd PAG.unet PAG.with_unet PAG._pag_scale
                       PAG._pag_adaptive_scaling PAG._pag_applied_layers
                       PAG._pag_applied_layers_index PAG._pag_cfg
                       PAG._is_pag_enabled].
      destruct (replace_full_outcome (l :: ls) p u m d (PAG.unet self))
        as (Hn & He & Hok).
      split; [exact Hn|]. split; [reflexivity|]. split; [reflexivity|].
      split; [exact El|]. split; [exact Ei|]. split; [reflexivity|].
      split; [reflexivity|]. split; [exact He|].
      intros H. destruct (Hok H) as (targets & Hs & Hq).
      exists targets. split; [exact Hs|].
      intros q self2 Hn2 Hl Hi. rewrite (Hsame self2 Hn2), Hi, Hl.
      cbv zeta. now rewrite Hq.
    + cbn [fst snd]. do 3 (split; [reflexivity|]).
      split; [exact El|]. split; [exact Ei|]. do 2 (split; [reflexivity|]).
      split; [intros e H; discriminate H|].
      intros _. exists []. split; [reflexivity|].
      intros q self2 Hn Hl Hi. rewrite (Hsame self2 Hn), Hi, Hl.
      now destruct self2.
Qed.

Lemma retag_nothing (p : PAG.Processor) (ms : PAG.named_modules) :
  map (PAG.retag (PAG.selected []) p) ms = ms.
Proof.
  rewrite <- (map_id ms) at 2. apply map_ext. intros [n q].
  unfold PAG.retag, PAG.selected. simpl. now rewrite andb_false_r.
Qed.

Lemma replace_full_unknown (names : list string) :
  forall p u m d (ms : PAG.named_modules),
  (exists l, In l names /\ l <> "down"%string /\ l <> "mid"%string
             /\ l <> "up"%string) ->
  fst (PAG.replace_full p u m d ms names) = Raise ValueError.
Proof.
  induction names as [|l names IH]; intros p u m d ms (x & Hin & Hd & Hm & Hu);
    [destruct Hin|].
  cbn [PAG.replace_full].
  destruct (String.eqb l "down") eqn:Ed.
  { apply IH. exists x. destruct Hin as [->|Hin]; [|now repeat split].
    apply String.eqb_eq in Ed. congruence. }
  destruct (String.eqb l "mid") eqn:Em.
  { apply IH. exists x. destruct Hin as [->|Hin]; [|now repeat split].
    apply String.eqb_eq in Em. congruence. }
  destruct (String.eqb l "up") eqn:Eu.
  { apply IH. exists x. destruct Hin as [->|Hin]; [|now repeat split].
    apply String.eqb_eq in Eu. congruence. }
  reflexivity.
Qed.

(** X16. [enable_pag] by layer type.  When no layer index is given, the
    names of the self-attention modules all start with [down], [mid] or
    [up], and [pag_applied_layers] names only these types, then
    [enable_pag] returns, stores its arguments, marks PAG as enabled and
    replaces the processor of exactly the modules whose name contains
    ["attn1"], does not contain ["to"], and whose type is listed - by the
    PAG-with-CFG processor if [pag_cfg], else by the PAG processor; every
    other module keeps its processor. *)
Theorem enable_pag_selected_layers (self : PAG.Pipeline (num:=num))
        (pag_scale pag_adaptive_scaling : num)
        (pag_applied_layers : list string)
        (pag_applied_layers_index : option (list string)) (pag_cfg : bool) :
  pag_applied_layers_index = None \/ pag_applied_layers_index = Some [] ->
  Forall PAG.known_layer (map fst (PAG.unet self)) ->
  Forall (fun l => l = "down"%string \/ l = "mid"%string \/ l = "up"%string)
    pag_applied_layers ->
  PAG.enable_pag py_int self pag_scale pag_adaptive_scaling
    pag_applied_layers pag_applied_layers_index pag_cfg
  = (Ok tt,
     {| PAG.unet :=
          map (PAG.retag (PAG.selected pag_applied_layers)
                 (if pag_cfg then PAG.PAGCFGIdentitySelfAttnProcessor2_0
                  else PAG.PAGIdentitySelfAttnProcessor2_0))
            (PAG.unet self);
        PAG._pag_scale := Some pag_scale;
        PAG._pag_adaptive_scaling := Some pag_adaptive_scaling;
        PAG._pag_applied_layers := Some pag_applied_layers;
        PAG._pag_applied_layers_index := pag_applied_layers_index;
        PAG._pag_cfg := Some pag_cfg;
        PAG._is_pag_enabled := true |}).
Proof.
  intros Hi Hk Hl.
  unfold PAG.enable_pag, PAG._set_pag_attn_processor, PAG.replace_processors,
    PAG._get_self_attn_layers, PAG.replace_processor.
  cbn [PAG.unet PAG._pag_cfg PAG._pag_applied_layers
         PAG._pag_applied_layers_index].
  rewrite (collect_layers_positions _ 0 [] [] [] Hk). cbn [app].
  assert (Hp : (match Some pag_cfg with
                | Some true => PAG.PAGCFGIdentitySelfAttnProcessor2_0
                | _ => PAG.PAGIdentitySelfAttnProcessor2_0
                end)
               = (if pag_cfg then PAG.PAGCFGIdentitySelfAttnProcessor2_0
                  else PAG.PAGIdentitySelfAttnProcessor2_0))
    by now destruct pag_cfg.
  cbv beta iota in Hp |- *. clear Hp.
  destruct pag_applied_layers as [|l ls].
  - rewrite retag_nothing. now destruct Hi as [-> | ->].
  - rewrite (replace_full_selected (l :: ls) _ _ Hl (PAG.unet self) eq_refl).
    cbn [fst snd PAG.with_unet PAG._pag_scale PAG._pag_adaptive_scaling
           PAG._pag_applied_layers PAG._pag_applied_layers_index PAG._pag_cfg
           PAG._is_pag_enabled].
    now destruct Hi as [-> | ->].
Qed.

(** X17. [enable_pag] assigns its attributes before it looks at the
    layers, and whatever goes wrong afterwards - a self-attention module
    of unknown type, a layer index that is not an integer or out of range,
    an unknown layer letter or name - is a [ValueError]: the instance is
    then marked as PAG-enabled with the new attributes, and the modules
    keep their names.  With no layer index and well-named modules, a layer
    name other than [down], [mid] and [up] is such an error. *)
Theorem enable_pag_errors (self : PAG.Pipeline (num:=num))
        (pag_scale pag_adaptive_scaling : num)
        (pag_applied_layers : list string)
        (pag_applied_layers_index : option (list string)) (pag_cfg : bool) :
  (forall e self',
      PAG.enable_pag py_int self pag_scale pag_adaptive_scaling
        pag_applied_layers pag_applied_layers_index pag_cfg
      = (Raise e, self') ->
      e = ValueError
      /\ PAG._is_pag_enabled self' = true
      /\ PAG.combiner_view self'
         = Some (combiner_attributes pag_scale pag_adaptive_scaling)
      /\ PAG._pag_applied_layers self' = Some pag_applied_layers
      /\ PAG._pag_applied_layers_index self' = pag_applied_layers_index
      /\ PAG._pag_cfg self' = Some pag_cfg
      /\ map fst (PAG.unet self') = map fst (PAG.unet self))
  /\ (pag_applied_layers_index = None \/ pag_applied_layers_index = Some [] ->
      Forall PAG.known_layer (map fst (PAG.unet self)) ->
      (exists l, In l pag_applied_layers /\ l <> "down"%string
                 /\ l <> "mid"%string /\ l <> "up"%string) ->
      fst (PAG.enable_pag py_int self pag_scale pag_adaptive_scaling
             pag_applied_layers pag_applied_layers_index pag_cfg)
      = Raise ValueError).
Proof.
  split.
  - intros e self' H. unfold PAG.enable_pag, PAG._set_pag_attn_processor in H.
    match type of H with
    | PAG.replace_processors _ ?s ?p = _ =>
        destruct (replace_processors_outcome s p)
          as (Hn & H1 & H2 & H3 & H4 & H5 & H6 & He & _)
    end.
    rewrite H in *. cbn [fst snd] in *.
    split; [now apply He|]. split; [exact H6|].
    split; [unfold PAG.combiner_view; now rewrite H1, H2|].
    repeat (split; [assumption|]). exact Hn.
  - intros Hi Hk Hex.
    unfold PAG.enable_pag, PAG._set_pag_attn_processor, PAG.replace_processors,
      PAG._get_self_attn_layers.
    cbn [PAG.unet PAG._pag_applied_layers PAG._pag_applied_layers_index].
    rewrite (collect_layers_positions _ 0 [] [] [] Hk). cbn [app].
    destruct pag_applied_layers as [|l ls];
      [destruct Hex as (x & [] & _)|].
    destruct Hi as [-> | ->]; cbv zeta; cbn [fst];
      now apply replace_full_unknown.
Qed.

(** X18. [enable_pag] by layer index.  When [pag_applied_layers_index] is
    not empty, [pag_applied_layers] is stored but not looked at.  An entry
    made of the letter [d], [m] or [u] and a number [k] selects the [k]-th
    self-attention layer of that type, counted as Python indexes a list:
    with that entry alone, that one module gets the PAG processor and the
    call returns; with [k] out of range the call raises [ValueError] and
    replaces nothing.  The replacements are not undone when a later entry
    fails: the call then raises with the earlier layers replaced. *)
Theorem enable_pag_layer_index (self : PAG.Pipeline (num:=num))
        (pag_scale pag_adaptive_scaling : num)
        (pag_applied_layers : list string) (letter type number : string)
        (k : Z) (pag_cfg : bool) :
  Forall PAG.known_layer (map fst (PAG.unet self)) ->
  (letter = "d"%string /\ type = "down"%string)
  \/ (letter = "m"%string /\ type = "mid"%string)
  \/ (letter = "u"%string /\ type = "up"%string) ->
  py_int number = Some k ->
  let layers := PAG.positions (PAG.is_layer type) 0 (map fst (PAG.unet self)) in
  let p := if pag_cfg then PAG.PAGCFGIdentitySelfAttnProcessor2_0
           else PAG.PAGIdentitySelfAttnProcessor2_0 in
  let enabled modules index :=
    {| PAG.unet := modules;
       PAG._pag_scale := Some pag_scale;
       PAG._pag_adaptive_scaling := Some pag_adaptive_scaling;
       PAG._pag_applied_layers := Some pag_applied_layers;
       PAG._pag_applied_layers_index := Some index;
       PAG._pag_cfg := Some pag_cfg;
       PAG._is_pag_enabled := true |} in
  (forall i,
      py_index layers k = Ok i ->
      PAG.enable_pag py_int self pag_scale pag_adaptive_scaling
        pag_applied_layers (Some [(letter ++ number)%string]) pag_cfg
      = (Ok tt,
         enabled (PAG.set_processor (PAG.unet self) i p)
           [(letter ++ number)%string])
      /\ forall bad,
          py_int (str_tail bad) = None ->
          PAG.enable_pag py_int self pag_scale pag_adaptive_scaling
            pag_applied_layers (Some [(letter ++ number)%string; bad]) pag_cfg
          = (Raise ValueError,
             enabled (PAG.set_processor (PAG.unet self) i p)
               [(letter ++ number)%string; bad]))
  /\ (k < - Z.of_nat (length layers) \/ Z.of_nat (length layers) <= k ->
      PAG.enable_pag py_int self pag_scale pag_adaptive_scaling
        pag_applied_layers (Some [(letter ++ number)%string]) pag_cfg
      = (Raise ValueError,
         enabled (PAG.unet self) [(letter ++ number)%string])).
Proof.
  intros Hk Hletter Hint layers p enabled.
  assert (Hp : (match Some pag_cfg with
                | Some true => PAG.PAGCFGIdentitySelfAttnProcessor2_0
                | _ => PAG.PAGIdentitySelfAttnProcessor2_0
                end) = p)
    by (unfold p; now destruct pag_cfg).
  assert (Hrun : forall rest,
             PAG.enable_pag py_int self pag_scale pag_adaptive_scaling
               pag_applied_layers (Some ((letter ++ number)%string :: rest))
               pag_cfg
             = match py_index layers k with
               | Ok i =>
                   let r := PAG.replace_indexed py_int p
                              (PAG.positions (PAG.is_layer "up") 0
                                 (map fst (PAG.unet self)))
                              (PAG.positions (PAG.is_layer "mid") 0
                                 (map fst (PAG.unet self)))
                              (PAG.positions (PAG.is_layer "down") 0
                                 (map fst (PAG.unet self)))
                              (PAG.set_processor (PAG.unet self) i p) rest in
                   (fst r,
                    enabled (snd r) ((letter ++ number)%string :: rest))
               | Raise _ =>
                   (Raise ValueError,
                    enabled (PAG.unet self)
                      ((letter ++ number)%string :: rest))
               end).
  { intros rest.
    unfold PAG.enable_pag, PAG._set_pag_attn_processor,
      PAG.replace_processors, PAG._get_self_attn_layers,
      PAG.replace_processor.
    cbn [PAG.unet PAG._pag_cfg PAG._pag_applied_layers
           PAG._pag_applied_layers_index].
    rewrite (collect_layers_positions _ 0 [] [] [] Hk). cbn [app].
    rewrite Hp. unfold layers.
    destruct Hletter as [[-> ->]|[[-> ->]|[-> ->]]];
      cbn [PAG.replace_indexed append str_tail str_head];
      rewrite Hint; cbn [Ascii.eqb Bool.eqb andb];
      (destruct (py_index _ k) as [i|e]; reflexivity). }
  split.
  - intros i Hi. split.
    + rewrite (Hrun []). fold layers. rewrite Hi. reflexivity.
    + intros bad Hbad. rewrite (Hrun [bad]). fold layers. rewrite Hi.
      cbn [PAG.replace_indexed]. rewrite Hbad. reflexivity.
  - intros Hout. rewrite (Hrun []).
    fold layers. now rewrite py_index_out_of_range.
Qed.

(** X19. [disable_pag] after a successful [enable_pag] returns, clears
    the PAG attributes and marks PAG as disabled.  Every module whose
    processor [enable_pag] replaced now has a plain [AttnProcessor2_0] -
    not the processor it had before PAG was enabled - and every other
    module still has its own.  A second [disable_pag] raises [ValueError]
    and changes nothing. *)
Theorem disable_pag_after_enable (self : PAG.Pipeline (num:=num))
        (pag_scale pag_adaptive_scaling : num)
        (pag_applied_layers : list string)
        (pag_applied_layers_index : option (list string)) (pag_cfg : bool)
        (enabled : PAG.Pipeline (num:=num)) :
  PAG.enable_pag py_int self pag_scale pag_adaptive_scaling
    pag_applied_layers pag_applied_layers_index pag_cfg
  = (Ok tt, enabled) ->
  exists disabled,
    PAG.disable_pag py_int enabled = (Ok tt, disabled)
    /\ PAG._is_pag_enabled disabled = false
    /\ PAG.combiner_view disabled = None
    /\ PAG._pag_applied_layers disabled = None
    /\ PAG._pag_applied_layers_index disabled = None
    /\ PAG._pag_cfg disabled = None
    /\ length (PAG.unet disabled) = length (PAG.unet self)
    /\ (forall i name processor,
           nth_error (PAG.unet self) i = Some (name, processor) ->
           (nth_error (PAG.unet enabled) i
            = Some (name,
                    if pag_cfg then PAG.PAGCFGIdentitySelfAttnProcessor2_0
                    else PAG.PAGIdentitySelfAttnProcessor2_0)
            /\ nth_error (PAG.unet disabled) i
               = Some (name, PAG.AttnProcessor2_0))
           \/ (nth_error (PAG.unet enabled) i = Some (name, processor)
               /\ nth_error (PAG.unet disabled) i = Some (name, processor)))
    /\ PAG.disable_pag py_int disabled = (Raise ValueError, disabled).
Proof.
  intros H. unfold PAG.enable_pag, PAG._set_pag_attn_processor in H.
  match type of H with
  | PAG.replace_processors _ ?s ?p = _ =>
      destruct (replace_processors_outcome s p)
        as (Hn & H1 & H2 & H3 & H4 & H5 & H6 & _ & Hok);
      assert (Hp : p = if pag_cfg then PAG.PAGCFGIdentitySelfAttnProcessor2_0
                       else PAG.PAGIdentitySelfAttnProcessor2_0)
        by (unfold PAG.replace_processor; cbn [PAG._pag_cfg];
            now destruct pag_cfg);
      rewrite Hp in *
  end.
  rewrite H in *. cbn [fst snd PAG.unet PAG._pag_applied_layers
                         PAG._pag_applied_layers_index PAG._is_pag_enabled] in *.
  destruct (Hok eq_refl) as (targets & Hs & Hq).
  specialize (Hq PAG.AttnProcessor2_0 enabled Hn H3 H4).
  unfold PAG.disable_pag, PAG.do_perturbed_attention_guidance.
  rewrite H6. cbn [negb]. rewrite Hq.
  eexists. split; [reflexivity|].
  cbn [PAG.unet PAG.with_unet PAG._is_pag_enabled PAG._pag_applied_layers
         PAG._pag_applied_layers_index PAG._pag_cfg].
  split; [reflexivity|]. split; [reflexivity|].
  do 3 (split; [reflexivity|]).
  split.
  { rewrite <- (length_map fst), set_processors_names, Hn.
    apply length_map. }
  split; [|reflexivity].
  intros i name q Hi.
  rewrite nth_error_set_processors, Hs, nth_error_set_processors, Hi.
  cbn [option_map fst snd].
  destruct (existsb (Nat.eqb i) targets); [left|right]; split; reflexivity.
Qed.

End PAGLayers.


(** * The Meissonic inpainting pipeline *)

Section MeissonicProperties.

Lemma flat_map_py_range {X : Type} (g : Z -> list X) (n : Z) :
  flat_map g (py_range n)
  = flat_map (fun i => g (Z.of_nat i)) (seq 0 (Z.to_nat n)).
Proof.
  unfold py_range. induction (seq 0 (Z.to_nat n)) as [|i l IH]; simpl;
    [reflexivity|]. now rewrite IH.
Qed.

Lemma flat_map_rows {X : Type} (g : nat -> list X) (w : nat) :
  (forall i, length (g i) = w) ->
  forall h a,
    length (flat_map g (seq a h)) = (h * w)%nat
    /\ forall i j, (i < h)%nat -> (j < w)%nat ->
         nth_error (flat_map g (seq a h)) (i * w + j) = nth_error (g (a + i)%nat) j.
Proof.
  intros Hg. induction h as [|h IH]; intros a.
  - split; [reflexivity|]. intros i j Hi. lia.
  - destruct (IH (S a)) as [Hl Hn]. cbn [seq flat_map]. split.
    + rewrite length_app, Hl, Hg. simpl. lia.
    + intros [|i] j Hi Hj.
      * rewrite Nat.add_0_r. simpl. apply nth_error_app1. now rewrite Hg.
      * rewrite nth_error_app2 by (rewrite Hg; simpl; lia).
        rewrite Hg. replace (S i * w + j - w)%nat with (i * w + j)%nat
          by (simpl; lia).
        rewrite Hn by lia. f_equal. f_equal. lia.
Qed.

Lemma latent_image_ids_rows {num : Type} {A : Arith num} {T : Type}
      (cast : num -> T) (batch_size height width : Z) :
  0 <= height -> 0 <= width ->
  exists ids,
    _prepare_latent_image_ids cast batch_size height width = Ok ids
    /\ Z.of_nat (length ids) = (height / 2) * (width / 2)
    /\ forall i j,
        0 <= i < height / 2 -> 0 <= j < width / 2 ->
        nth_error ids (Z.to_nat (i * (width / 2) + j))
        = Some (map cast [fzero;
                          fadd float32 fzero (of_int float32 i);
                          fadd float32 fzero (of_int float32 j)]).
Proof.
  intros Hh Hw. unfold _prepare_latent_image_ids.
  assert (Hh2 : 0 <= height / 2) by (apply Z.div_pos; lia).
  assert (Hw2 : 0 <= width / 2) by (apply Z.div_pos; lia).
  destruct (height / 2 <? 0) eqn:E1; [apply Z.ltb_lt in E1; lia|].
  destruct (width / 2 <? 0) eqn:E2; [apply Z.ltb_lt in E2; lia|].
  cbn [orb]. eexists. split; [reflexivity|].
  rewrite flat_map_py_range.
  set (g := fun i : nat =>
              map (fun j : Z =>
                     map cast [fzero;
                               fadd float32 fzero (of_int float32 (Z.of_nat i));
                               fadd float32 fzero (of_int float32 j)])
                (py_range (width / 2))).
  assert (Hg : forall i, length (g i) = Z.to_nat (width / 2)).
  { intros i. unfold g, py_range. now rewrite !length_map, length_seq. }
  destruct (flat_map_rows g _ Hg (Z.to_nat (height / 2)) 0%nat) as [Hl Hn].
  split; [rewrite Hl; lia|].
  intros i j Hi Hj.
  replace (Z.to_nat (i * (width / 2) + j))
    with (Z.to_nat i * Z.to_nat (width / 2) + Z.to_nat j)%nat by nia.
  rewrite Hn by lia. unfold g, py_range. cbn [Nat.add].
  rewrite map_map, nth_error_map, nth_error_seq.
  destruct (Nat.ltb_spec (Z.to_nat j) (Z.to_nat (width / 2))) as [_|Hc];
    [|lia].
  cbn [option_map Nat.add]. rewrite !Z2Nat.id by lia. reflexivity.
Qed.

(** X20. [_prepare_latent_image_ids] numbers the cells of a grid of
    [height // 2] rows and [width // 2] columns, row by row: the result has
    one line per cell, and the line of cell [(i, j)] - at position
    [i * (width // 2) + j] - is the conversion of [0, i, j]; the batch size
    plays no part.  A negative height or width is an error of
    [torch.zeros].  In the denoising loop the ids are taken from the
    latent of [rows] by [cols] tokens: one id per token, except for images
    of height 1024, where there is one id per block of 2 by 2 tokens. *)
Theorem latent_image_ids_grid :
  (forall (num : Type) (A : Arith num) (T : Type) (cast : num -> T)
          (batch_size height width : Z),
      (0 <= height -> 0 <= width ->
       exists ids,
         _prepare_latent_image_ids cast batch_size height width = Ok ids
         /\ Z.of_nat (length ids) = (height / 2) * (width / 2)
         /\ forall i j,
             0 <= i < height / 2 -> 0 <= j < width / 2 ->
             nth_error ids (Z.to_nat (i * (width / 2) + j))
             = Some (map cast
                       [@fzero num A;
                        @fadd num A float32 (@fzero num A)
                          (@of_int num A float32 i);
                        @fadd num A float32 (@fzero num A)
                          (@of_int num A float32 j)]))
      /\ (height < 0 \/ width < 0 ->
          _prepare_latent_image_ids cast batch_size height width
          = Raise RuntimeError))
  /\
  (forall (batch_size height width i j : Z),
      0 <= i < height / 2 -> 0 <= j < width / 2 ->
      exists ids,
        _prepare_latent_image_ids (A:=Exact) (fun x : R => x) batch_size
          height width = Ok ids
        /\ nth_error ids (Z.to_nat (i * (width / 2) + j))
           = Some [0%R; IZR i; IZR j])
  /\
  (forall (num : Type) (A : Arith num) (T : Type) (cast : num -> T)
          (height batch rows cols : Z),
      0 <= rows -> 0 <= cols ->
      exists ids,
        call_img_ids cast height batch rows cols = Ok ids
        /\ Z.of_nat (length ids)
           = if height =? 1024 then (rows / 2) * (cols / 2) else rows * cols).
Proof.
  split; [|split].
  - intros num A T cast b h w. split.
    + intros Hh Hw. now apply latent_image_ids_rows.
    + intros Hn. unfold _prepare_latent_image_ids.
      destruct Hn as [Hn|Hn].
      * assert (h / 2 < 0) by (apply Z.div_lt_upper_bound; lia).
        replace (h / 2 <? 0) with true by (symmetry; apply Z.ltb_lt; lia).
        reflexivity.
      * assert (w / 2 < 0) by (apply Z.div_lt_upper_bound; lia).
        replace (w / 2 <? 0) with true by (symmetry; apply Z.ltb_lt; lia).
        now rewrite orb_true_r.
  - intros b h w i j Hi Hj.
    assert (Hh : 0 <= h).
    { destruct (Z_lt_le_dec h 0) as [Hn|Hn]; [|exact Hn].
      assert (h / 2 < 0) by (apply Z.div_lt_upper_bound; lia). lia. }
    assert (Hw : 0 <= w).
    { destruct (Z_lt_le_dec w 0) as [Hn|Hn]; [|exact Hn].
      assert (w / 2 < 0) by (apply Z.div_lt_upper_bound; lia). lia. }
    destruct (latent_image_ids_rows (A:=Exact) (fun x : R => x) b h w Hh Hw)
      as (ids & Ho & _ & Hn).
    exists ids. split; [exact Ho|]. rewrite (Hn i j Hi Hj).
    cbn [map fzero fadd of_int Exact]. now rewrite !Rplus_0_l.
  - intros num A T cast height b rows cols Hr Hc. unfold call_img_ids.
    destruct (height =? 1024).
    + destruct (latent_image_ids_rows cast b rows cols Hr Hc)
        as (ids & Ho & Hl & _).
      now exists ids.
    + destruct (latent_image_ids_rows cast b (2 * rows) (2 * cols))
        as (ids & Ho & Hl & _); [lia|lia|].
      exists ids. split; [exact Ho|].
      rewrite Hl. rewrite !(Z.mul_comm 2), !Z.div_mul by lia. reflexivity.
Qed.

(** X21. The argument checks that open the pipeline call accept exactly
    two ways of giving the prompt - a [prompt] with neither [prompt_embeds]
    nor [encoder_hidden_states], or both of these with no [prompt] - and
    negative embeddings only together with their hidden states or not at
    all; every other combination raises [ValueError]. *)
Theorem call_inputs_accepted (E H : Type) (prompt : prompt_arg)
        (prompt_embeds : option E) (encoder_hidden_states : option H)
        (negative_prompt_embeds : option E)
        (negative_encoder_hidden_states : option H) :
  (call_check_inputs prompt prompt_embeds encoder_hidden_states
     negative_prompt_embeds negative_encoder_hidden_states = Ok tt
   <-> ((prompt <> PromptNone /\ prompt_embeds = None
         /\ encoder_hidden_states = None)
        \/ (prompt = PromptNone /\ prompt_embeds <> None
            /\ encoder_hidden_states <> None))
       /\ (negative_prompt_embeds = None
           <-> negative_encoder_hidden_states = None))
  /\ (call_check_inputs prompt prompt_embeds encoder_hidden_states
        negative_prompt_embeds negative_encoder_hidden_states = Ok tt
      \/ call_check_inputs prompt prompt_embeds encoder_hidden_states
           negative_prompt_embeds negative_encoder_hidden_states
         = Raise ValueError).
Proof.
  unfold call_check_inputs.
  destruct prompt as [|s|l], prompt_embeds as [pe|],
    encoder_hidden_states as [eh|], negative_prompt_embeds as [ne|],
    negative_encoder_hidden_states as [nh|]; cbn;
    (split; [split; [intros Hc; try discriminate Hc|
                     intros [[(H1 & H2 & H3)|(H1 & H2 & H3)] [H4 H5]];
                     try congruence; try (now specialize (H4 eq_refl));
                     try (now specialize (H5 eq_refl))]
            |auto]).
  all: try (split; [first [left; repeat split; congruence
                          |right; repeat split; congruence]
                   |split; congruence]).
Qed.

Section Prompts.

Context {num : Type} {A : Arith num}.

Variables E H : Type.

Variable encode : list string -> result (list E * list H).

Lemma repeat_rows_ok {X : Type} (rows : list X) (n : Z) :
  0 <= n -> repeat_rows rows n = Ok (concat (repeat rows (Z.to_nat n))).
Proof.
  intros Hn. unfold repeat_rows.
  destruct (n <? 0) eqn:E0; [apply Z.ltb_lt in E0; lia|reflexivity].
Qed.

(** X22. How the pipeline call builds the transformer's text batch, for
    [num_images_per_prompt >= 0] and a text encoder that returns.  Without
    guidance ([guidance_scale <= 1.0]) the negative prompt is not looked at
    and the batch is the encoded prompts, repeated.  With guidance the
    negative embeddings come first and the positive ones second - the order
    in which [chunk(2)] later reads the unconditional and the conditional
    logits - and a missing negative prompt defaults to one empty string
    per prompt.  That default needs [prompt]: when the prompt is given as
    embeddings, guidance is on and no negative prompt or embeddings are
    given, the call raises [TypeError]. *)
Theorem call_prompt_batches (prompts : list string)
        (negative_prompt : prompt_arg) (num_images_per_prompt : Z)
        (guidance_scale : num) (embeds negative_embeds : list E)
        (hidden negative_hidden : list H) :
  0 <= num_images_per_prompt ->
  let n := Z.to_nat num_images_per_prompt in
  let tile {X : Type} (rows : list X) := concat (repeat rows n) in
  (fltb (of_int float64 1) guidance_scale = false ->
   encode prompts = Ok (embeds, hidden) ->
   call_encode_prompts E H encode (PromptList prompts) negative_prompt
     num_images_per_prompt guidance_scale None None None None
   = Ok (Z.of_nat (length prompts) * num_images_per_prompt,
         tile embeds, tile hidden))
  /\ (fltb (of_int float64 1) guidance_scale = true ->
      encode prompts = Ok (embeds, hidden) ->
      encode (repeat EmptyString (length prompts))
      = Ok (negative_embeds, negative_hidden) ->
      call_encode_prompts E H encode (PromptList prompts) PromptNone
        num_images_per_prompt guidance_scale None None None None
      = Ok (Z.of_nat (length prompts) * num_images_per_prompt,
            tile negative_embeds ++ tile embeds,
            tile negative_hidden ++ tile hidden))
  /\ (fltb (of_int float64 1) guidance_scale = true ->
      call_encode_prompts E H encode PromptNone PromptNone
        num_images_per_prompt guidance_scale (Some embeds) (Some hidden)
        None None
      = Raise TypeError)
  /\ (fltb (of_int float64 1) guidance_scale = false ->
      call_encode_prompts E H encode PromptNone PromptNone
        num_images_per_prompt guidance_scale (Some embeds) (Some hidden)
        None None
      = Ok (Z.of_nat (length embeds) * num_images_per_prompt,
            tile embeds, tile hidden)).
Proof.
  intros Hn. cbv zeta. unfold call_encode_prompts.
  cbn [call_check_inputs is_none negb andb orb bind as_prompt_list fst snd].
  split; [|split; [|split]].
  - intros Hg He. rewrite He. cbn [bind fst snd].
    rewrite !repeat_rows_ok by exact Hn. cbn [bind]. now rewrite Hg.
  - intros Hg He Hneg. rewrite He. cbn [bind fst snd].
    rewrite !repeat_rows_ok by exact Hn. cbn [bind]. rewrite Hg, Hneg.
    cbn [bind fst snd]. rewrite !repeat_rows_ok by exact Hn. reflexivity.
  - intros Hg. rewrite !repeat_rows_ok by exact Hn. cbn [bind].
    now rewrite Hg.
  - intros Hg. rewrite !repeat_rows_ok by exact Hn. cbn [bind].
    now rewrite Hg.
Qed.

End Prompts.

End MeissonicProperties.


(** * Concrete instances of the further properties *)

Section MoreInstances.

Local Abbreviation pzero := (S754_zero false).

(** X1 on the small schedule: after an earlier use, [set_timesteps(2)]
    leaves the instance as it leaves a fresh one. *)
Lemma set_timesteps_forgets_history_witness :
  set_timesteps Samples.small (PyInt 2) PyNone = (Ok tt, Examples.small_run)
  /\ set_timesteps
       (fst (fst (run_calls Samples.small TorchTensor Examples.alternating
                    Samples.history)))
       (PyInt 2) PyNone
     = (Ok tt, Examples.small_run).
Proof.
  assert (H : set_timesteps Samples.small (PyInt 2) PyNone
              = (Ok tt, Examples.small_run))
    by (vm_compute; reflexivity).
  split; [exact H|].
  exact (proj1 (proj2 (set_timesteps_forgets_history Samples.small
                         TorchTensor Examples.alternating Samples.history
                         (PyInt 2) PyNone PyNone Examples.small_run H))).
Defined.



(** X4 on the small schedule of four training steps. *)
Lemma init_shapes_witness :
  init Examples.small_config = Ok Samples.small
  /\ length (sigmas Samples.small) = 5%nat
  /\ timesteps Samples.small = IntTimesteps [3; 2; 1; 0].
Proof.
  assert (H : init Examples.small_config = Ok Samples.small)
    by (vm_compute; reflexivity).
  split; [exact H|].
  destruct (init_shapes Examples.small_config Samples.small H)
    as (_ & _ & _ & Hs & _ & Ht & _).
  split; [exact Hs|exact Ht].
Defined.

(** X5 from sigma 2 to sigma 1. *)
Lemma ancestral_sigmas_split_witness :
  (0 <= 1 <= 2)%R /\ (0 < 2)%R
  /\ get_sigma_down (A:=Exact) 1%R (get_sigma_up (A:=Exact) 2%R 1%R)
     = (1 * 1 / 2)%R.
Proof.
  assert (H1 : (0 <= 1 <= 2)%R) by lra.
  assert (H2 : (0 < 2)%R) by lra.
  split; [exact H1|]. split; [exact H2|].
  exact (proj1 (proj2 (ancestral_sigmas_split 2%R 1%R H1 H2))).
Defined.

(** X6 in exact arithmetic: five inference steps on two training steps. *)
Lemma set_timesteps_any_count_witness :
  1 <= 5
  /\ 1 <= num_train_timesteps (config Examples.exact_scheduler)
  /\ schedule_complete Examples.exact_scheduler
  /\ fst (set_timesteps Examples.exact_scheduler (PyInt 5) PyNone) = Ok tt
  /\ Z.of_nat (length (sigmas (snd (set_timesteps Examples.exact_scheduler
                                      (PyInt 5) PyNone)))) = 5 + 1.
Proof.
  assert (Hm : 1 <= 5) by lia.
  assert (Hn : 1 <= num_train_timesteps (config Examples.exact_scheduler))
    by (simpl; lia).
  assert (Hc : schedule_complete Examples.exact_scheduler) by reflexivity.
  split; [exact Hm|]. split; [exact Hn|]. split; [exact Hc|].
  destruct (set_timesteps_any_count Examples.exact_scheduler 5 Hm Hn Hc)
    as (H1 & _ & H2 & _).
  split; [exact H1|exact H2].
Defined.


(** X8 in exact arithmetic: one explicit beta for three training steps. *)
Lemma set_timesteps_short_trained_betas_witness :
  exists self,
    trained_betas Samples.short_config = Some (float32, [(1 / 2)%R])
    /\ init Samples.short_config = Ok self
    /\ (Z.of_nat (length [(1 / 2)%R])
        < num_train_timesteps Samples.short_config)
    /\ 1 <= 2
    /\ fst (set_timesteps self (PyInt 2) PyNone) = Raise IndexError.
Proof.
  assert (Hex : exists self, init Samples.short_config = Ok self).
  { eexists. vm_compute. reflexivity. }
  destruct Hex as (self & Hi).
  assert (Hl : Z.of_nat (length [(1 / 2)%R])
               < num_train_timesteps Samples.short_config) by (simpl; lia).
  assert (Hm : 1 <= 2) by lia.
  exists self. split; [reflexivity|]. split; [exact Hi|].
  split; [exact Hl|]. split; [exact Hm|].
  now rewrite (proj1 (set_timesteps_short_trained_betas Samples.short_config
                        float32 [(1 / 2)%R] self 2 eq_refl Hi Hl Hm)).
Defined.

(** X9 on the small run: the index 7 is outside the three sigmas. *)
Lemma add_noise_indexing_witness :
  fst (add_noise Examples.small_run TorchTensor float32 [Examples.sample2]
         [Examples.output2] [7])
  = Outcome (Raise IndexError).
Proof.
  apply (proj1 (proj2 (proj2 (add_noise_indexing Examples.small_run float32
                                [Examples.sample2] [Examples.output2]
                                [7])))).
  exists 7. split; [now left|]. right. vm_compute. discriminate.
Defined.

(** X10 in exact arithmetic: noising [[1, 2]] with the noise [[3, 4]] at
    the last index of the constructed schedule, then stepping back. *)
Lemma add_noise_terminal_step_round_trip_witness :
  length [3%R; 4%R] = length [1%R; 2%R]
  /\ py_index (sigmas Examples.exact_scheduler) 1 = Ok (sqrt (1 / 9))
  /\ sqrt (1 / 9) <> 0%R
  /\ py_index (sigmas Examples.exact_scheduler) (1 + 1) = Ok 0%R
  /\ exists sample,
      fst (add_noise Examples.exact_scheduler TorchTensor float32
             [[1%R; 2%R]] [[3%R; 4%R]] [1]) = Outcome (Ok [sample])
      /\ exists out,
          fst (fst (step (snd (add_noise Examples.exact_scheduler
                                 TorchTensor float32
                                 [[1%R; 2%R]] [[3%R; 4%R]] [1]))
                      (fun _ => 7%R) [3%R; 4%R] 0%R 1 sample true)) = Ok out
          /\ prev_sample out = [1%R; 2%R].
Proof.
  assert (Hs : sqrt (1 / 9) <> 0%R)
    by (apply Rgt_not_eq; apply sqrt_lt_R0; lra).
  split; [reflexivity|]. split; [reflexivity|]. split; [exact Hs|].
  split; [reflexivity|].
  destruct (add_noise_terminal_step_round_trip Examples.exact_scheduler
              (fun _ => 7%R) [1%R; 2%R] [3%R; 4%R] 0%R 1
              (sqrt (1 / 9)) true eq_refl eq_refl Hs eq_refl)
    as (sample & Ha & _ & Hout).
  exists sample. split; [exact Ha|exact Hout].
Defined.

(** X13 on the small run: noising at index 2, where the sigma is the
    sentinel. *)
Lemma add_noise_at_sentinel_witness :
  py_index (sigmas Examples.small_run) 2 = Ok pzero
  /\ exists out,
      fst (add_noise Examples.small_run TorchTensor float32
             [Examples.sample2] [Examples.output2] [2]) = Outcome (Ok [out])
      /\ IEEE754.tensor_eq out Examples.sample2.
Proof.
  assert (Hi : py_index (sigmas Examples.small_run) 2 = Ok pzero)
    by reflexivity.
  split; [exact Hi|].
  apply (add_noise_at_sentinel Examples.small_run Examples.sample2
           Examples.output2 2 pzero eq_refl Hi eq_refl).
  repeat constructor.
Defined.

(** X11 in exact arithmetic: the first of the two steps of the
    constructed schedule, from sigma [sqrt(7/18)] to sigma [1/3]. *)
Lemma step_on_noised_sample_witness :
  sqrt (7 / 18) <> 0%R
  /\ exists out,
      fst (fst (step Examples.exact_scheduler (fun _ => 7%R) [3%R; 4%R] 1%R 0
                  (map2 (num:=R) Rplus [1%R; 2%R]
                     (map (fun e => (e * sqrt (7 / 18))%R) [3%R; 4%R]))
                  true)) = Ok out.
Proof.
  assert (Hs : sqrt (7 / 18) <> 0%R)
    by (apply Rgt_not_eq; apply sqrt_lt_R0; lra).
  split; [exact Hs|].
  destruct (step_on_noised_sample Examples.exact_scheduler (fun _ => 7%R)
              [1%R; 2%R] [3%R; 4%R] 1%R 0 (sqrt (7 / 18)) (sqrt (1 / 9)) true
              eq_refl eq_refl Hs eq_refl)
    as (out & Ho & _).
  exists out. exact Ho.
Defined.


(** X14 in floats: the scale 3.0, lowered by 0.01 per timestep, at
    timestep 0. *)
Lemma get_pag_scale_clamped_witness :
  do_pag_adaptive_scaling Samples.adaptive_pag = true
  /\ SFltb (_get_pag_scale Samples.adaptive_pag pzero) pzero = false.
Proof.
  assert (H : do_pag_adaptive_scaling Samples.adaptive_pag = true)
    by (vm_compute; reflexivity).
  split; [exact H|].
  exact (proj2 get_pag_scale_clamped Samples.adaptive_pag pzero H).
Defined.

(** X15 in floats: the halves [1.0] and [2.0] under the PAG scale 3.0. *)
Lemma pag_without_cfg_witness :
  length [Examples.f32 1 0] = length [Examples.f32 2 0]
  /\ _apply_perturbed_attention_guidance Examples.pag3
       ([Examples.f32 1 0] ++ [Examples.f32 2 0]) false pzero pzero
     = Ok [Examples.f32 (-2) 0].
Proof.
  split; [reflexivity|].
  rewrite (proj1 pag_without_cfg spec_float IEEE Examples.pag3 pzero pzero
             [Examples.f32 1 0] [Examples.f32 2 0] eq_refl).
  vm_compute. reflexivity.
Defined.

(** X16 on the small UNet: the default layers [("mid",)] with
    [pag_cfg=True]. *)
Lemma enable_pag_selected_layers_witness :
  Forall PAG.known_layer (map fst (PAG.unet Samples.pipeline))
  /\ nth_error
       (PAG.unet
          (snd (PAG.enable_pag PAG.decimal_int Samples.pipeline
                  (IEEE754.of_Z float64 3) pzero ["mid"%string] None true)))
       3
     = Some ("mid_block.attentions.0.transformer_blocks.0.attn1"%string,
             PAG.PAGCFGIdentitySelfAttnProcessor2_0).
Proof.
  assert (Hk : Forall PAG.known_layer (map fst (PAG.unet Samples.pipeline))).
  { cbn [map fst PAG.unet Samples.pipeline Samples.unet_modules].
    repeat (apply Forall_cons;
            [intros H; vm_compute in H |- *; first [discriminate H | auto]|]).
    apply Forall_nil. }
  split; [exact Hk|].
  rewrite (enable_pag_selected_layers PAG.decimal_int Samples.pipeline
             (IEEE754.of_Z float64 3) pzero ["mid"%string] None true
             (or_introl eq_refl) Hk).
  - reflexivity.
  - apply Forall_cons; [right; left; reflexivity|apply Forall_nil].
Defined.

(** X18 on the small UNet: the entry ["u-1"] selects the last [up] layer,
    the module at position 5. *)
Lemma enable_pag_layer_index_witness :
  Forall PAG.known_layer (map fst (PAG.unet Samples.pipeline))
  /\ PAG.decimal_int "-1" = Some (-1)
  /\ nth_error
       (PAG.unet
          (snd (PAG.enable_pag PAG.decimal_int Samples.pipeline
                  (IEEE754.of_Z float64 3) pzero ["mid"%string]
                  (Some ["u-1"%string]) true)))
       5
     = option_map
         (fun m => (fst m, PAG.PAGCFGIdentitySelfAttnProcessor2_0))
         (nth_error (PAG.unet Samples.pipeline) 5).
Proof.
  assert (Hk : Forall PAG.known_layer (map fst (PAG.unet Samples.pipeline))).
  { cbn [map fst PAG.unet Samples.pipeline Samples.unet_modules].
    repeat (apply Forall_cons;
            [intros H; vm_compute in H |- *; first [discriminate H | auto]|]).
    apply Forall_nil. }
  assert (Hn : PAG.decimal_int "-1" = Some (-1)) by reflexivity.
  split; [exact Hk|]. split; [exact Hn|].
  pose proof (proj1 (proj1 (enable_pag_layer_index PAG.decimal_int
                              Samples.pipeline (IEEE754.of_Z float64 3) pzero
                              ["mid"%string] "u" "up" "-1" (-1) true Hk
                              (or_intror (or_intror (conj eq_refl eq_refl)))
                              Hn)
                       5%nat eq_refl)) as H.
  cbn [append] in H. rewrite H. reflexivity.
Defined.

(** X17 on the small UNet: the layer name ["middle"]. *)
Lemma enable_pag_errors_witness :
  fst (PAG.enable_pag PAG.decimal_int Samples.pipeline
         (IEEE754.of_Z float64 3) pzero ["middle"%string] None true)
  = Raise ValueError.
Proof.
  apply (proj2 (enable_pag_errors PAG.decimal_int Samples.pipeline
                  (IEEE754.of_Z float64 3) pzero ["middle"%string] None true)).
  - now left.
  - cbn [map fst PAG.unet Samples.pipeline Samples.unet_modules].
    repeat (apply Forall_cons;
            [intros H; vm_compute in H |- *; first [discriminate H | auto]|]).
    apply Forall_nil.
  - exists "middle"%string. split; [now left|].
    repeat split; discriminate.
Defined.

(** X19 on the small UNet: PAG enabled on the layers ["d0"] and ["u-1"],
    then disabled. *)
Lemma disable_pag_after_enable_witness :
  PAG.enable_pag PAG.decimal_int Samples.pipeline (IEEE754.of_Z float64 3)
    pzero ["mid"%string] (Some ["d0"%string; "u-1"%string]) true
  = (Ok tt, Samples.enabled)
  /\ exists disabled,
      PAG.disable_pag PAG.decimal_int Samples.enabled = (Ok tt, disabled)
      /\ PAG._is_pag_enabled disabled = false
      /\ PAG.disable_pag PAG.decimal_int disabled
         = (Raise ValueError, disabled).
Proof.
  assert (H : PAG.enable_pag PAG.decimal_int Samples.pipeline
                (IEEE754.of_Z float64 3) pzero ["mid"%string]
                (Some ["d0"%string; "u-1"%string]) true
              = (Ok tt, Samples.enabled))
    by (vm_compute; reflexivity).
  split; [exact H|].
  destruct (disable_pag_after_enable PAG.decimal_int Samples.pipeline
              (IEEE754.of_Z float64 3) pzero ["mid"%string]
              (Some ["d0"%string; "u-1"%string]) true Samples.enabled H)
    as (disabled & H1 & H2 & _ & _ & _ & _ & _ & _ & H3).
  exists disabled. split; [exact H1|]. split; [exact H2|exact H3].
Defined.

(** X20 in exact arithmetic: the cell (1, 2) of the grid for height 4 and
    width 6. *)
Lemma latent_image_ids_grid_witness :
  0 <= 1 < 4 / 2 /\ 0 <= 2 < 6 / 2
  /\ exists ids,
      _prepare_latent_image_ids (A:=Exact) (fun x : R => x) 1 4 6 = Ok ids
      /\ nth_error ids (Z.to_nat (1 * (6 / 2) + 2))
         = Some [0%R; 1%R; 2%R].
Proof.
  assert (Hi : 0 <= 1 < 4 / 2) by (change (4 / 2) with 2; lia).
  assert (Hj : 0 <= 2 < 6 / 2) by (change (6 / 2) with 3; lia).
  split; [exact Hi|]. split; [exact Hj|].
  exact (proj1 (proj2 latent_image_ids_grid) 1 4 6 1 2 Hi Hj).
Defined.

(** X22 with two prompts, two images per prompt and the default guidance
    scale 10.0: the empty negative prompts come first. *)
Lemma call_prompt_batches_witness :
  0 <= 2
  /\ fltb (of_int float64 1) (IEEE754.of_Z float64 10) = true
  /\ call_encode_prompts string string Samples.echo
       (PromptList ["a cat"%string; "a dog"%string]) PromptNone 2
       (IEEE754.of_Z float64 10) None None None None
     = Ok (4, [EmptyString; EmptyString; EmptyString; EmptyString;
            "a cat"; "a dog"; "a cat"; "a dog"]%string,
           [EmptyString; EmptyString; EmptyString; EmptyString;
            "a cat"; "a dog"; "a cat"; "a dog"]%string).
Proof.
  assert (Hn : 0 <= 2) by lia.
  assert (Hg : fltb (of_int float64 1) (IEEE754.of_Z float64 10) = true)
    by (vm_compute; reflexivity).
  split; [exact Hn|]. split; [exact Hg|].
  exact (proj1 (proj2 (call_prompt_batches string string
                         Samples.echo ["a cat"%string; "a dog"%string]
                         PromptNone 2 (IEEE754.of_Z float64 10)
                         ["a cat"%string; "a dog"%string]
                         [EmptyString; EmptyString]
                         ["a cat"%string; "a dog"%string]
                         [EmptyString; EmptyString] Hn))
           Hg eq_refl eq_refl).
Defined.

End MoreInstances.
